(** * Bruno voice pipeline: plan validation, wake gate and endpointing

    A shallow embedding of the control logic of the Bruno scripts
    ([bruno_stage3_bridge.py], [bruno_wake_loop_vosk.py],
    [bruno_stage1_whisper.py], [bruno_stage1_vosk_big_loop.py]) and the
    properties their specification states about it.

    Conventions of the embedding.
    - A decoded JSON document is a tree [json]; a Python [dict] is the list
      of its items in insertion order, read with [dict_get] (first item of
      that key; a real [dict] has one item per key).
    - Python [int] is [Z]; a Python [float] is [pyfloat]: NaN, the two
      infinities, or a finite value carried as a rational.  The only float
      operations of the code are comparisons, [float()] and [int()], which
      are exact on the values they are given; a decimal literal of the
      source ([0.1], [0.5]) stands for the double it denotes.
    - Text is ASCII ([string]).
    - Code that raises returns [Raise e] in the [result] monad. *)

From Stdlib Require Import ZArith QArith Qround Lia Lqa Bool Ascii String.
From stdpp Require Import gmap strings list.

Local Set Warnings "-register-all".
Local Open Scope string_scope.
Local Open Scope Z_scope.

(** ** Exceptions and the error monad *)

Inductive exn : Type :=
| AttributeError
| TypeError
| ValueError
| OverflowError
| ValidationError
| JSONDecodeError
| ConnectionError
| Timeout
| HTTPError
| KeyError
| SystemError
| KeyboardInterrupt.

Inductive result (A : Type) : Type :=
| Ok (a : A)
| Raise (e : exn).
Arguments Ok {A} a.
Arguments Raise {A} e.

#[global] Instance result_ret : MRet result := fun A a => Ok a.

#[global] Instance result_bind : MBind result := fun A B k m =>
  match m with
  | Ok a => k a
  | Raise e => Raise e
  end.

(** [try: body except Exception: handler], for a handler that ignores the
    exception object. *)
Definition try_except {A : Type} (body : result A) (handler : result A) : result A :=
  match body with
  | Ok a => Ok a
  | Raise _ => handler
  end.

(** ** Python numbers *)

Inductive pyfloat : Type :=
| FNaN
| FInf (negative : bool)
| FFin (q : Q).

Inductive pynum : Type :=
| PInt (z : Z)
| PFloat (f : pyfloat).

Definition Qltb (p q : Q) : bool := negb (Qle_bool q p).

Definition float_of_num (n : pynum) : pyfloat :=
  match n with
  | PInt z => FFin (inject_Z z)
  | PFloat f => f
  end.

(** [a < b] on floats: false as soon as one side is NaN. *)
Definition float_ltb (a b : pyfloat) : bool :=
  match a, b with
  | FNaN, _ | _, FNaN => false
  | FInf true, FInf true => false
  | FInf true, _ => true
  | _, FInf true => false
  | FInf false, _ => false
  | FFin _, FInf false => true
  | FFin p, FFin q => Qltb p q
  end.

(** Python compares an [int] with a [float] by value, exactly. *)
Definition num_ltb (a b : pynum) : bool :=
  float_ltb (float_of_num a) (float_of_num b).

Definition float_eqb (a b : pyfloat) : bool :=
  match a, b with
  | FInf s, FInf t => Bool.eqb s t
  | FFin p, FFin q => Qeq_bool p q
  | _, _ => false
  end.

(** [a == b] on numbers. *)
Definition num_eqb (a b : pynum) : bool :=
  float_eqb (float_of_num a) (float_of_num b).

(** The builtins [max(a, b)] and [min(a, b)]: the first argument is kept
    unless the second is strictly greater (smaller). *)
Definition py_max (a b : pynum) : pynum := if num_ltb a b then b else a.
Definition py_min (a b : pynum) : pynum := if num_ltb b a then b else a.

(** ** JSON documents *)

Inductive json : Type :=
| JNull
| JBool (b : bool)
| JNum (n : pynum)
| JStr (s : string)
| JArr (items : list json)
| JObj (fields : list (string * json)).

Definition JInt (z : Z) : json := JNum (PInt z).
Definition JFloat (q : Q) : json := JNum (PFloat (FFin q)).

Fixpoint dict_get {V : Type} (k : string) (d : list (string * V)) : option V :=
  match d with
  | [] => None
  | (k', v) :: d' => if String.eqb k k' then Some v else dict_get k d'
  end.

Definition dict_has {V : Type} (k : string) (d : list (string * V)) : bool :=
  match dict_get k d with Some _ => true | None => false end.

(** [d.get(k, default)]. *)
Definition dict_get_default {V : Type} (k : string) (default : V)
    (d : list (string * V)) : V :=
  match dict_get k d with Some v => v | None => default end.

Definition str_in (s : string) (l : list string) : bool :=
  existsb (String.eqb s) l.

(** ** Texts

    A text is a [string] of ASCII characters, which is what the English
    recognisers and the planner's JSON hand over; on such a text [lower] is
    [str.lower()], [is_space] is [str.isspace()] of a character and
    [is_c_space] the white space that [float()] and [int()] skip. *)

(** White space to [str.strip()] and [str.split()]: tab to carriage return,
    the four separators 28 to 31 and the blank. *)
Definition is_space (c : ascii) : bool :=
  let n := N_of_ascii c in
  ((9 <=? n) && (n <=? 13) || (28 <=? n) && (n <=? 32))%N.

Fixpoint lstrip_space (l : list ascii) : list ascii :=
  match l with
  | c :: l' => if is_space c then lstrip_space l' else l
  | [] => []
  end.

Definition strip_space (l : list ascii) : list ascii :=
  rev (lstrip_space (rev (lstrip_space l))).

(** ** Builtin conversions [float()] and [int()]

    On a [str] argument both builtins skip white space at the two ends and
    then read the whole text as a literal; the grammar is the one of the
    language reference.  The white space they skip in an ASCII text is that
    of C, tab to carriage return and the blank: the separators 28 to 31
    stay and make the text no literal. *)

Definition is_c_space (c : ascii) : bool :=
  let n := N_of_ascii c in
  ((9 <=? n) && (n <=? 13) || (n =? 32))%N.

Fixpoint lstrip_c_space (l : list ascii) : list ascii :=
  match l with
  | c :: l' => if is_c_space c then lstrip_c_space l' else l
  | [] => []
  end.

Definition strip_c_space (l : list ascii) : list ascii :=
  rev (lstrip_c_space (rev (lstrip_c_space l))).

Definition digit_of (c : ascii) : option Z :=
  let n := N_of_ascii c in
  if ((48 <=? n) && (n <=? 57))%N then Some (Z.of_N n - 48) else None.

Definition is_digit (c : ascii) : bool :=
  match digit_of c with Some _ => true | None => false end.

(** [digit (["_"] digit)*], read greedily: the value read so far, the number
    of digits and the text left. *)
Fixpoint read_digits (acc : Z) (n : nat) (l : list ascii) : Z * nat * list ascii :=
  match l with
  | c :: l' =>
      match digit_of c with
      | Some d => read_digits (10 * acc + d) (S n) l'
      | None =>
          if Ascii.eqb c "_" && negb (Nat.eqb n 0) then
            match l' with
            | c2 :: _ => if is_digit c2 then read_digits acc n l' else (acc, n, l)
            | [] => (acc, n, l)
            end
          else (acc, n, l)
      end
  | [] => (acc, n, [])
  end.

Definition read_sign (l : list ascii) : bool * list ascii :=
  match l with
  | c :: l' =>
      if Ascii.eqb c "-" then (true, l')
      else if Ascii.eqb c "+" then (false, l')
      else (false, l)
  | [] => (false, l)
  end.

Definition lower_ascii (c : ascii) : ascii :=
  let n := N_of_ascii c in
  if ((65 <=? n) && (n <=? 90))%N then ascii_of_N (n + 32) else c.

Definition lower (s : string) : string :=
  string_of_list_ascii (map lower_ascii (list_ascii_of_string s)).

(** [m * 10^e] as a rational. *)
Definition Qscale10 (m e : Z) : Q :=
  if 0 <=? e then inject_Z (m * 10 ^ e)
  else Qmake m (Z.to_pos (10 ^ (- e))).

Definition read_exponent (l : list ascii) : option (Z * list ascii) :=
  match l with
  | c :: l' =>
      if Ascii.eqb (lower_ascii c) "e" then
        let '(neg, l1) := read_sign l' in
        let '(e, n, l2) := read_digits 0 0 l1 in
        if Nat.eqb n 0 then None else Some (if neg then - e else e, l2)
      else Some (0, l)
  | [] => Some (0, [])
  end.

(** [number [exponent]] with
    [number ::= [digitpart] "." digitpart | digitpart ["."]]. *)
Definition read_floatnumber (l : list ascii) : option Q :=
  let '(ip, ni, l1) := read_digits 0 0 l in
  let '(fp, nf, l2) :=
    match l1 with
    | c :: l1' => if Ascii.eqb c "." then read_digits 0 0 l1' else (0, 0%nat, l1)
    | [] => (0, 0%nat, l1)
    end in
  if Nat.eqb ni 0 && Nat.eqb nf 0 then None
  else
    match read_exponent l2 with
    | Some (e, []) => Some (Qscale10 (ip * 10 ^ Z.of_nat nf + fp) (e - Z.of_nat nf))
    | _ => None
    end.

(** The integer nearest to [n / d], the even one of two equally near, for
    [0 < d]. *)
Definition round_half_even (n d : Z) : Z :=
  let q := n / d in
  match 2 * (n mod d) ?= d with
  | Lt => q
  | Gt => q + 1
  | Eq => if Z.even q then q else q + 1
  end.

(** [n / d < 2 ^ e], for [0 < d]. *)
Definition below_pow2 (n d e : Z) : bool :=
  if 0 <=? e then n <? d * 2 ^ e else n * 2 ^ (- e) <? d.

(** The binary exponent [e] of [n / d], for [0 < n] and [0 < d]:
    [2 ^ e <= n / d < 2 ^ (e + 1)]. *)
Definition binary_exponent (n d : Z) : Z :=
  let e := Z.log2 n - Z.log2 d in
  if below_pow2 n d e then e - 1 else e.

(** The double nearest to [n / d], for [0 < n] and [0 < d]: 53 bits from
    the leading one, or from the bit worth [2 ^ -1022] in the subnormal
    range, rounded to nearest with ties to even; an infinity where that
    reaches [2 ^ 1024]. *)
Definition round_double_pos (n d : Z) : pyfloat :=
  let e := Z.max (binary_exponent n d) (- 1022) in
  let k := e - 52 in
  let m := if 0 <=? k then round_half_even n (d * 2 ^ k)
           else round_half_even (n * 2 ^ (- k)) d in
  let v := if 0 <=? k then inject_Z (m * 2 ^ k)
           else Qmake m (Z.to_pos (2 ^ (- k))) in
  if Qle_bool (inject_Z (2 ^ 1024)) v then FInf false else FFin (Qred v).

(** The double that a decimal text of value [q] is read as.  A float is
    held as the rational it is; the sign of a zero is not kept. *)
Definition round_double (q : Q) : pyfloat :=
  match Qnum q with
  | Z0 => FFin 0
  | Zpos n => round_double_pos (Zpos n) (Zpos (Qden q))
  | Zneg n =>
      match round_double_pos (Zpos n) (Zpos (Qden q)) with
      | FFin v => FFin (Qopp v)
      | _ => FInf true
      end
  end.

Definition float_of_str (s : string) : result pyfloat :=
  let '(neg, body) := read_sign (strip_c_space (list_ascii_of_string s)) in
  let word := string_of_list_ascii (map lower_ascii body) in
  if String.eqb word "inf" || String.eqb word "infinity" then Ok (FInf neg)
  else if String.eqb word "nan" then Ok FNaN
  else
    match read_floatnumber body with
    | Some q => Ok (round_double (if neg then Qopp q else q))
    | None => Raise ValueError
    end.

(** CPython refuses decimal texts of more than 4300 digits. *)
Definition int_max_str_digits : nat := 4300.

Definition int_of_str (s : string) : result Z :=
  let '(neg, body) := read_sign (strip_c_space (list_ascii_of_string s)) in
  match read_digits 0 0 body with
  | (z, n, []) =>
      if Nat.eqb n 0 || Nat.ltb int_max_str_digits n then Raise ValueError
      else Ok (if neg then - z else z)
  | _ => Raise ValueError
  end.

(** The least magnitude of an [int] that [float()] cannot represent: it
    rounds past the largest double. *)
Definition float_overflow_bound : Z := 2 ^ 1024 - 2 ^ 970.

Definition py_float (v : json) : result pyfloat :=
  match v with
  | JNum (PInt z) =>
      if Z.abs z <? float_overflow_bound then Ok (FFin (inject_Z z))
      else Raise OverflowError
  | JNum (PFloat f) => Ok f
  | JBool b => Ok (FFin (if b then 1 else 0))
  | JStr s => float_of_str s
  | JNull | JArr _ | JObj _ => Raise TypeError
  end.

(** [int()] of a float drops the fraction (rounds toward zero). *)
Definition Qtrunc (q : Q) : Z := Z.quot (Qnum q) (Z.pos (Qden q)).

Definition py_int (v : json) : result Z :=
  match v with
  | JNum (PInt z) => Ok z
  | JNum (PFloat FNaN) => Raise ValueError
  | JNum (PFloat (FInf _)) => Raise OverflowError
  | JNum (PFloat (FFin q)) => Ok (Qtrunc q)
  | JBool b => Ok (if b then 1 else 0)
  | JStr s => int_of_str s
  | JNull | JArr _ | JObj _ => Raise TypeError
  end.

(** [v in S] for a set [S] of strings: the value is hashed first, and lists
    and dicts are unhashable. *)
Definition py_in_set (v : json) (S : list string) : result bool :=
  match v with
  | JStr s => Ok (str_in s S)
  | JArr _ | JObj _ => Raise TypeError
  | JNull | JBool _ | JNum _ => Ok false
  end.

(** The values a [for] loop draws from [v]: the items of a list, the keys of
    a dict, the characters of a string. *)
Definition py_iter (v : json) : result (list json) :=
  match v with
  | JArr l => Ok l
  | JObj d => Ok (map (fun kv => JStr (fst kv)) d)
  | JStr s => Ok (map (fun c => JStr (String c EmptyString)) (list_ascii_of_string s))
  | JNull | JBool _ | JNum _ => Raise TypeError
  end.

(** [v.get(k, default)], which only a dict has. *)
Definition py_get (v : json) (k : string) (default : json) : result json :=
  match v with
  | JObj d => Ok (dict_get_default k default d)
  | _ => Raise AttributeError
  end.

(** ** JSON Schema: the keywords [BRUNO_SCHEMA] uses *)

Inductive jtype : Type := TObject | TString | TArray | TNumber | TInteger.

Inductive schema : Type := Schema {
  s_type : option jtype;
  s_required : list string;
  s_properties : list (string * schema);
  s_additionalProperties : bool;
  s_enum : option (list string);
  s_minimum : option pynum;
  s_maximum : option pynum;
  s_minItems : option nat;
  s_maxItems : option nat;
  s_items : option schema
}.

(** A schema with no keyword: every instance passes. *)
Definition any_schema : schema :=
  Schema None [] [] true None None None None None None.

Definition Qis_integer (q : Q) : bool :=
  Z.eqb (Z.rem (Qnum q) (Z.pos (Qden q))) 0.

(** ["type"]: a bool is neither a number nor an integer; a float whose
    value is integral is an integer. *)
Definition type_ok (t : jtype) (v : json) : bool :=
  match t, v with
  | TObject, JObj _ => true
  | TString, JStr _ => true
  | TArray, JArr _ => true
  | TNumber, JNum _ => true
  | TInteger, JNum (PInt _) => true
  | TInteger, JNum (PFloat (FFin q)) => Qis_integer q
  | _, _ => false
  end.

Definition opt_ok {A : Type} (o : option A) (check : A -> bool) : bool :=
  match o with Some a => check a | None => true end.

(** Each keyword constrains only the instances of the type it speaks of. *)
Definition required_ok (req : list string) (v : json) : bool :=
  match v with
  | JObj d => forallb (fun k => dict_has k d) req
  | _ => true
  end.

Definition additional_ok {S : Type} (allowed : bool) (props : list (string * S))
    (v : json) : bool :=
  match v with
  | JObj d => allowed || forallb (fun kv => dict_has (fst kv) props) d
  | _ => true
  end.

Definition enum_ok (names : list string) (v : json) : bool :=
  match v with
  | JStr s => str_in s names
  | _ => false
  end.

Definition minimum_ok (lo : pynum) (v : json) : bool :=
  match v with
  | JNum n => negb (num_ltb n lo)
  | _ => true
  end.

Definition maximum_ok (hi : pynum) (v : json) : bool :=
  match v with
  | JNum n => negb (num_ltb hi n)
  | _ => true
  end.

Definition minItems_ok (n : nat) (v : json) : bool :=
  match v with
  | JArr l => Nat.leb n (length l)
  | _ => true
  end.

Definition maxItems_ok (n : nat) (v : json) : bool :=
  match v with
  | JArr l => Nat.leb (length l) n
  | _ => true
  end.

(** ["properties"]: each property the instance has is checked against its
    own schema. *)
Definition properties_ok (check : schema -> json -> bool)
    (props : list (string * schema)) (v : json) : bool :=
  match v with
  | JObj d =>
      forallb (fun ks : string * schema =>
                 match dict_get (fst ks) d with
                 | Some x => check (snd ks) x
                 | None => true
                 end) props
  | _ => true
  end.

(** ["items"]. *)
Definition items_ok (check : json -> bool) (v : json) : bool :=
  match v with
  | JArr l => forallb check l
  | _ => true
  end.

Fixpoint conforms (s : schema) (v : json) {struct s} : bool :=
  match s with
  | Schema ty req props addl enum lo hi mni mxi items =>
      opt_ok ty (fun t => type_ok t v)
      && required_ok req v
      && properties_ok conforms props v
      && additional_ok addl props v
      && opt_ok enum (fun names => enum_ok names v)
      && opt_ok lo (fun b => minimum_ok b v)
      && opt_ok hi (fun b => maximum_ok b v)
      && opt_ok mni (fun n => minItems_ok n v)
      && opt_ok mxi (fun n => maxItems_ok n v)
      && opt_ok items (fun si => items_ok (conforms si) v)
  end.

(** [jsonschema.validate(instance, schema)]. *)
Definition validate (instance : json) (s : schema) : result unit :=
  if conforms s instance then Ok tt else Raise ValidationError.

Definition PARTS : list string :=
  ["tail"; "head"; "left_ear"; "right_ear"; "left_eye"; "right_eye";
   "chest"; "back"; "left_leg"; "right_leg"].

Definition MODES : list string := ["on"; "off"; "blink"; "pulse"; "wag"; "chase"].

(** A schema for a scalar: its type and, where given, an enumeration and
    bounds. *)
Definition leaf (t : jtype) (enum : option (list string)) (lo hi : option pynum)
    : schema :=
  Schema (Some t) [] [] true enum lo hi None None None.

Definition EFFECT_SCHEMA : schema :=
  Schema (Some TObject) ["part"; "mode"]
    [ ("part", leaf TString (Some PARTS) None None);
      ("mode", leaf TString (Some MODES) None None);
      ("hz", leaf TNumber None (Some (PFloat (FFin 0.1))) (Some (PInt 30)));
      ("duty", leaf TNumber None (Some (PFloat (FFin 0.0))) (Some (PFloat (FFin 1.0))));
      ("duration_ms", leaf TInteger None (Some (PInt 50)) (Some (PInt 60000))) ]
    false None None None None None None.

Definition EFFECTS_SCHEMA : schema :=
  Schema (Some TArray) [] [] true None None None
    (Some 1%nat) (Some 5%nat) (Some EFFECT_SCHEMA).

Definition BRUNO_SCHEMA : schema :=
  Schema (Some TObject) ["intent"; "effects"]
    [ ("intent", leaf TString None None None);
      ("effects", EFFECTS_SCHEMA) ]
    false None None None None None None.

Definition FALLBACK_PLAN : json :=
  JObj [ ("intent", JStr "EMOTE_OR_ACTION");
         ("effects", JArr [ JObj [ ("part", JStr "tail"); ("mode", JStr "wag");
                                   ("hz", JInt 6); ("duration_ms", JInt 1500) ] ]) ].

(** ** The plan validator *)

(** The body of the repair loop, [bruno_stage3_bridge.py] lines 121-126
    (the same statements, in the same order, in the two Vosk scripts). *)
Definition fix_effect (e : json) : result json :=
  part ← py_get e "part" (JStr "tail");
  known ← py_in_set part PARTS;
  let part := if (known : bool) then part else JStr "tail" in
  mode ← py_get e "mode" (JStr "wag");
  known ← py_in_set mode MODES;
  let mode := if (known : bool) then mode else JStr "wag" in
  hz ← (v ← py_get e "hz" (JInt 6); py_float v);
  let hz := py_min (py_max (PFloat hz) (PFloat (FFin 0.1))) (PInt 30) in
  duty ← (v ← py_get e "duty" (JFloat 0.5); py_float v);
  let duty := py_min (py_max (PFloat duty) (PFloat (FFin 0.0))) (PFloat (FFin 1.0)) in
  dur ← (v ← py_get e "duration_ms" (JInt 1500); py_int v);
  let dur := py_min (py_max (PInt dur) (PInt 50)) (PInt 60000) in
  Ok (JObj [ ("part", part); ("mode", mode); ("hz", JNum hz);
             ("duty", JNum duty); ("duration_ms", JNum dur) ]).

(** [for e in es: fixed["effects"].append(fix(e))], [acc] being the list
    built so far. *)
Fixpoint fix_effects (es : list json) (acc : list json) : result (list json) :=
  match es with
  | [] => Ok acc
  | e :: es' => e' ← fix_effect e; fix_effects es' (acc ++ [e'])
  end.

(** The repair path up to its [return]: the fields of [fixed]. *)
Definition repair (plan : json) : result (json * list json) :=
  intent ← py_get plan "intent" (JStr "EMOTE_OR_ACTION");
  source ← py_get plan "effects" (JArr []);
  es ← py_iter source;
  effects ← fix_effects es [];
  Ok (intent, effects).

Definition fixed_plan (intent : json) (effects : list json) : json :=
  JObj [ ("intent", intent); ("effects", JArr effects) ].

(** ** Text operations *)

(** [w in t]: [w] occurs in [t]. *)
Fixpoint str_contains (w t : string) : bool :=
  String.prefix w t ||
  match t with
  | String _ t' => str_contains w t'
  | EmptyString => false
  end.

(** [t.replace(w, "")] scans [t] once from the left; an occurrence found is
    dropped whole and the scan resumes behind it.  [skip] counts the
    characters of the current occurrence still to drop. *)
Fixpoint remove_scan (w : string) (skip : nat) (t : string) : string :=
  match t with
  | EmptyString => EmptyString
  | String c t' =>
      match skip with
      | S k => remove_scan w k t'
      | O =>
          if String.prefix w t then remove_scan w (String.length w - 1) t'
          else String c (remove_scan w O t')
      end
  end.

Definition py_remove (w t : string) : string :=
  if String.eqb w "" then t else remove_scan w 0 t.

Fixpoint lstrip_chars (chars : list ascii) (l : list ascii) : list ascii :=
  match l with
  | c :: l' => if existsb (Ascii.eqb c) chars then lstrip_chars chars l' else l
  | [] => []
  end.

(** [t.strip(chars)]. *)
Definition py_strip (chars : string) (t : string) : string :=
  let cs := list_ascii_of_string chars in
  string_of_list_ascii
    (rev (lstrip_chars cs (rev (lstrip_chars cs (list_ascii_of_string t))))).

(** [t.strip()]. *)
Definition py_strip_space (t : string) : string :=
  string_of_list_ascii (strip_space (list_ascii_of_string t)).

(** [len(t.split())]: the number of maximal runs of non-space characters. *)
Fixpoint count_words (in_word : bool) (l : list ascii) : nat :=
  match l with
  | [] => 0
  | c :: l' =>
      if is_space c then count_words false l'
      else if in_word then count_words true l'
      else S (count_words true l')
  end.

Definition word_count (t : string) : nat :=
  count_words false (list_ascii_of_string t).

(** ** The planner's HTTP reply, as [requests] presents it *)

Record http_response : Type := {
  status_code : Z;
  json_body : result json   (* what [r.json()] gives *)
}.

(** [r.raise_for_status()]. *)
Definition raise_for_status (r : http_response) : result unit :=
  if (400 <=? status_code r) && (status_code r <? 600) then Raise HTTPError
  else Ok tt.

(** The world a planner call runs in: the outcome of [requests.post] for a
    command text, and [json.loads]. *)
Record planner_env : Type := {
  post : string -> result http_response;
  json_loads : string -> result json
}.

(** [s.strip()], which only a [str] has. *)
Definition py_str_strip (v : json) : result string :=
  match v with
  | JStr s => Ok (py_strip_space s)
  | _ => Raise AttributeError
  end.

(** ** Audio capture, as the endpointing loop sees it *)

(** A block handed over by the device callback, with the energy
    [sqrt(mean(x**2)) * 32768] measured on it. *)
Record chunk : Type := { rms : Q }.

(** One turn of the capture loop: the queue times out, or it yields a block
    and the clock is read at the floor test ([t_floor]) and, when the loop
    gets there, at the ceiling test ([t_ceiling]). *)
Inductive tick : Type :=
| QueueEmpty
| Block (c : chunk) (t_floor t_ceiling : Q).

(** Why the loop was left, with the clock reading that decided it. *)
Inductive stop : Type :=
| Starved
| Silence (now : Q)
| Ceiling (now : Q).

(** Truth value of an object in a condition. *)
Definition py_truthy (v : json) : bool :=
  match v with
  | JNull => false
  | JBool b => b
  | JNum n => negb (num_eqb n (PInt 0))
  | JStr s => negb (String.eqb s "")
  | JArr l => negb (Nat.eqb (length l) 0)
  | JObj d => negb (Nat.eqb (length d) 0)
  end.

(** [bruno_stage3_bridge.py] (and, statement for statement,
    [bruno_wake_loop_vosk.py]). *)
Module Bridge.

Definition validate_or_fix (plan : json) : result json :=
  try_except (validate plan BRUNO_SCHEMA ≫= fun _ => Ok plan)
    ('(intent, effects) ← repair plan;
     let fixed := fixed_plan intent effects in
     Ok (if py_truthy (JArr effects) then fixed else FALLBACK_PLAN)).


Definition WAKE_WORDS : list string :=
  ["hey bruno"; "hi bruno"; "okay bruno"; "tommy"; "charlie"; "bruno"].
Definition WAKE_DEBOUNCE_S : Q := 2.0.
Definition FRAME_MS : Z := 30.
Definition ENERGY_THRESH : Q := 100.0.
Definition UTT_MIN_S : Q := 1.5.
Definition UTT_MAX_S : Q := 8.0.
Definition SILENCE_HOLD_S : Q := 0.7.

Definition contains_wake (text : string) : bool :=
  let t := lower text in
  existsb (fun w => str_contains w t) WAKE_WORDS.

Definition strip_wake (text : string) : string :=
  let t := fold_left (fun t w => py_remove w t) WAKE_WORDS (lower text) in
  py_strip " ,.?!" t.

Definition ask_llm (env : planner_env) (user_text : string) : result json :=
  r ← post env user_text;
  _ ← raise_for_status r;
  body ← json_body r;
  message ← py_get body "message" (JObj []);
  content ← py_get message "content" (JStr "");
  content ← py_str_strip content;
  try_except (json_loads env content) (Ok FALLBACK_PLAN).

(** The parameters of [record_utterance]. *)
Record capture_config : Type := {
  min_s : Q;
  max_s : Q;
  energy : Q;
  frame_ms : Q;
  silence_hold : Q
}.

Definition default_config : capture_config :=
  {| min_s := UTT_MIN_S; max_s := UTT_MAX_S; energy := ENERGY_THRESH;
     frame_ms := inject_Z FRAME_MS; silence_hold := SILENCE_HOLD_S |}.

(** [a / b] on floats, each operand read as the double nearest to it and
    the quotient rounded to a double; [None] where the code has no finite
    quotient. *)
Definition float_div (a b : Q) : option Q :=
  match round_double a, round_double b with
  | FFin x, FFin y =>
      if Qeq_bool y 0 then None
      else match round_double (x / y) with
           | FFin q => Some q
           | _ => None
           end
  | _, _ => None
  end.

(** Line 140, [int(silence_hold / (frame_ms/1000.0))], with the two
    quotients those of floats.  Where the line raises (a [frame_ms] of 0 is
    a [ZeroDivisionError]) the loop is not reached; the count is 0 there. *)
Definition silence_frames_needed (cfg : capture_config) : Z :=
  match float_div (frame_ms cfg) 1000.0 with
  | Some frame_s =>
      match float_div (silence_hold cfg) frame_s with
      | Some frames => Qtrunc frames
      | None => 0
      end
  | None => 0
  end.

(** The [while True] loop of [record_utterance], lines 150-168, run on
    the turns the device and the clock provide; [None] when they end
    with the loop still running. *)
Fixpoint capture (cfg : capture_config) (start : Q) (ticks : list tick)
    (buf : list chunk) (silent_run : Z) : list chunk * option stop :=
  match ticks with
  | [] => (buf, None)
  | QueueEmpty :: _ => (buf, Some Starved)
  | Block x t_floor t_ceiling :: ticks' =>
      let buf := (buf ++ [x])%list in
      let speaking := Qltb (energy cfg) (rms x) in
      if Qltb (t_floor - start) (min_s cfg) then
        if Qltb (max_s cfg) (t_ceiling - start) then (buf, Some (Ceiling t_ceiling))
        else capture cfg start ticks' buf silent_run
      else
        let silent_run := if speaking then 0 else silent_run + 1 in
        if silence_frames_needed cfg <=? silent_run then (buf, Some (Silence t_floor))
        else if Qltb (max_s cfg) (t_ceiling - start) then (buf, Some (Ceiling t_ceiling))
        else capture cfg start ticks' buf silent_run
  end.

(** [record_utterance] up to the end of its loop: the blocks recorded and
    what ended the recording.  The concatenation and the peak scaling of
    lines 170-175 work on the samples only and are left out. *)
Definition record_utterance (cfg : capture_config) (start : Q)
    (ticks : list tick) : list chunk * option stop :=
  capture cfg start ticks [] 0.

(** What one turn of the [while True] loop of [main] meets: the two
    transcripts, the clock at the debounce test and at the assignment of
    [last_wake_ts], the planner's world and the outcome of
    [send_to_esp32]. *)
Record turn : Type := {
  wake_text : string;
  t_test : Q;
  t_set : Q;
  cmd_text : string;
  planner : planner_env;
  dispatch : json -> result string
}.

Inductive outcome : Type :=
| NoWake            (* one of the three [continue]s *)
| Sent (cmd : string) (plan : json) (reply : result string).

(** Lines 226-235: the wake phase; [Some ts] is the new [last_wake_ts] of
    an accepted wake. *)
Definition wake_gate (last_wake_ts : Q) (w : turn) : option Q :=
  if String.eqb (wake_text w) "" then None
  else if negb (contains_wake (wake_text w)) then None
  else if Qltb (t_test w - last_wake_ts) WAKE_DEBOUNCE_S then None
  else Some (t_set w).

(** Lines 252-254. *)
Definition plan_step (env : planner_env) (cmd : string) : result json :=
  plan ← ask_llm env cmd;
  validate_or_fix plan.

(** One turn of the loop of [main]: the new [last_wake_ts] and what
    happened, or the exception that leaves the loop (the enclosing [try]
    catches [KeyboardInterrupt] only).  Lines 258-262: [except Exception]
    around [send_to_esp32] catches what it raises, an interrupt from the
    keyboard apart, which leaves the loop. *)
Definition main_turn (last_wake_ts : Q) (w : turn) : result (Q * outcome) :=
  match wake_gate last_wake_ts w with
  | None => Ok (last_wake_ts, NoWake)
  | Some ts =>
      let cmd_inline := strip_wake (wake_text w) in
      let cmd := if Nat.leb 2 (word_count cmd_inline) then cmd_inline
                 else cmd_text w in
      let cmd := strip_wake cmd in
      let cmd := if String.eqb cmd "" then "wag your tail" else cmd in
      plan ← plan_step (planner w) cmd;
      match dispatch w plan with
      | Raise KeyboardInterrupt => Raise KeyboardInterrupt
      | reply => Ok (ts, Sent cmd plan reply)
      end
  end.

Fixpoint main_loop (last_wake_ts : Q) (ws : list turn)
    : result (Q * list outcome) :=
  match ws with
  | [] => Ok (last_wake_ts, [])
  | w :: ws' =>
      '(ts, o) ← main_turn last_wake_ts w;
      '(ts', os) ← main_loop ts ws';
      Ok (ts', o :: os)
  end.

(** Lines 238-248 of [main]: the command put to the planner.  [cmd_text]
    is the transcript of the second recording, which is made only when the
    wake utterance leaves fewer than two words. *)
Definition command (w : turn) : string :=
  let cmd_inline := strip_wake (wake_text w) in
  let cmd := if Nat.leb 2 (word_count cmd_inline) then cmd_inline
             else cmd_text w in
  let cmd := strip_wake cmd in
  if String.eqb cmd "" then "wag your tail" else cmd.

(** The ESP32 as [send_to_esp32] meets it: the outcome of the POST of a
    plan, and the text of a reply. *)
Record esp32_env : Type := {
  post_command : json -> result http_response;
  reply_text : http_response -> string
}.

(** Lines 129-132. *)
Definition send_to_esp32 (env : esp32_env) (plan : json) : result string :=
  r ← post_command env plan;
  _ ← raise_for_status r;
  Ok (reply_text env r).

(** Lines 177-188, [segments] being what the model transcribes a recording
    to; [None] while the recording has not ended.  A block has
    [frame_len = 480] samples, so the audio is of size 0 only when no block
    was recorded. *)
Definition transcribe_audio (start : Q) (ticks : list tick)
    (segments : list chunk -> list string) : option string :=
  match record_utterance default_config start ticks with
  | (_, None) => None
  | ([], Some _) => Some ""
  | (audio, Some _) =>
      Some (lower (py_strip_space (String.concat "" (segments audio))))
  end.

End Bridge.

(** [bruno_stage1_whisper.py]: the repaired plan is validated again. *)
Module Whisper.

(** Lines 131-143: both lookups come before the membership tests. *)
Definition fix_effect (e : json) : result json :=
  part ← py_get e "part" (JStr "tail");
  mode ← py_get e "mode" (JStr "wag");
  known ← py_in_set part PARTS;
  let part := if (known : bool) then part else JStr "tail" in
  known ← py_in_set mode MODES;
  let mode := if (known : bool) then mode else JStr "wag" in
  hz ← (v ← py_get e "hz" (JInt 6); py_float v);
  let hz := py_min (py_max (PFloat hz) (PFloat (FFin 0.1))) (PInt 30) in
  duty ← (v ← py_get e "duty" (JFloat 0.5); py_float v);
  let duty := py_min (py_max (PFloat duty) (PFloat (FFin 0.0))) (PFloat (FFin 1.0)) in
  dur ← (v ← py_get e "duration_ms" (JInt 1500); py_int v);
  let dur := py_min (py_max (PInt dur) (PInt 50)) (PInt 60000) in
  Ok (JObj [ ("part", part); ("mode", mode); ("hz", JNum hz);
             ("duty", JNum duty); ("duration_ms", JNum dur) ]).

Fixpoint fix_effects (es : list json) (acc : list json) : result (list json) :=
  match es with
  | [] => Ok acc
  | e :: es' => e' ← fix_effect e; fix_effects es' (acc ++ [e'])
  end.

Definition repair (plan : json) : result (json * list json) :=
  intent ← py_get plan "intent" (JStr "EMOTE_OR_ACTION");
  source ← py_get plan "effects" (JArr []);
  es ← py_iter source;
  effects ← fix_effects es [];
  Ok (intent, effects).

(** [deepcopy] is the identity on a value; [validate] raises nothing but
    [ValidationError], so [except ValidationError] catches all it raises. *)
Definition validate_or_fix (plan : json) : result json :=
  try_except (validate plan BRUNO_SCHEMA ≫= fun _ => Ok plan)
    ('(intent, effects) ← repair plan;
     let fixed :=
       if negb (py_truthy (JArr effects)) then FALLBACK_PLAN
       else fixed_plan intent effects in
     try_except (validate fixed BRUNO_SCHEMA ≫= fun _ => Ok fixed)
       (Ok FALLBACK_PLAN)).

Definition WAKE_WORDS : list string := ["hey bruno"; "hi bruno"; "okay bruno"].

Definition looks_like_wake (text : string) : bool :=
  let t := lower text in
  existsb (fun w => str_contains w t) WAKE_WORDS.

Definition strip_wake (text : string) : string :=
  let t := fold_left (fun t w => py_remove w t) WAKE_WORDS (lower text) in
  py_strip " ,.?!" t.

End Whisper.

(** [bruno_stage1_vosk_big_loop.py]: [return fixed or FALLBACK_PLAN]. *)
Module BigLoop.

Definition validate_or_fix (plan : json) : result json :=
  try_except (validate plan BRUNO_SCHEMA ≫= fun _ => Ok plan)
    ('(intent, effects) ← repair plan;
     let fixed := fixed_plan intent effects in
     Ok (if py_truthy fixed then fixed else FALLBACK_PLAN)).

Definition WAKE_WORDS : list string :=
  ["hey bruno"; "hi bruno"; "okay bruno"; "bruno"].

(** [any(w in text for w in WAKE_WORDS)] (lines 94 and 123). *)
Definition any_wake (text : string) : bool :=
  existsb (fun w => str_contains w text) WAKE_WORDS.

Definition strip_wake (text : string) : string :=
  let t := fold_left (fun t w => py_remove w t) WAKE_WORDS text in
  py_strip " ,.?!" t.

(** Lines 119-125 of [main]: the command put to the planner, [None] where
    the turn is given up ([continue]). *)
Definition command (cmd : string) : option string :=
  if String.eqb cmd "" then None
  else if any_wake cmd then
    let stripped := strip_wake cmd in
    Some (if String.eqb stripped "" then "wag your tail" else stripped)
  else Some cmd.

(** [s.lower()], which only a [str] has. *)
Definition py_str_lower (v : json) : result string :=
  match v with
  | JStr s => Ok (lower s)
  | _ => Raise AttributeError
  end.

(** Lines 82-85 of [_rec_stream]: the text of the recogniser's final
    result, [loads] being [json.loads]; the text is lower-cased, then
    stripped. *)
Definition final_text (loads : string -> result json) (final_result : string) : string :=
  match (result ← loads final_result;
         text ← py_get result "text" (JStr "");
         text ← py_str_lower text;
         Ok (py_strip_space text)) with
  | Ok text => text
  | Raise _ => ""
  end.

End BigLoop.

(** [bruno_wake_loop_vosk.py]: [validate_or_fix] and [ask_llm] are those of
    the bridge; the wake test is [hear_wake] and the text is not
    lower-cased. *)
Module WakeLoopVosk.

Definition WAKE_WORDS : list string :=
  ["hey bruno"; "hi bruno"; "okay bruno"; "tommy"; "charlie"; "bruno"].
Definition WAKE_DEBOUNCE_S : Q := 2.0.

Definition strip_wake (text : string) : string :=
  let t := fold_left (fun t w => py_remove w t) WAKE_WORDS text in
  py_strip " ,.?!" t.

(** Lines 218-222, [heard] being the result of [hear_wake]. *)
Definition wake_gate (last_wake : Q) (heard : bool) (t_test t_set : Q) : option Q :=
  if negb heard then None
  else if Qltb (t_test - last_wake) WAKE_DEBOUNCE_S then None
  else Some t_set.

(** [any(w in text for w in WAKE_WORDS)], the result of [hear_wake] for
    the transcript [text] (line 169) and the test of line 229. *)
Definition any_wake (text : string) : bool :=
  existsb (fun w => str_contains w text) WAKE_WORDS.

(** Lines 153-158 of [_stream_text]: the text of the recogniser's final
    result, [loads] being [json.loads]. *)
Definition final_text (loads : string -> result json) (final_result : string) : string :=
  match (result ← loads final_result;
         text ← py_get result "text" (JStr "");
         text ← py_str_strip text;
         Ok (lower text)) with
  | Ok text => text
  | Raise _ => ""
  end.

(** Lines 183-195 of [hear_command]: [text] is the transcript under the
    command grammar and [text2] the free-form one, which is made only when
    [text] has fewer than two words. *)
Definition hear_command (text text2 : string) : string :=
  if Nat.ltb (word_count text) 2 then
    if Nat.ltb (String.length text) (String.length text2) then text2 else text
  else text.

(** Lines 228-232 of [main]: the command put to the planner. *)
Definition command (cmd : string) : string :=
  let cmd := if any_wake cmd then strip_wake cmd else cmd in
  if String.eqb cmd "" then "wag your tail" else cmd.

(** What one turn of the [while True] loop of [main] meets: the result of
    [hear_wake], the clock at the debounce test and at the assignment of
    [last_wake], the result of [hear_command], the planner's world and the
    outcome of [send_to_esp32].  [ask_llm] and [validate_or_fix] are those
    of the bridge. *)
Record turn : Type := {
  heard : bool;
  t_test : Q;
  t_set : Q;
  heard_command : string;
  planner : planner_env;
  dispatch : json -> result string
}.

Inductive outcome : Type :=
| NoWake            (* one of the two [continue]s *)
| Sent (cmd : string) (plan : json) (reply : result string).

(** Lines 218-246: one turn of the loop.  [except Exception] around
    [send_to_esp32] catches what it raises, an interrupt from the keyboard
    apart. *)
Definition main_turn (last_wake : Q) (w : turn) : result (Q * outcome) :=
  match wake_gate last_wake (heard w) (t_test w) (t_set w) with
  | None => Ok (last_wake, NoWake)
  | Some ts =>
      let cmd := command (heard_command w) in
      plan ← Bridge.plan_step (planner w) cmd;
      match dispatch w plan with
      | Raise KeyboardInterrupt => Raise KeyboardInterrupt
      | reply => Ok (ts, Sent cmd plan reply)
      end
  end.

Fixpoint main_loop (last_wake : Q) (ws : list turn) : result (Q * list outcome) :=
  match ws with
  | [] => Ok (last_wake, [])
  | w :: ws' =>
      '(ts, o) ← main_turn last_wake w;
      '(ts', os) ← main_loop ts ws';
      Ok (ts', o :: os)
  end.

End WakeLoopVosk.

(** ** The validator on the object store

    Dicts and lists are objects of a store, named by references; the other
    values are immutable.  This is the bridge's [validate_or_fix] with each
    allocation and each update of an object written out. *)
Module Heap.

Definition loc : Type := positive.

Inductive val : Type :=
| VNone
| VBool (b : bool)
| VNum (n : pynum)
| VStr (s : string)
| VRef (l : loc).

Inductive obj : Type :=
| ODict (items : list (string * val))
| OList (items : list val).

Abbreviation heap := (gmap loc obj).

(** A computation on the store; an exception leaves the store as it is
    at the point of the raise. *)
Definition M (A : Type) : Type := heap -> result A * heap.

Definition ret {A : Type} (a : A) : M A := fun h => (Ok a, h).

Definition throw {A : Type} (e : exn) : M A := fun h => (Raise e, h).

Definition bind {A B : Type} (m : M A) (k : A -> M B) : M B :=
  fun h =>
    match m h with
    | (Ok a, h') => k a h'
    | (Raise e, h') => (Raise e, h')
    end.

Definition lift {A : Type} (r : result A) : M A := fun h => (r, h).

Notation "'let*' x ':=' m 'in' k" := (bind m (fun x => k))
  (at level 10, x name, m at level 100, k at level 200).

(** A new object, at a reference not in use. *)
Definition alloc (o : obj) : M loc :=
  fun h => let l := fresh (dom h) in (Ok l, <[l := o]> h).

(** A reference always names an object in Python; [SystemError] stands
    for a store where it does not. *)
Definition read (l : loc) : M obj :=
  fun h =>
    match h !! l with
    | Some o => (Ok o, h)
    | None => (Raise SystemError, h)
    end.

Definition write (l : loc) (o : obj) : M unit :=
  fun h => (Ok tt, <[l := o]> h).

(** [target.append(v)]. *)
Definition append (target : val) (v : val) : M unit :=
  match target with
  | VRef l =>
      let* o := read l in
      match o with
      | OList vs => write l (OList (vs ++ [v]))
      | ODict _ => throw AttributeError
      end
  | _ => throw AttributeError
  end.

(** The JSON document a value denotes, read to depth [n]; below that
    depth a container shows empty. *)
Fixpoint view (n : nat) (h : heap) (v : val) : json :=
  match v with
  | VNone => JNull
  | VBool b => JBool b
  | VNum x => JNum x
  | VStr s => JStr s
  | VRef l =>
      match h !! l with
      | Some (ODict d) =>
          JObj match n with
               | O => []
               | S k => map (fun kv => (fst kv, view k h (snd kv))) d
               end
      | Some (OList vs) =>
          JArr match n with
               | O => []
               | S k => map (view k h) vs
               end
      | None => JNull
      end
  end.

(** [validate] reads the instance no deeper than the schema goes: the
    plan, its effects, their fields, and the kind of each field value. *)
Definition schema_depth : nat := 3.

Definition validate (instance : val) (s : schema) : M unit :=
  fun h => (validate (view schema_depth h instance) s, h).

(** [v.get(k, default)]. *)
Definition get (v : val) (k : string) (default : val) : M val :=
  match v with
  | VRef l =>
      let* o := read l in
      match o with
      | ODict d => ret (dict_get_default k default d)
      | OList _ => throw AttributeError
      end
  | _ => throw AttributeError
  end.

(** [v[k]]. *)
Definition getitem (v : val) (k : string) : M val :=
  match v with
  | VRef l =>
      let* o := read l in
      match o with
      | ODict d =>
          match dict_get k d with
          | Some x => ret x
          | None => throw KeyError
          end
      | OList _ => throw TypeError
      end
  | _ => throw TypeError
  end.

(** The builtins that look at a value only, not into it. *)
Definition on_value {A : Type} (f : json -> result A) (v : val) : M A :=
  fun h => (f (view 0 h v), h).

(** The values a [for] loop draws from [v], read when the loop starts;
    the loop of the repair appends to another list than the one it runs
    over, so that reading the items one by one gives the same. *)
Definition iter (v : val) : M (list val) :=
  match v with
  | VRef l =>
      let* o := read l in
      match o with
      | OList vs => ret vs
      | ODict d => ret (map (fun kv => VStr (fst kv)) d)
      end
  | VStr s => ret (map (fun c => VStr (String c EmptyString)) (list_ascii_of_string s))
  | VNone | VBool _ | VNum _ => throw TypeError
  end.

Definition truthy (v : val) : M bool :=
  fun h => (Ok (py_truthy (view 1 h v)), h).

(** Lines 121-126, for one [e]. *)
Definition fix_effect (fixed : val) (e : val) : M unit :=
  let* part := get e "part" (VStr "tail") in
  let* known := on_value (fun j => py_in_set j PARTS) part in
  let part := if (known : bool) then part else VStr "tail" in
  let* mode := get e "mode" (VStr "wag") in
  let* known := on_value (fun j => py_in_set j MODES) mode in
  let mode := if (known : bool) then mode else VStr "wag" in
  let* hz := get e "hz" (VNum (PInt 6)) in
  let* hz := on_value py_float hz in
  let hz := py_min (py_max (PFloat hz) (PFloat (FFin 0.1))) (PInt 30) in
  let* duty := get e "duty" (VNum (PFloat (FFin 0.5))) in
  let* duty := on_value py_float duty in
  let duty := py_min (py_max (PFloat duty) (PFloat (FFin 0.0))) (PFloat (FFin 1.0)) in
  let* dur := get e "duration_ms" (VNum (PInt 1500)) in
  let* dur := on_value py_int dur in
  let dur := py_min (py_max (PInt dur) (PInt 50)) (PInt 60000) in
  let* target := getitem fixed "effects" in
  let* item := alloc (ODict [ ("part", part); ("mode", mode); ("hz", VNum hz);
                              ("duty", VNum duty); ("duration_ms", VNum dur) ]) in
  append target (VRef item).

Fixpoint for_each (es : list val) (body : val -> M unit) : M unit :=
  match es with
  | [] => ret tt
  | e :: es' => let* _ := body e in for_each es' body
  end.

(** Lines 117-127; [fallback] is the module's [FALLBACK_PLAN] object. *)
Definition repair (fallback : val) (plan : val) : M val :=
  let* intent := get plan "intent" (VStr "EMOTE_OR_ACTION") in
  let* empty := alloc (OList []) in
  let* fixed := alloc (ODict [ ("intent", intent); ("effects", VRef empty) ]) in
  let fixed := VRef fixed in
  let* default := alloc (OList []) in
  let* source := get plan "effects" (VRef default) in
  let* es := iter source in
  let* _ := for_each es (fix_effect fixed) in
  let* effects := getitem fixed "effects" in
  let* nonempty := truthy effects in
  ret (if (nonempty : bool) then fixed else fallback).

Definition validate_or_fix (fallback : val) (plan : val) : M val :=
  fun h =>
    match validate plan BRUNO_SCHEMA h with
    | (Ok _, h') => (Ok plan, h')
    | (Raise _, h') => repair fallback plan h'
    end.

(** No reference of the store is dangling. *)
Definition val_in (h : heap) (v : val) : Prop :=
  match v with
  | VRef l => is_Some (h !! l)
  | _ => True
  end.

Definition obj_in (h : heap) (o : obj) : Prop :=
  match o with
  | ODict d => Forall (fun kv => val_in h (snd kv)) d
  | OList vs => Forall (val_in h) vs
  end.

Definition closed (h : heap) : Prop :=
  forall l o, h !! l = Some o -> obj_in h o.

(** From a store satisfying [P], [m] ends in a store satisfying [Q a] when
    it returns [a] and [E] when it raises. *)
Definition triple {A : Type} (P : heap -> Prop) (m : M A)
    (Q : A -> heap -> Prop) (E : heap -> Prop) : Prop :=
  forall h, P h ->
    match m h with
    | (Ok a, h') => Q a h'
    | (Raise _, h') => E h'
    end.

(** A computation that only reads the store. *)
Definition reads {A : Type} (m : M A) : Prop := forall h, snd (m h) = h.

(** The objects of [old] are in the store as they were; [fixed] is the
    dict under repair and [target] its list of effects, both made after
    [old] was taken. *)
Record building (old : heap) (fixed target : loc) (intent : val) (h : heap) : Prop := {
  b_old : old ⊆ h;
  b_target_new : old !! target = None;
  b_apart : fixed <> target;
  b_fixed : h !! fixed = Some (ODict [ ("intent", intent); ("effects", VRef target) ])
}.

End Heap.

(** ** What the specification says, and what the facts below are stated with *)

(** A number that is neither below [lo] nor above [hi]: the reading
    ["minimum"] and ["maximum"] have.  NaN is neither. *)
Definition within (lo hi : pynum) (v : json) : bool :=
  match v with
  | JNum n => negb (num_ltb n lo) && negb (num_ltb hi n)
  | _ => false
  end.

Definition field_within (k : string) (lo hi : pynum) (d : list (string * json)) : bool :=
  match dict_get k d with
  | Some v => within lo hi v
  | None => true
  end.

Definition field_among (k : string) (names : list string) (d : list (string * json)) : bool :=
  match dict_get k d with
  | Some (JStr s) => str_in s names
  | _ => false
  end.

(** [part] and [mode] are of the enumerations; [hz], [duty] and
    [duration_ms], where the effect has them, are within their bounds. *)
Definition effect_in_bounds (e : json) : bool :=
  match e with
  | JObj d =>
      field_among "part" PARTS d && field_among "mode" MODES d
      && field_within "hz" (PFloat (FFin 0.1)) (PInt 30) d
      && field_within "duty" (PFloat (FFin 0.0)) (PFloat (FFin 1.0)) d
      && field_within "duration_ms" (PInt 50) (PInt 60000) d
  | _ => false
  end.

Definition plan_in_bounds (p : json) : bool :=
  match p with
  | JObj d =>
      match dict_get "effects" d with
      | Some (JArr es) =>
          Nat.leb 1 (length es) && Nat.leb (length es) 5 && forallb effect_in_bounds es
      | _ => false
      end
  | _ => false
  end.

Definition prop_ok (k : string) (s : schema) (d : list (string * json)) : bool :=
  match dict_get k d with
  | Some x => conforms s x
  | None => true
  end.

(** [min(max(x, lo), hi)] *)
Definition clamp (lo hi x : pynum) : pynum := py_min (py_max x lo) hi.

(** [s] if it is one of [names], else [default]. *)
Definition known_or (default : string) (names : list string) (v : json) : string :=
  match v with
  | JStr s => if str_in s names then s else default
  | _ => default
  end.

(** The effect the loop appends, from the three converted numbers. *)
Definition repaired_effect (d : list (string * json)) (hz duty : pyfloat) (dur : Z) : json :=
  JObj [ ("part", JStr (known_or "tail" PARTS (dict_get_default "part" (JStr "tail") d)));
         ("mode", JStr (known_or "wag" MODES (dict_get_default "mode" (JStr "wag") d)));
         ("hz", JNum (clamp (PFloat (FFin 0.1)) (PInt 30) (PFloat hz)));
         ("duty", JNum (clamp (PFloat (FFin 0.0)) (PFloat (FFin 1.0)) (PFloat duty)));
         ("duration_ms", JNum (clamp (PInt 50) (PInt 60000) (PInt dur))) ].

(** What the loop of [repair] runs over. *)
Definition loop_items (plan : json) : result (list json) :=
  source ← py_get plan "effects" (JArr []);
  py_iter source.

Definition hashable (v : json) : bool :=
  match v with
  | JArr _ | JObj _ => false
  | _ => true
  end.

(** A number [float()] accepts. *)
Definition float_ready (v : json) : bool :=
  match v with
  | JNum (PInt z) => Z.abs z <? float_overflow_bound
  | JNum (PFloat _) => true
  | _ => false
  end.

(** A number [int()] accepts. *)
Definition int_ready (v : json) : bool :=
  match v with
  | JNum (PInt _) | JNum (PFloat (FFin _)) => true
  | _ => false
  end.

Definition field_is (k : string) (check : json -> bool) (d : list (string * json)) : bool :=
  match dict_get k d with
  | Some v => check v
  | None => true
  end.

(** An object whose [part] and [mode], if any, are scalars and whose
    [hz], [duty] and [duration_ms], if any, are numbers. *)
Definition well_typed_effect (e : json) : bool :=
  match e with
  | JObj d =>
      field_is "part" hashable d && field_is "mode" hashable d
      && field_is "hz" float_ready d && field_is "duty" float_ready d
      && field_is "duration_ms" int_ready d
  | _ => false
  end.

(** An object whose [effects], if any, is a list of such effects. *)
Definition well_typed_plan (p : json) : bool :=
  match p with
  | JObj d =>
      match dict_get "effects" d with
      | None => true
      | Some (JArr es) => forallb well_typed_effect es
      | Some _ => false
      end
  | _ => false
  end.

Definition sample_plan : json :=
  JObj [ ("intent", JStr "X");
         ("effects", JArr [ JObj [ ("part", JStr "nose"); ("mode", JStr "spin");
                                   ("hz", JInt 999) ] ]) ].

(** The fallback plan as the specification prints it. *)
Definition SPEC_FALLBACK_PLAN : json :=
  JObj [ ("intent", JStr "EMOTE_OR_ACTION");
         ("effects", JArr [ JObj [ ("part", JStr "tail"); ("mode", JStr "wag");
                                   ("hz", JInt 6); ("duty", JFloat 0.5);
                                   ("duration_ms", JInt 1500) ] ]) ].

(** Two documents are alike when they differ at most in how a number is
    held: the [int] 30 and the [float] 30.0 are the same value (and [==] in
    Python).  The relation is finer than [==], which also ignores the order
    of the keys of a dict. *)
Inductive json_eqv : json -> json -> Prop :=
| eqv_same j : json_eqv j j
| eqv_num a b : float_of_num a = float_of_num b -> json_eqv (JNum a) (JNum b)
| eqv_arr l l' : Forall2 json_eqv l l' -> json_eqv (JArr l) (JArr l')
| eqv_obj d d' :
    Forall2 (fun kv kv' => fst kv = fst kv' /\ json_eqv (snd kv) (snd kv')) d d' ->
    json_eqv (JObj d) (JObj d').


(** Two runs ending alike: in like documents, or in the same exception. *)
Definition same_outcome (r1 r2 : result json) : Prop :=
  match r1, r2 with
  | Ok a, Ok b => json_eqv a b
  | Raise e1, Raise e2 => e1 = e2
  | _, _ => False
  end.

(** An effect with nothing to repair. *)
Definition wag : json := JObj [ ("part", JStr "tail"); ("mode", JStr "wag") ].

(** The text begins with one of [chars]. *)
Definition starts_with_any (chars : list ascii) (l : list ascii) : bool :=
  match l with
  | c :: _ => existsb (Ascii.eqb c) chars
  | [] => false
  end.

(** The turn got past the wake phase. *)
Definition accepted (o : Bridge.outcome) : bool :=
  match o with
  | Bridge.NoWake => false
  | Bridge.Sent _ _ _ => true
  end.

(** The wake text of the turn holds a wake phrase. *)
Definition wake_match (w : Bridge.turn) : bool :=
  negb (String.eqb (Bridge.wake_text w) "") && Bridge.contains_wake (Bridge.wake_text w).

(** The clock does not run backwards: from reading [t] on, each reading
    of the turns is no earlier than the one before it. *)
Fixpoint clock_from (t : Q) (ws : list Bridge.turn) : Prop :=
  match ws with
  | [] => True
  | w :: ws' =>
      (t <= Bridge.t_test w)%Q /\ (Bridge.t_test w <= Bridge.t_set w)%Q
      /\ clock_from (Bridge.t_set w) ws'
  end.

(** A planner that answers with text that is no JSON, and a turn that hears
    [text] at time [t]. *)
Definition chatty_planner : planner_env :=
  {| post := fun _ =>
       Ok {| status_code := 200;
             json_body := Ok (JObj [ ("message", JObj [ ("content", JStr "woof") ]) ]) |};
     json_loads := fun _ => Raise JSONDecodeError |}.

Definition hears (text : string) (t : Q) : Bridge.turn :=
  {| Bridge.wake_text := text; Bridge.t_test := t; Bridge.t_set := t;
     Bridge.cmd_text := "sit"; Bridge.planner := chatty_planner;
     Bridge.dispatch := fun _ => Ok "ok" |}.



(** A short configuration: at least 0.05 s, at most 1 s, two silent blocks
    to stop. *)
Definition short_config : Bridge.capture_config :=
  {| Bridge.min_s := 0.05; Bridge.max_s := 1; Bridge.energy := 100;
     Bridge.frame_ms := 30; Bridge.silence_hold := 0.06 |}.

(** A store with one plan, [{"intent": "X", "effects": [{"part": "nose"}]}],
    at reference 1. *)
Definition sample_heap : gmap Heap.loc Heap.obj :=
  <[1%positive := Heap.ODict [ ("intent", Heap.VStr "X"); ("effects", Heap.VRef 2%positive) ]]>
    (<[2%positive := Heap.OList [ Heap.VRef 3%positive ]]>
       (<[3%positive := Heap.ODict [ ("part", Heap.VStr "nose") ]]> ∅)).

(** A value that is no reference. *)
Definition scalar (v : Heap.val) : bool :=
  match v with
  | Heap.VRef _ => false
  | _ => true
  end.

(** The document of a dict whose values are scalars. *)
Definition flat (d : list (string * Heap.val)) : json :=
  JObj (map (fun kv => (fst kv, Heap.view 0 ∅ (snd kv))) d).

(** [items] are references to dicts of scalars, none of them [target],
    and denote the documents [acc]. *)
Definition items_denote (h : gmap Heap.loc Heap.obj) (target : Heap.loc)
    (items : list Heap.val) (acc : list json) : Prop :=
  Forall2 (fun v j => exists l d,
             v = Heap.VRef l /\ l <> target /\ h !! l = Some (Heap.ODict d)
             /\ Forall (fun kv => scalar (snd kv) = true) d /\ j = flat d)
          items acc.

(** The store in the loop of the repair: [Heap.building], and the list at
    [target] denotes the effects repaired so far. *)
Definition repairing (old : gmap Heap.loc Heap.obj) (fixed target : Heap.loc)
    (intent : Heap.val) (acc : list json) (h : gmap Heap.loc Heap.obj) : Prop :=
  Heap.building old fixed target intent h
  /\ exists items, h !! target = Some (Heap.OList items) /\ items_denote h target items acc.

(** A store with the plan [{"effects": [{"part": "nose"}]}], which lacks
    its intent, at reference 1 and the module's fallback plan at
    reference 4. *)
Definition sample_store : gmap Heap.loc Heap.obj :=
  <[1%positive := Heap.ODict [ ("effects", Heap.VRef 2%positive) ]]>
    (<[2%positive := Heap.OList [ Heap.VRef 3%positive ]]>
       (<[3%positive := Heap.ODict [ ("part", Heap.VStr "nose") ]]>
          (<[4%positive := Heap.ODict [ ("intent", Heap.VStr "EMOTE_OR_ACTION");
                                        ("effects", Heap.VRef 5%positive) ]]>
             (<[5%positive := Heap.OList [ Heap.VRef 6%positive ]]>
                (<[6%positive := Heap.ODict [ ("part", Heap.VStr "tail");
                                              ("mode", Heap.VStr "wag");
                                              ("hz", Heap.VNum (PInt 6));
                                              ("duration_ms", Heap.VNum (PInt 1500)) ]]>
                   ∅))))).

(** ** What the further facts are stated with *)

(** The keys of an object, in their order. *)
Definition keys (v : json) : list string :=
  match v with
  | JObj d => map fst d
  | _ => []
  end.

Definition EFFECT_KEYS : list string := ["part"; "mode"; "hz"; "duty"; "duration_ms"].

(** The text neither begins nor ends with one of [chars]. *)
Definition trimmed (chars : string) (t : string) : Prop :=
  starts_with_any (list_ascii_of_string chars) (list_ascii_of_string t) = false
  /\ starts_with_any (list_ascii_of_string chars) (rev (list_ascii_of_string t)) = false.

(** No occurrence of [w] in [a ++ rest] begins within [a]. *)
Definition no_start (w a rest : string) : Prop :=
  forall a1 c a2, a = a1 ++ String c a2 -> String.prefix w (String c a2 ++ rest) = false.

(** [r] is [t] without the occurrences of [w] that one pass from the left
    meets: the first occurrence in [t], then the first one in what follows
    it, and so on, the pieces in between being kept as they are. *)
Inductive removed (w : string) : string -> string -> Prop :=
| removed_none t : str_contains w t = false -> removed w t t
| removed_first a b r :
    no_start w a (w ++ b) -> removed w b r -> removed w (a ++ w ++ b) (a ++ r).

(** The phrases [ws] removed one after the other, in their order. *)
Inductive removed_all : list string -> string -> string -> Prop :=
| removed_nil t : removed_all [] t t
| removed_cons w ws t t' r :
    removed w t t' -> removed_all ws t' r -> removed_all (w :: ws) t r.

(** [s] is [t] without the characters of [chars] at its two ends: what is
    cut off on either side is made of them, and [s] neither begins nor ends
    with one. *)
Definition stripped (chars t s : string) : Prop :=
  exists a b : list ascii,
    list_ascii_of_string t = (a ++ list_ascii_of_string s ++ b)%list
    /\ Forall (fun c => In c (list_ascii_of_string chars)) a
    /\ Forall (fun c => In c (list_ascii_of_string chars)) b
    /\ trimmed chars s.

(** The blocks the queue yields before its first timeout. *)
Fixpoint leading_blocks (ticks : list tick) : list chunk :=
  match ticks with
  | Block x _ _ :: ticks' => x :: leading_blocks ticks'
  | _ => []
  end.

(** A block that does not count as speech: its energy is not above the
    threshold. *)
Definition quiet (cfg : Bridge.capture_config) (x : chunk) : bool :=
  negb (Qltb (Bridge.energy cfg) (rms x)).

(** From reading [t] on, the clock readings at the floor tests do not go
    back. *)
Fixpoint clock_steady (t : Q) (ticks : list tick) : Prop :=
  match ticks with
  | [] => True
  | QueueEmpty :: ticks' => clock_steady t ticks'
  | Block _ t_floor _ :: ticks' => (t <= t_floor)%Q /\ clock_steady t_floor ticks'
  end.

(** The planner of the turn answers every command with a plan the
    validator returns on. *)
Definition planner_answers (w : Bridge.turn) : Prop :=
  forall cmd, exists plan, Bridge.plan_step (Bridge.planner w) cmd = Ok plan.

(** [send_to_esp32] is not interrupted from the keyboard in this turn:
    what it raises, [except Exception] catches. *)
Definition delivery_caught (w : Bridge.turn) : Prop :=
  forall plan, Bridge.dispatch w plan <> Raise KeyboardInterrupt.

(** An ESP32 that cannot be reached. *)
Definition unreachable_esp32 : Bridge.esp32_env :=
  {| Bridge.post_command := fun _ => Raise ConnectionError;
     Bridge.reply_text := fun _ => "" |}.


Definition is_object (v : json) : bool :=
  match v with
  | JObj _ => true
  | _ => false
  end.


(** A block of no speech that is read when the floor has been passed. *)
Definition quiet_past_floor (cfg : Bridge.capture_config) (start : Q) (tk : tick) : Prop :=
  match tk with
  | Block x t_floor _ => quiet cfg x = true /\ (Bridge.min_s cfg <= t_floor - start)%Q
  | QueueEmpty => False
  end.

(** The turn of the small-model Vosk script got past the wake phase. *)
Definition vosk_accepted (o : WakeLoopVosk.outcome) : bool :=
  match o with
  | WakeLoopVosk.NoWake => false
  | WakeLoopVosk.Sent _ _ _ => true
  end.

(** The clock of the small-model Vosk script does not run backwards. *)
Fixpoint vosk_clock_from (t : Q) (ws : list WakeLoopVosk.turn) : Prop :=
  match ws with
  | [] => True
  | w :: ws' =>
      (t <= WakeLoopVosk.t_test w)%Q /\ (WakeLoopVosk.t_test w <= WakeLoopVosk.t_set w)%Q
      /\ vosk_clock_from (WakeLoopVosk.t_set w) ws'
  end.

(** * Facts *)

(** ** The schema *)

Lemma forallb_mono {A} (f g : A -> bool) l :
  (forall x, f x = true -> g x = true) -> forallb f l = true -> forallb g l = true.
Proof.
  intros Hfg. induction l as [|x l IH]; cbn; [done|].
  rewrite !andb_true_iff. intros [Hx Hl]. split; auto.
Qed.

Lemma conforms_leaf t enum lo hi x :
  conforms (leaf t enum lo hi) x =
  type_ok t x && opt_ok enum (fun names => enum_ok names x)
  && opt_ok lo (fun b => minimum_ok b x) && opt_ok hi (fun b => maximum_ok b x).
Proof.
  unfold leaf.
  cbn [conforms opt_ok required_ok properties_ok forallb additional_ok orb].
  destruct x; rewrite ?andb_true_r; reflexivity.
Qed.

Lemma conforms_enum_leaf names x :
  conforms (leaf TString (Some names) None None) x = true ->
  exists s, x = JStr s /\ str_in s names = true.
Proof.
  rewrite conforms_leaf. cbn [opt_ok]. rewrite !andb_true_r.
  destruct x; cbn; try discriminate. eauto.
Qed.

Lemma conforms_number_leaf t lo hi x :
  t = TNumber \/ t = TInteger ->
  conforms (leaf t None (Some lo) (Some hi)) x = true ->
  within lo hi x = true.
Proof.
  rewrite conforms_leaf. cbn [opt_ok]. rewrite andb_true_r.
  intros Ht H.
  destruct x as [| |n| | |]; try (destruct Ht; subst t; cbn in H; discriminate H).
  unfold within. unfold minimum_ok, maximum_ok in H.
  rewrite !andb_true_iff in H. rewrite andb_true_iff. tauto.
Qed.

Lemma conforms_effect_obj d :
  conforms EFFECT_SCHEMA (JObj d) = true ->
  dict_has "part" d = true /\ dict_has "mode" d = true
  /\ prop_ok "part" (leaf TString (Some PARTS) None None) d = true
  /\ prop_ok "mode" (leaf TString (Some MODES) None None) d = true
  /\ prop_ok "hz" (leaf TNumber None (Some (PFloat (FFin 0.1))) (Some (PInt 30))) d = true
  /\ prop_ok "duty" (leaf TNumber None (Some (PFloat (FFin 0.0))) (Some (PFloat (FFin 1.0)))) d = true
  /\ prop_ok "duration_ms" (leaf TInteger None (Some (PInt 50)) (Some (PInt 60000))) d = true.
Proof.
  unfold EFFECT_SCHEMA.
  cbn [conforms opt_ok type_ok required_ok properties_ok forallb fst snd].
  rewrite !andb_true_iff. unfold prop_ok. tauto.
Qed.

Lemma conforms_effect_in_bounds e :
  conforms EFFECT_SCHEMA e = true -> effect_in_bounds e = true.
Proof.
  destruct e as [| | | |?|d]; try discriminate.
  intros (Hp & Hm & Pp & Pm & Ph & Pd & Pt)%conforms_effect_obj.
  unfold effect_in_bounds, field_among, field_within, dict_has, prop_ok in *.
  destruct (dict_get "part" d) as [p|]; [|discriminate].
  destruct (dict_get "mode" d) as [m|]; [|discriminate].
  apply conforms_enum_leaf in Pp as (s & -> & ->).
  apply conforms_enum_leaf in Pm as (s' & -> & ->).
  cbn [andb].
  destruct (dict_get "hz" d); [apply conforms_number_leaf in Ph as ->; [|tauto]|];
  (destruct (dict_get "duty" d); [apply conforms_number_leaf in Pd as ->; [|tauto]|]);
  (destruct (dict_get "duration_ms" d); [apply conforms_number_leaf in Pt as ->; [|tauto]|]);
  reflexivity.
Qed.

Lemma conforms_plan_obj p :
  conforms BRUNO_SCHEMA p = true ->
  exists d es, p = JObj d /\ dict_get "effects" d = Some (JArr es)
    /\ (1 <= length es <= 5)%nat
    /\ forallb (conforms EFFECT_SCHEMA) es = true.
Proof.
  unfold BRUNO_SCHEMA.
  destruct p as [| | | |?|d]; try discriminate.
  cbn [conforms opt_ok type_ok required_ok properties_ok forallb fst snd].
  rewrite !andb_true_iff. unfold dict_has.
  intros H. destruct_and!.
  destruct (dict_get "effects" d) as [x|] eqn:E; [|discriminate].
  exists d. unfold EFFECTS_SCHEMA in *.
  cbn [conforms opt_ok type_ok minItems_ok maxItems_ok items_ok] in *.
  destruct x as [| | | |es|]; try discriminate.
  exists es. rewrite !andb_true_iff in *. destruct_and!.
  repeat split; auto.
  - by apply Nat.leb_le.
  - by apply Nat.leb_le.
Qed.

Lemma conforms_plan_in_bounds p :
  conforms BRUNO_SCHEMA p = true -> plan_in_bounds p = true.
Proof.
  intros (d & es & -> & E & [L1 L2] & H)%conforms_plan_obj.
  unfold plan_in_bounds. rewrite E.
  rewrite !andb_true_iff. repeat split.
  - by apply Nat.leb_le.
  - by apply Nat.leb_le.
  - eapply forallb_mono; [apply conforms_effect_in_bounds|done].
Qed.

(** ** Numbers *)

Lemma Qltb_lt p q : Qltb p q = true <-> (p < q)%Q.
Proof.
  unfold Qltb. rewrite negb_true_iff. split.
  - intros H. apply Qnot_le_lt. intros Hle. apply Qle_bool_iff in Hle. congruence.
  - intros H. destruct (Qle_bool q p) eqn:E; [|done].
    apply Qle_bool_iff in E. exfalso. eapply Qlt_not_le; eauto.
Qed.

Lemma Qltb_ge p q : Qltb p q = false <-> (q <= p)%Q.
Proof.
  unfold Qltb. rewrite negb_false_iff. apply Qle_bool_iff.
Qed.

Lemma num_ltb_float a b a' b' :
  float_of_num a = float_of_num a' -> float_of_num b = float_of_num b' ->
  num_ltb a b = num_ltb a' b'.
Proof. unfold num_ltb. by intros -> ->. Qed.

(** A value within the bounds is left as it is. *)
Lemma clamp_fixed lo hi x :
  num_ltb x lo = false -> num_ltb hi x = false -> clamp lo hi x = x.
Proof.
  intros H1 H2. unfold clamp, py_max. rewrite H1. unfold py_min. by rewrite H2.
Qed.


(** Between finite bounds in order, a clamped value is not below the lower
    and not above the upper one. *)
Lemma clamp_within lo hi x ql qh :
  float_of_num lo = FFin ql -> float_of_num hi = FFin qh -> (ql <= qh)%Q ->
  within lo hi (JNum (clamp lo hi x)) = true.
Proof.
  intros Hlo Hhi Hle. unfold within, clamp, py_min, py_max, num_ltb.
  rewrite Hlo, Hhi.
  assert (float_ltb (FFin qh) (FFin ql) = false) as Hhl by by apply Qltb_ge.
  assert (forall q, float_ltb (FFin q) (FFin q) = false) as Hirr
    by (intros q; apply Qltb_ge, Qle_refl).
  destruct (float_ltb (float_of_num x) (FFin ql)) eqn:E1.
  - rewrite Hlo, Hhl, Hlo, Hhl, Hirr. reflexivity.
  - destruct (float_ltb (FFin qh) (float_of_num x)) eqn:E3.
    + rewrite Hhi, Hhl, Hirr. reflexivity.
    + rewrite E1, E3. reflexivity.
Qed.

(** For a value that is not NaN, "within" is the usual order. *)
Lemma within_finite lo hi x ql qh q :
  float_of_num lo = FFin ql -> float_of_num hi = FFin qh -> float_of_num x = FFin q ->
  within lo hi (JNum x) = true <-> (ql <= q <= qh)%Q.
Proof.
  intros Hlo Hhi Hx. unfold within, num_ltb. rewrite Hlo, Hhi, Hx. cbn [float_ltb].
  rewrite andb_true_iff, !negb_true_iff, !Qltb_ge. tauto.
Qed.

(** A clamped [int] is an [int]. *)
Lemma clamp_int lo hi z : exists z', clamp (PInt lo) (PInt hi) (PInt z) = PInt z'.
Proof.
  unfold clamp, py_min, py_max.
  destruct (num_ltb (PInt z) (PInt lo));
    [destruct (num_ltb (PInt hi) (PInt lo))|destruct (num_ltb (PInt hi) (PInt z))]; eauto.
Qed.

(** ** The repair of one effect *)

Lemma py_in_set_known v names default b :
  py_in_set v names = Ok b ->
  (if b then v else JStr default) = JStr (known_or default names v).
Proof.
  destruct v; cbn; intros [= <-]; try done.
  by destruct (str_in s names).
Qed.

Lemma fix_effect_inv e e' :
  fix_effect e = Ok e' ->
  exists d hz duty dur,
    e = JObj d
    /\ py_float (dict_get_default "hz" (JInt 6) d) = Ok hz
    /\ py_float (dict_get_default "duty" (JFloat 0.5) d) = Ok duty
    /\ py_int (dict_get_default "duration_ms" (JInt 1500) d) = Ok dur
    /\ e' = repaired_effect d hz duty dur.
Proof.
  destruct e as [| | | | |d]; try discriminate.
  unfold fix_effect. cbn [py_get mbind result_bind].
  destruct (py_in_set _ PARTS) as [kp|] eqn:Ep; [|discriminate].
  destruct (py_in_set _ MODES) as [km|] eqn:Em; [|discriminate].
  destruct (py_float (dict_get_default "hz" _ d)) as [hz|] eqn:Eh; [|discriminate].
  destruct (py_float (dict_get_default "duty" _ d)) as [duty|] eqn:Ed; [|discriminate].
  destruct (py_int _) as [dur|] eqn:Et; [|discriminate].
  intros [= <-]. exists d, hz, duty, dur. repeat split; auto.
  unfold repaired_effect.
  rewrite (py_in_set_known _ _ "tail" _ Ep), (py_in_set_known _ _ "wag" _ Em).
  reflexivity.
Qed.

Lemma known_or_in default names v :
  str_in default names = true -> str_in (known_or default names v) names = true.
Proof.
  intros H. destruct v; cbn; try done. by destruct (str_in s names) eqn:E.
Qed.

Lemma repaired_effect_in_bounds d hz duty dur :
  effect_in_bounds (repaired_effect d hz duty dur) = true.
Proof.
  unfold repaired_effect, effect_in_bounds, field_among, field_within.
  cbn [dict_get String.eqb Ascii.eqb Bool.eqb].
  rewrite !known_or_in by reflexivity.
  rewrite (clamp_within _ _ _ 0.1 30) by (reflexivity || done).
  rewrite (clamp_within _ _ _ 0.0 1.0) by (reflexivity || done).
  rewrite (clamp_within _ _ _ 50 60000) by (reflexivity || done).
  reflexivity.
Qed.

(** ** The repair loop *)

Lemma fix_effects_inv es : forall acc out,
  fix_effects es acc = Ok out ->
  exists es', out = (acc ++ es')%list /\ Forall2 (fun e e' => fix_effect e = Ok e') es es'.
Proof.
  induction es as [|e es IH]; intros acc out; cbn [fix_effects].
  - intros [= <-]. exists []. by rewrite app_nil_r.
  - cbn [mbind result_bind]. destruct (fix_effect e) as [e'|] eqn:E; [|discriminate].
    intros (es' & -> & H)%IH. exists (e' :: es'). split.
    + by rewrite <- app_assoc.
    + by constructor.
Qed.

Lemma fix_effects_intro es es' : forall acc,
  Forall2 (fun e e' => fix_effect e = Ok e') es es' ->
  fix_effects es acc = Ok (acc ++ es')%list.
Proof.
  intros acc H. revert acc. induction H as [|e e' es es' He _ IH]; intros acc; cbn [fix_effects].
  - by rewrite app_nil_r.
  - rewrite He. cbn [mbind result_bind]. rewrite IH. by rewrite <- app_assoc.
Qed.

Lemma repair_inv plan intent effects :
  repair plan = Ok (intent, effects) ->
  exists d es,
    plan = JObj d
    /\ intent = dict_get_default "intent" (JStr "EMOTE_OR_ACTION") d
    /\ loop_items plan = Ok es
    /\ Forall2 (fun e e' => fix_effect e = Ok e') es effects.
Proof.
  destruct plan as [| | | | |d]; try discriminate.
  unfold repair, loop_items. cbn [py_get mbind result_bind].
  destruct (py_iter _) as [es|]; cbn [mbind result_bind]; [|discriminate].
  destruct (fix_effects es []) as [out|] eqn:E; cbn [mbind result_bind]; [|discriminate].
  intros [= <- <-]. apply fix_effects_inv in E as (es' & -> & H).
  exists d, es. auto.
Qed.

Lemma repair_intro d es effects :
  loop_items (JObj d) = Ok es ->
  Forall2 (fun e e' => fix_effect e = Ok e') es effects ->
  repair (JObj d) = Ok (dict_get_default "intent" (JStr "EMOTE_OR_ACTION") d, effects).
Proof.
  unfold repair, loop_items. cbn [py_get mbind result_bind].
  intros -> H. cbn [mbind result_bind]. by rewrite (fix_effects_intro _ _ [] H).
Qed.

Lemma Forall2_fix_in_bounds es effects :
  Forall2 (fun e e' => fix_effect e = Ok e') es effects ->
  forallb effect_in_bounds effects = true.
Proof.
  induction 1 as [|e e' es effects He _ IH]; [done|].
  cbn [forallb]. rewrite IH, andb_true_r.
  apply fix_effect_inv in He as (d & hz & duty & dur & _ & _ & _ & _ & ->).
  apply repaired_effect_in_bounds.
Qed.

(** ** The validator of the bridge *)

Lemma validate_ok plan : conforms BRUNO_SCHEMA plan = true ->
  Bridge.validate_or_fix plan = Ok plan.
Proof.
  intros H. unfold Bridge.validate_or_fix, validate. by rewrite H.
Qed.

Lemma validate_fix plan : conforms BRUNO_SCHEMA plan = false ->
  Bridge.validate_or_fix plan =
  '(intent, effects) ← repair plan;
  Ok (if py_truthy (JArr effects) then fixed_plan intent effects else FALLBACK_PLAN).
Proof.
  intros H. unfold Bridge.validate_or_fix, validate. by rewrite H.
Qed.

Lemma fallback_conforms : conforms BRUNO_SCHEMA FALLBACK_PLAN = true.
Proof. vm_compute. reflexivity. Qed.

Lemma fallback_in_bounds : plan_in_bounds FALLBACK_PLAN = true.
Proof. vm_compute. reflexivity. Qed.

Lemma validate_or_fix_in_bounds plan out es :
  Bridge.validate_or_fix plan = Ok out ->
  loop_items plan = Ok es -> (length es <= 5)%nat ->
  plan_in_bounds out = true.
Proof.
  intros Hv Hes Hlen.
  destruct (conforms BRUNO_SCHEMA plan) eqn:Hc.
  - rewrite validate_ok in Hv by done. injection Hv as <-.
    by apply conforms_plan_in_bounds.
  - rewrite validate_fix in Hv by done.
    destruct (repair plan) as [[intent effects]|] eqn:Hr; [|discriminate].
    cbn [mbind result_bind] in Hv.
    apply repair_inv in Hr as (d & es' & -> & _ & Hes' & HF).
    rewrite Hes in Hes'. injection Hes' as <-.
    destruct effects as [|e effects]; cbn [py_truthy length Nat.eqb negb] in Hv;
      injection Hv as <-; [apply fallback_in_bounds|].
    unfold plan_in_bounds, fixed_plan.
    cbn [dict_get String.eqb Ascii.eqb Bool.eqb].
    apply Forall2_length in HF as Hl. rewrite <- Hl.
    rewrite (Forall2_fix_in_bounds _ _ HF), andb_true_r.
    cbn [length] in Hl. apply andb_true_iff. split; apply Nat.leb_le; lia.
Qed.

Lemma hashable_in_set v names : hashable v = true -> exists b, py_in_set v names = Ok b.
Proof. destruct v; cbn; try discriminate; eauto. Qed.

Lemma float_ready_ok v : float_ready v = true -> exists f, py_float v = Ok f.
Proof.
  destruct v as [| |[z|f]| | |]; cbn; try discriminate; eauto.
  intros ->. eauto.
Qed.

Lemma int_ready_ok v : int_ready v = true -> exists z, py_int v = Ok z.
Proof.
  destruct v as [| |[z|[| |q]]| | |]; cbn; try discriminate; eauto.
Qed.

Lemma field_is_default k check d default :
  field_is k check d = true -> check default = true ->
  check (dict_get_default k default d) = true.
Proof.
  unfold field_is, dict_get_default. by destruct (dict_get k d).
Qed.

Lemma fix_effect_total e :
  well_typed_effect e = true -> exists e', fix_effect e = Ok e'.
Proof.
  destruct e as [| | | | |d]; try discriminate.
  cbn [well_typed_effect]. rewrite !andb_true_iff.
  intros [[[[Hp Hm] Hh] Hd] Ht].
  unfold fix_effect. cbn [py_get mbind result_bind].
  destruct (hashable_in_set _ PARTS (field_is_default _ _ _ (JStr "tail") Hp eq_refl)) as [b ->].
  destruct (hashable_in_set _ MODES (field_is_default _ _ _ (JStr "wag") Hm eq_refl)) as [b' ->].
  destruct (float_ready_ok _ (field_is_default _ _ _ (JInt 6) Hh eq_refl)) as [hz ->].
  destruct (float_ready_ok _ (field_is_default _ _ _ (JFloat 0.5) Hd eq_refl)) as [duty ->].
  destruct (int_ready_ok _ (field_is_default _ _ _ (JInt 1500) Ht eq_refl)) as [dur ->].
  eauto.
Qed.

Lemma fix_all_total es :
  forallb well_typed_effect es = true ->
  exists effects, Forall2 (fun e e' => fix_effect e = Ok e') es effects.
Proof.
  induction es as [|e es IH]; cbn [forallb].
  - exists []. constructor.
  - rewrite andb_true_iff. intros [He Hes].
    destruct (fix_effect_total e He) as [e' He'].
    destruct (IH Hes) as [effects H].
    exists (e' :: effects). by constructor.
Qed.

Lemma well_typed_loop_items p :
  well_typed_plan p = true ->
  exists d es, p = JObj d /\ loop_items p = Ok es /\ forallb well_typed_effect es = true.
Proof.
  destruct p as [| | | | |d]; try discriminate.
  unfold well_typed_plan, loop_items, dict_get_default.
  cbn [py_get mbind result_bind]. unfold dict_get_default.
  destruct (dict_get "effects" d) as [[| | | |es|]|]; try discriminate; intros H.
  - exists d, es. auto.
  - exists d, []. auto.
Qed.

Lemma validate_or_fix_total p :
  well_typed_plan p = true -> exists out, Bridge.validate_or_fix p = Ok out.
Proof.
  intros (d & es & -> & Hes & Hwt)%well_typed_loop_items.
  destruct (conforms BRUNO_SCHEMA (JObj d)) eqn:Hc.
  - rewrite validate_ok by done. eauto.
  - rewrite validate_fix by done.
    destruct (fix_all_total es Hwt) as [effects H].
    rewrite (repair_intro d es effects Hes H). cbn [mbind result_bind]. eauto.
Qed.

(** ** The validator of the large-model Vosk script *)

Lemma big_loop_ok plan : conforms BRUNO_SCHEMA plan = true ->
  BigLoop.validate_or_fix plan = Ok plan.
Proof.
  intros H. unfold BigLoop.validate_or_fix, validate. by rewrite H.
Qed.

(** [fixed] is a dict of two keys: [fixed or FALLBACK_PLAN] is [fixed]. *)
Lemma big_loop_fix plan : conforms BRUNO_SCHEMA plan = false ->
  BigLoop.validate_or_fix plan =
  '(intent, effects) ← repair plan; Ok (fixed_plan intent effects).
Proof.
  intros H. unfold BigLoop.validate_or_fix, validate. rewrite H.
  cbn [mbind result_bind try_except]. by destruct (repair plan) as [[intent effects]|].
Qed.

(** With an item to repair the two scripts end alike. *)
Lemma big_loop_as_bridge plan es :
  loop_items plan = Ok es -> es <> [] ->
  BigLoop.validate_or_fix plan = Bridge.validate_or_fix plan.
Proof.
  intros Hes Hne. destruct (conforms BRUNO_SCHEMA plan) eqn:Hc.
  - by rewrite big_loop_ok, validate_ok.
  - rewrite big_loop_fix, validate_fix by done.
    destruct (repair plan) as [[intent effects]|] eqn:Hr; [|done].
    cbn [mbind result_bind].
    apply repair_inv in Hr as (d & es' & -> & _ & Hes' & HF).
    rewrite Hes in Hes'. injection Hes' as <-.
    destruct HF; [done|reflexivity].
Qed.

Lemma big_loop_total p :
  well_typed_plan p = true -> exists out, BigLoop.validate_or_fix p = Ok out.
Proof.
  intros (d & es & -> & Hes & Hwt)%well_typed_loop_items.
  destruct (conforms BRUNO_SCHEMA (JObj d)) eqn:Hc.
  - rewrite big_loop_ok by done. eauto.
  - rewrite big_loop_fix by done.
    destruct (fix_all_total es Hwt) as [effects H].
    rewrite (repair_intro d es effects Hes H). cbn [mbind result_bind]. eauto.
Qed.

(** C1, as the code has it.  On a plan of the expected types
    [validate_or_fix] returns, in the bridge and in the large-model Vosk
    script; and whenever it returns, for an input with at most five entries
    under [effects] (and, in the large-model Vosk script, with one at
    least), the plan returned has one to five effects, each with its [part]
    and [mode] of the enumerations and with [hz], [duty] and [duration_ms],
    where present, not below the lower and not above the upper bound. *)
Theorem validate_or_fix_returns_in_bounds (plan : json) :
  (well_typed_plan plan = true ->
   (exists out, Bridge.validate_or_fix plan = Ok out)
   /\ (exists out, BigLoop.validate_or_fix plan = Ok out))
  /\ (forall out es,
        Bridge.validate_or_fix plan = Ok out ->
        loop_items plan = Ok es -> (length es <= 5)%nat ->
        plan_in_bounds out = true)
  /\ (forall out es,
        BigLoop.validate_or_fix plan = Ok out ->
        loop_items plan = Ok es -> (1 <= length es <= 5)%nat ->
        plan_in_bounds out = true).
Proof.
  split; [|split].
  - intros H. split; [by apply validate_or_fix_total|by apply big_loop_total].
  - intros out es. apply validate_or_fix_in_bounds.
  - intros out es Hv Hes [Hl1 Hl5].
    rewrite (big_loop_as_bridge plan es Hes) in Hv by (destruct es; cbn in Hl1; [lia|done]).
    by apply (validate_or_fix_in_bounds plan out es).
Qed.

Lemma validate_or_fix_returns_in_bounds_witness :
  well_typed_plan sample_plan = true
  /\ (exists out, Bridge.validate_or_fix sample_plan = Ok out /\ plan_in_bounds out = true)
  /\ (exists out, BigLoop.validate_or_fix sample_plan = Ok out /\ plan_in_bounds out = true).
Proof.
  split; [reflexivity|].
  destruct (validate_or_fix_returns_in_bounds sample_plan) as (Hret & Hin & Hbig).
  destruct (Hret eq_refl) as [[out Hout] [out' Hout']].
  split.
  - exists out. split; [exact Hout|].
    apply (Hin out [ JObj [ ("part", JStr "nose"); ("mode", JStr "spin"); ("hz", JInt 999) ] ]).
    + exact Hout.
    + reflexivity.
    + cbn. lia.
  - exists out'. split; [exact Hout'|].
    apply (Hbig out' [ JObj [ ("part", JStr "nose"); ("mode", JStr "spin"); ("hz", JInt 999) ] ]).
    + exact Hout'.
    + reflexivity.
    + cbn. lia.
Defined.

(** The validator raises on a plan whose [hz] is not a number, in the one
    script and in the other. *)
Lemma validate_or_fix_raises :
  let plan := JObj [ ("intent", JStr "X");
                     ("effects", JArr [ JObj [ ("part", JStr "tail"); ("mode", JStr "wag");
                                               ("hz", JStr "fast") ] ]) ] in
  Bridge.validate_or_fix plan = Raise ValueError
  /\ BigLoop.validate_or_fix plan = Raise ValueError.
Proof. split; vm_compute; reflexivity. Qed.

(** C8. The scenario of the specification. *)
Theorem validate_or_fix_scenario :
  Bridge.validate_or_fix
    (JObj [ ("intent", JStr "X");
            ("effects", JArr [ JObj [ ("part", JStr "nose"); ("mode", JStr "spin");
                                      ("hz", JInt 999) ] ]) ])
  = Ok (JObj [ ("intent", JStr "X");
               ("effects", JArr [ JObj [ ("part", JStr "tail"); ("mode", JStr "wag");
                                         ("hz", JInt 30); ("duty", JFloat 0.5);
                                         ("duration_ms", JInt 1500) ] ]) ]).
Proof. vm_compute. reflexivity. Qed.

(** ** The fallback *)

Lemma no_effects_not_conforming d :
  dict_get "effects" d = None \/ dict_get "effects" d = Some (JArr []) ->
  conforms BRUNO_SCHEMA (JObj d) = false.
Proof.
  intros H. destruct (conforms BRUNO_SCHEMA (JObj d)) eqn:Hc; [|done].
  apply conforms_plan_obj in Hc as (d' & es & [= <-] & E & [L _] & _).
  destruct H as [H|H]; rewrite H in E; [discriminate|].
  injection E as <-. cbn in L. lia.
Qed.

(** C4, as the code has it.  A plan object with no [effects] entry, or an
    empty list there, is answered by the bridge with the fallback plan of
    the source, which carries [hz] and [duration_ms] and no [duty]; the
    large-model Vosk script answers it with the intent of the plan, or the
    default one, and no effect at all. *)
Theorem validate_or_fix_fallback (d : list (string * json)) :
  dict_get "effects" d = None \/ dict_get "effects" d = Some (JArr []) ->
  Bridge.validate_or_fix (JObj d)
  = Ok (JObj [ ("intent", JStr "EMOTE_OR_ACTION");
               ("effects", JArr [ JObj [ ("part", JStr "tail"); ("mode", JStr "wag");
                                         ("hz", JInt 6); ("duration_ms", JInt 1500) ] ]) ])
  /\ BigLoop.validate_or_fix (JObj d)
     = Ok (JObj [ ("intent", dict_get_default "intent" (JStr "EMOTE_OR_ACTION") d);
                  ("effects", JArr []) ]).
Proof.
  intros H.
  assert (repair (JObj d) = Ok (dict_get_default "intent" (JStr "EMOTE_OR_ACTION") d, []))
    as Hr.
  { apply (repair_intro d [] []); [|constructor].
    unfold loop_items, dict_get_default. cbn [py_get mbind result_bind].
    unfold dict_get_default. by destruct H as [-> | ->]. }
  split.
  - rewrite validate_fix by by apply no_effects_not_conforming.
    by rewrite Hr.
  - rewrite big_loop_fix by by apply no_effects_not_conforming.
    by rewrite Hr.
Qed.

Lemma validate_or_fix_fallback_witness :
  Bridge.validate_or_fix (JObj [ ("effects", JArr []) ]) = Ok FALLBACK_PLAN
  /\ BigLoop.validate_or_fix (JObj [ ("effects", JArr []) ])
     = Ok (JObj [ ("intent", JStr "EMOTE_OR_ACTION"); ("effects", JArr []) ]).
Proof.
  apply (validate_or_fix_fallback [ ("effects", JArr []) ]).
  right. reflexivity.
Defined.

Lemma eqv_obj_inv d d' :
  json_eqv (JObj d) (JObj d') ->
  Forall2 (fun kv kv' => fst kv = fst kv' /\ json_eqv (snd kv) (snd kv')) d d'.
Proof.
  inversion 1; subst; [|done].
  apply Forall2_same_length_lookup_2; [done|].
  intros i x y Hx Hy. rewrite Hx in Hy. injection Hy as <-. split; [done|constructor].
Qed.

Lemma eqv_arr_inv l l' : json_eqv (JArr l) (JArr l') -> Forall2 json_eqv l l'.
Proof.
  inversion 1; subst; [|done].
  apply Forall2_same_length_lookup_2; [done|].
  intros i x y Hx Hy. rewrite Hx in Hy. injection Hy as <-. constructor.
Qed.

(** On [{"effects": []}] the validator answers with a plan that is not the
    one the specification prints: its effect has no [duty]. *)
Lemma fallback_lacks_duty :
  exists out,
    Bridge.validate_or_fix (JObj [ ("effects", JArr []) ]) = Ok out
    /\ ~ json_eqv out SPEC_FALLBACK_PLAN.
Proof.
  exists FALLBACK_PLAN. split; [vm_compute; reflexivity|].
  unfold FALLBACK_PLAN, SPEC_FALLBACK_PLAN. intros H%eqv_obj_inv.
  inversion H as [|? ? ? ? _ H1]; subst.
  inversion H1 as [|? ? ? ? [_ He] _]; subst. cbn [snd] in He.
  apply eqv_arr_inv in He. inversion He as [|? ? ? ? Hx _]; subst.
  apply eqv_obj_inv, Forall2_length in Hx. discriminate Hx.
Qed.

(** ** The clamp law *)





(** ** Validating twice *)

Lemma known_or_known default names v :
  str_in default names = true ->
  py_in_set (JStr (known_or default names v)) names = Ok true.
Proof. intros H. cbn [py_in_set]. by rewrite known_or_in. Qed.

Lemma within_ltb lo hi x :
  within lo hi (JNum x) = true -> num_ltb x lo = false /\ num_ltb hi x = false.
Proof.
  unfold within. rewrite andb_true_iff, !negb_true_iff. tauto.
Qed.

(** [float()] of a clamped [hz] or [duty] succeeds and keeps the value. *)
Lemma py_float_clamped lo z x :
  (Z.abs z <? float_overflow_bound) = true ->
  py_float (JNum (clamp (PFloat lo) (PInt z) (PFloat x)))
  = Ok (float_of_num (clamp (PFloat lo) (PInt z) (PFloat x))).
Proof.
  intros Hz. unfold clamp, py_min, py_max.
  destruct (num_ltb (PFloat x) (PFloat lo));
    [destruct (num_ltb (PInt z) (PFloat lo))|destruct (num_ltb (PInt z) (PFloat x))];
    cbn [py_float float_of_num]; by rewrite ?Hz.
Qed.

Lemma py_float_clamped_f lo hi x :
  py_float (JNum (clamp (PFloat lo) (PFloat hi) (PFloat x)))
  = Ok (float_of_num (clamp (PFloat lo) (PFloat hi) (PFloat x))).
Proof.
  unfold clamp, py_min, py_max.
  destruct (num_ltb (PFloat x) (PFloat lo));
    [destruct (num_ltb (PFloat hi) (PFloat lo))|destruct (num_ltb (PFloat hi) (PFloat x))];
    reflexivity.
Qed.

(** Clamping what was clamped changes nothing but, at most, an [int] into
    the [float] of the same value. *)
Lemma clamp_again lo hi x ql qh :
  float_of_num lo = FFin ql -> float_of_num hi = FFin qh -> (ql <= qh)%Q ->
  clamp lo hi (PFloat (float_of_num (clamp lo hi x)))
  = PFloat (float_of_num (clamp lo hi x)).
Proof.
  intros Hlo Hhi Hle.
  destruct (within_ltb _ _ _ (clamp_within lo hi x ql qh Hlo Hhi Hle)) as [H1 H2].
  apply clamp_fixed.
  - by rewrite (num_ltb_float _ lo (clamp lo hi x) lo).
  - by rewrite (num_ltb_float hi _ hi (clamp lo hi x)).
Qed.

Lemma clamp_int_again lo hi z :
  (lo <= hi)%Z ->
  exists z', clamp (PInt lo) (PInt hi) (PInt z) = PInt z'
    /\ clamp (PInt lo) (PInt hi) (PInt z') = PInt z'.
Proof.
  intros Hle. destruct (clamp_int lo hi z) as [z' Hz']. exists z'. split; [done|].
  assert (within (PInt lo) (PInt hi) (JNum (clamp (PInt lo) (PInt hi) (PInt z))) = true) as Hw.
  { apply (clamp_within _ _ _ (inject_Z lo) (inject_Z hi)); [done..|].
    by rewrite <- Zle_Qle. }
  rewrite Hz' in Hw. apply within_ltb in Hw as [H1 H2]. by apply clamp_fixed.
Qed.

Ltac fold_clamp :=
  repeat match goal with
  | |- context [py_min (py_max ?x ?lo) ?hi] =>
      change (py_min (py_max x lo) hi) with (clamp lo hi x)
  end.

(** A repaired effect is repaired to a like effect. *)
Lemma fix_effect_again e e' :
  fix_effect e = Ok e' -> exists e'', fix_effect e' = Ok e'' /\ json_eqv e'' e'.
Proof.
  intros (d & hz & duty & dur & -> & _ & _ & _ & ->)%fix_effect_inv.
  unfold repaired_effect.
  destruct (clamp_int_again 50 60000 dur ltac:(lia)) as (t & Ht & Ht').
  set (p := known_or "tail" PARTS _). set (m := known_or "wag" MODES _).
  set (rh := clamp (PFloat (FFin 0.1)) (PInt 30) (PFloat hz)).
  set (rd := clamp (PFloat (FFin 0.0)) (PFloat (FFin 1.0)) (PFloat duty)).
  rewrite Ht.
  exists (JObj [ ("part", JStr p); ("mode", JStr m); ("hz", JNum (PFloat (float_of_num rh)));
                 ("duty", JNum (PFloat (float_of_num rd))); ("duration_ms", JNum (PInt t)) ]).
  split.
  - unfold fix_effect. cbn [py_get mbind result_bind].
    unfold dict_get_default. cbn [dict_get String.eqb Ascii.eqb Bool.eqb].
    subst p m. rewrite !known_or_known by reflexivity. cbn [mbind result_bind].
    subst rh rd.
    rewrite py_float_clamped by reflexivity. cbn [mbind result_bind].
    rewrite py_float_clamped_f. cbn [mbind result_bind py_int]. fold_clamp.
    rewrite (clamp_again _ _ _ 0.1 30) by (reflexivity || done).
    rewrite (clamp_again _ _ _ 0.0 1.0) by (reflexivity || done).
    rewrite Ht'. reflexivity.
  - apply eqv_obj. repeat constructor; cbn [fst snd]; try reflexivity.
Qed.

Lemma fix_all_again es effects :
  Forall2 (fun e e' => fix_effect e = Ok e') es effects ->
  exists effects',
    Forall2 (fun e e' => fix_effect e = Ok e') effects effects'
    /\ Forall2 json_eqv effects' effects.
Proof.
  induction 1 as [|e e' es effects He _ (effects' & IH1 & IH2)].
  - exists []. split; constructor.
  - destruct (fix_effect_again e e' He) as (e'' & H1 & H2).
    exists (e'' :: effects'). split; by constructor.
Qed.

Lemma fixed_plan_again intent effects effects' :
  effects <> [] ->
  Forall2 (fun e e' => fix_effect e = Ok e') effects effects' ->
  Forall2 json_eqv effects' effects ->
  exists out',
    Bridge.validate_or_fix (fixed_plan intent effects) = Ok out'
    /\ json_eqv out' (fixed_plan intent effects).
Proof.
  intros Hne Hfix Heqv.
  destruct (conforms BRUNO_SCHEMA (fixed_plan intent effects)) eqn:Hc.
  - rewrite validate_ok by done. eexists. split; [done|constructor].
  - rewrite validate_fix by done. unfold fixed_plan.
    rewrite (repair_intro _ effects effects'); [|reflexivity|done].
    cbn [mbind result_bind]. unfold dict_get_default.
    cbn [dict_get String.eqb Ascii.eqb Bool.eqb].
    assert (py_truthy (JArr effects') = true) as ->.
    { apply Forall2_length in Heqv. destruct effects', effects; done. }
    eexists. split; [done|].
    apply eqv_obj.
    constructor; [split; [done|apply eqv_same]|].
    constructor; [split; [done|by apply eqv_arr]|constructor].
Qed.

Lemma bridge_validate_again p out :
  Bridge.validate_or_fix p = Ok out ->
  exists out', Bridge.validate_or_fix out = Ok out' /\ json_eqv out' out.
Proof.
  intros Hv. destruct (conforms BRUNO_SCHEMA p) eqn:Hc.
  - rewrite validate_ok in Hv by done. injection Hv as <-.
    exists p. split; [by apply validate_ok|constructor].
  - rewrite validate_fix in Hv by done.
    destruct (repair p) as [[intent effects]|] eqn:Hr; [|discriminate].
    cbn [mbind result_bind] in Hv.
    apply repair_inv in Hr as (d & es & -> & _ & _ & HF).
    destruct effects as [|e effects]; cbn [py_truthy length Nat.eqb negb] in Hv;
      injection Hv as <-.
    + exists FALLBACK_PLAN. split; [apply validate_ok, fallback_conforms|constructor].
    + destruct (fix_all_again _ _ HF) as (effects' & H1 & H2).
      by apply (fixed_plan_again _ _ effects').
Qed.

(** ** The validator of the Whisper script *)




(** Whatever the Whisper validator returns passes the schema. *)
Lemma whisper_validate_conforms p out :
  Whisper.validate_or_fix p = Ok out -> conforms BRUNO_SCHEMA out = true.
Proof.
  unfold Whisper.validate_or_fix, validate.
  destruct (conforms BRUNO_SCHEMA p) eqn:Hc; cbn [mbind result_bind try_except].
  - by intros [= <-].
  - destruct (Whisper.repair p) as [[intent effects]|]; cbn [mbind result_bind]; [|done].
    match goal with |- context [conforms BRUNO_SCHEMA ?x] =>
      destruct (conforms BRUNO_SCHEMA x) eqn:Hf end;
      cbn [mbind result_bind try_except]; intros [= <-]; [done|].
    apply fallback_conforms.
Qed.

Lemma whisper_validate_again p out :
  Whisper.validate_or_fix p = Ok out -> Whisper.validate_or_fix out = Ok out.
Proof.
  intros H%whisper_validate_conforms.
  unfold Whisper.validate_or_fix, validate. by rewrite H.
Qed.

(** C3. Validating the validator's answer gives that answer again (the
    [int] 30 of a clamped [hz] possibly as the [float] 30.0); where the
    first call raises, so does the composition. *)
Theorem validate_or_fix_idempotent (p : json) :
  same_outcome (Bridge.validate_or_fix p ≫= Bridge.validate_or_fix)
               (Bridge.validate_or_fix p)
  /\ same_outcome (Whisper.validate_or_fix p ≫= Whisper.validate_or_fix)
                  (Whisper.validate_or_fix p).
Proof.
  split.
  - destruct (Bridge.validate_or_fix p) as [out|e] eqn:Hv; cbn [mbind result_bind]; [|done].
    destruct (bridge_validate_again p out Hv) as (out' & -> & H). exact H.
  - destruct (Whisper.validate_or_fix p) as [out|e] eqn:Hv; cbn [mbind result_bind]; [|done].
    rewrite (whisper_validate_again p out Hv). constructor.
Qed.

(** The large-model Vosk script keeps a repaired plan with no effects:
    its [fixed or FALLBACK_PLAN] tests a dict that is never empty. *)
Lemma big_loop_returns_no_effects :
  BigLoop.validate_or_fix (JObj [ ("effects", JArr []) ])
  = Ok (JObj [ ("intent", JStr "EMOTE_OR_ACTION"); ("effects", JArr []) ]).
Proof. vm_compute. reflexivity. Qed.

(** More than five effects: the bridge returns them all repaired, the
    Whisper script its fallback. *)
Lemma six_effects :
  (exists es, Bridge.validate_or_fix
                (JObj [ ("intent", JStr "X"); ("effects", JArr [wag; wag; wag; wag; wag; wag]) ])
              = Ok (JObj [ ("intent", JStr "X"); ("effects", JArr es) ])
              /\ length es = 6%nat)
  /\ Whisper.validate_or_fix
       (JObj [ ("intent", JStr "X"); ("effects", JArr [wag; wag; wag; wag; wag; wag]) ])
     = Ok FALLBACK_PLAN.
Proof.
  split; [eexists; split|]; vm_compute; reflexivity.
Qed.

(** ** Wake phrases in a text *)

Lemma lstrip_chars_head chars l : starts_with_any chars (lstrip_chars chars l) = false.
Proof.
  induction l as [|c l IH]; [done|]. cbn [lstrip_chars].
  destruct (existsb (Ascii.eqb c) chars) eqn:E; [done|]. cbn. exact E.
Qed.

Lemma lstrip_chars_suffix chars l : exists pre, l = (pre ++ lstrip_chars chars l)%list.
Proof.
  induction l as [|c l [pre IH]]; [by exists []|]. cbn [lstrip_chars].
  destruct (existsb (Ascii.eqb c) chars).
  - exists (c :: pre). cbn. by rewrite <- IH.
  - by exists [].
Qed.

(** Stripping the tail does not uncover the head again. *)
Lemma lstrip_rev_head chars l :
  starts_with_any chars l = false ->
  starts_with_any chars (rev (lstrip_chars chars (rev l))) = false.
Proof.
  intros H. destruct (lstrip_chars_suffix chars (rev l)) as [pre Hpre].
  assert (l = (rev (lstrip_chars chars (rev l)) ++ rev pre)%list) as Hl.
  { rewrite <- rev_app_distr, <- Hpre. by rewrite rev_involutive. }
  destruct (rev (lstrip_chars chars (rev l))) as [|c r]; [done|].
  rewrite Hl in H. exact H.
Qed.

Lemma py_strip_trimmed chars t :
  let cs := list_ascii_of_string chars in
  let r := list_ascii_of_string (py_strip chars t) in
  starts_with_any cs r = false /\ starts_with_any cs (rev r) = false.
Proof.
  cbn zeta. unfold py_strip. rewrite list_ascii_of_string_of_list_ascii. split.
  - apply lstrip_rev_head, lstrip_chars_head.
  - rewrite rev_involutive. apply lstrip_chars_head.
Qed.

(** A text free of [w] is left as it is by [replace(w, "")]. *)
Lemma remove_scan_absent w t :
  str_contains w t = false -> remove_scan w 0 t = t.
Proof.
  induction t as [|c t IH]; [done|]. cbn [str_contains remove_scan].
  rewrite orb_false_iff. intros [-> H]. by rewrite IH.
Qed.

(** An occurrence at the head is dropped whole. *)
Lemma remove_scan_skip w u : forall t,
  remove_scan w (String.length u) (u ++ t) = remove_scan w 0 t.
Proof.
  induction u as [|c u IH]; intros t; [done|].
  change (String c u ++ t) with (String c (u ++ t)). cbn [String.length remove_scan].
  apply IH.
Qed.

Lemma prefix_app w t : String.prefix w (w ++ t) = true.
Proof.
  induction w as [|c w IH]; [by destruct t|].
  change (String c w ++ t) with (String c (w ++ t)). cbn [String.prefix].
  destruct (ascii_dec c c); [apply IH|done].
Qed.

Lemma py_remove_head w t : w <> "" -> py_remove w (w ++ t) = py_remove w t.
Proof.
  intros Hw. unfold py_remove.
  destruct (String.eqb_spec w ""); [done|].
  destruct w as [|c w]; [done|].
  change (String c w ++ t) with (String c (w ++ t)).
  cbn [remove_scan].
  change (String c (w ++ t)) with (String c w ++ t). rewrite prefix_app.
  cbn [String.length].
  replace (S (String.length w) - 1)%nat with (String.length w) by lia.
  apply remove_scan_skip.
Qed.

(** ** Debounce *)

Lemma wake_gate_some last w ts :
  Bridge.wake_gate last w = Some ts ->
  wake_match w = true /\ ts = Bridge.t_set w
  /\ (last + Bridge.WAKE_DEBOUNCE_S <= Bridge.t_test w)%Q.
Proof.
  unfold Bridge.wake_gate, wake_match.
  destruct (String.eqb _ ""); [done|].
  destruct (Bridge.contains_wake _); [|done]. cbn [negb andb].
  destruct (Qltb _ _) eqn:E; [done|]. intros [= <-].
  apply Qltb_ge in E. repeat split; [lra].
Qed.

Lemma wake_gate_accepts last w :
  wake_match w = true ->
  (last + Bridge.WAKE_DEBOUNCE_S <= Bridge.t_test w)%Q ->
  Bridge.wake_gate last w = Some (Bridge.t_set w).
Proof.
  unfold Bridge.wake_gate, wake_match. rewrite andb_true_iff, negb_true_iff.
  intros [-> ->] H. cbn [negb].
  assert (Qltb (Bridge.t_test w - last) Bridge.WAKE_DEBOUNCE_S = false) as ->; [|done].
  apply Qltb_ge. lra.
Qed.

Lemma wake_gate_rejects last w :
  (Bridge.t_test w < last + Bridge.WAKE_DEBOUNCE_S)%Q ->
  Bridge.wake_gate last w = None.
Proof.
  intros H. unfold Bridge.wake_gate.
  destruct (String.eqb _ ""); [done|].
  destruct (negb _); [done|].
  assert (Qltb (Bridge.t_test w - last) Bridge.WAKE_DEBOUNCE_S = true) as ->; [|done].
  apply Qltb_lt. lra.
Qed.

Lemma main_turn_inv last w last' o :
  Bridge.main_turn last w = Ok (last', o) ->
  (accepted o = false /\ Bridge.wake_gate last w = None /\ last' = last)
  \/ (accepted o = true /\ Bridge.wake_gate last w = Some last').
Proof.
  unfold Bridge.main_turn. destruct (Bridge.wake_gate last w) as [ts|].
  - cbv zeta.
    match goal with |- context [Bridge.plan_step _ ?c] => generalize c; intros cmd end.
    destruct (Bridge.plan_step _ cmd) as [plan|]; cbn [mbind result_bind];
      [|discriminate].
    generalize (Bridge.dispatch w plan); intros reply.
    destruct reply as [r|[]]; intros H; try discriminate;
      injection H as <- <-; right; split; reflexivity.
  - intros H. injection H as <- <-. left. repeat split; reflexivity.
Qed.

Lemma main_loop_cons last w ws last' os :
  Bridge.main_loop last (w :: ws) = Ok (last', os) ->
  exists mid o os',
    Bridge.main_turn last w = Ok (mid, o)
    /\ Bridge.main_loop mid ws = Ok (last', os')
    /\ os = o :: os'.
Proof.
  cbn [Bridge.main_loop].
  destruct (Bridge.main_turn last w) as [[mid o]|]; cbn [mbind result_bind]; [|done].
  destruct (Bridge.main_loop mid ws) as [[l os']|] eqn:Hrest; cbn [mbind result_bind];
    [|done].
  intros [= <- <-]. by exists mid, o, os'.
Qed.

Lemma clock_from_weaken t t' ws :
  (t' <= t)%Q -> clock_from t ws -> clock_from t' ws.
Proof.
  destruct ws as [|w ws]; [done|]. cbn. intros H (H1 & H2 & H3).
  repeat split; [lra|done..].
Qed.

(** While the clock runs on from [last], a turn accepted later was tested
    a full window after [b], for any [b <= last]. *)
Lemma accepted_after_window ws : forall last last' os b j wj oj,
  Bridge.main_loop last ws = Ok (last', os) ->
  (b <= last)%Q -> clock_from last ws ->
  ws !! j = Some wj -> os !! j = Some oj -> accepted oj = true ->
  (b + Bridge.WAKE_DEBOUNCE_S <= Bridge.t_test wj)%Q.
Proof.
  induction ws as [|w ws IH]; intros last last' os b j wj oj Hrun Hb Hclk Hw Ho Hacc;
    [done|].
  apply main_loop_cons in Hrun as (mid & o & os' & Hturn & Hrest & ->).
  destruct Hclk as (C1 & C2 & C3).
  apply main_turn_inv in Hturn as [(Hno & _ & ->)|(_ & Hg)].
  - destruct j as [|j]; cbn in Hw, Ho.
    + injection Ho as <-. congruence.
    + apply (IH last last' os' b j wj oj); try done.
      apply (clock_from_weaken (Bridge.t_set w)); [lra|done].
  - apply wake_gate_some in Hg as (_ & -> & Hwin).
    destruct j as [|j]; cbn in Hw, Ho.
    + injection Hw as <-. lra.
    + apply (IH (Bridge.t_set w) last' os' b j wj oj); try done. lra.
Qed.

(** Of two turns tested less than a window apart, at most one is
    accepted. *)
Lemma at_most_one_per_window ws : forall last last' os i j wi wj oi oj,
  Bridge.main_loop last ws = Ok (last', os) -> clock_from last ws ->
  (i < j)%nat ->
  ws !! i = Some wi -> ws !! j = Some wj ->
  os !! i = Some oi -> os !! j = Some oj ->
  (Bridge.t_test wj - Bridge.t_test wi < Bridge.WAKE_DEBOUNCE_S)%Q ->
  accepted oi = true -> accepted oj = false.
Proof.
  induction ws as [|w ws IH]; intros last last' os i j wi wj oi oj Hrun Hclk Hij
    Hwi Hwj Hoi Hoj Hnear Hacc; [done|].
  apply main_loop_cons in Hrun as (mid & o & os' & Hturn & Hrest & ->).
  destruct Hclk as (C1 & C2 & C3).
  destruct j as [|j]; [lia|]. cbn in Hwj, Hoj.
  destruct i as [|i]; cbn in Hwi, Hoi.
  - injection Hwi as <-. injection Hoi as <-.
    apply main_turn_inv in Hturn as [(Hno & _)|(_ & Hg)]; [congruence|].
    apply wake_gate_some in Hg as (_ & -> & _).
    destruct (accepted oj) eqn:Hj; [|done]. exfalso.
    pose proof (accepted_after_window ws _ _ _ (Bridge.t_test w) j wj oj Hrest C2 C3 Hwj Hoj Hj).
    lra.
  - apply main_turn_inv in Hturn as [(_ & _ & ->)|(_ & Hg)].
    + apply (IH last last' os' i j wi wj oi oj); try done; [|lia].
      apply (clock_from_weaken (Bridge.t_set w)); [lra|done].
    + apply wake_gate_some in Hg as (_ & -> & _).
      apply (IH (Bridge.t_set w) last' os' i j wi wj oi oj); try done. lia.
Qed.

(** C6, as the code has it.  In a run of the main loop under a clock that
    does not run backwards: of two turns tested less than the debounce
    window apart at most one is accepted, so that after an accepted one the
    other is dropped; [last_wake_ts] changes on an accepted wake only; and a
    wake match tested a full window or more after [last_wake_ts] passes the
    gate. *)
Theorem debounce (last : Q) (ws : list Bridge.turn) (last' : Q)
    (os : list Bridge.outcome) :
  Bridge.main_loop last ws = Ok (last', os) ->
  clock_from last ws ->
  (forall i j wi wj oi oj,
     (i < j)%nat ->
     ws !! i = Some wi -> ws !! j = Some wj ->
     os !! i = Some oi -> os !! j = Some oj ->
     (Bridge.t_test wj - Bridge.t_test wi < Bridge.WAKE_DEBOUNCE_S)%Q ->
     accepted oi = true -> accepted oj = false)
  /\ (forall t w t' o,
        Bridge.main_turn t w = Ok (t', o) ->
        if accepted o then t' = Bridge.t_set w else t' = t)
  /\ (forall t w,
        wake_match w = true ->
        (t + Bridge.WAKE_DEBOUNCE_S <= Bridge.t_test w)%Q ->
        Bridge.wake_gate t w = Some (Bridge.t_set w)).
Proof.
  intros Hrun Hclk. split; [|split].
  - intros i j wi wj oi oj. by apply (at_most_one_per_window ws last last' os).
  - intros t w t' o [(-> & _ & ->)|(-> & Hg)]%main_turn_inv; [done|].
    by apply wake_gate_some in Hg as (_ & -> & _).
  - apply wake_gate_accepts.
Qed.

Lemma debounce_witness :
  let ws := [ hears "hey bruno wag your tail" 100; hears "hey bruno" 100.5;
              hears "hey bruno" 103 ] in
  exists last' os o1,
    Bridge.main_loop 0 ws = Ok (last', os)
    /\ clock_from 0 ws
    /\ os !! 1%nat = Some o1 /\ accepted o1 = false
    /\ Bridge.wake_gate 100 (hears "hey bruno" 103) = Some 103%Q.
Proof.
  cbn zeta.
  set (ws := [ hears "hey bruno wag your tail" 100; hears "hey bruno" 100.5;
               hears "hey bruno" 103 ]).
  assert (clock_from 0 ws) as Hclk by (vm_compute; intuition discriminate).
  destruct (Bridge.main_loop 0 ws) as [[last' os]|] eqn:Hrun; [|by vm_compute in Hrun].
  destruct (debounce 0 ws last' os Hrun Hclk) as (H1 & _ & H3).
  assert (exists o0 o1, os !! 0%nat = Some o0 /\ os !! 1%nat = Some o1 /\ accepted o0 = true)
    as (o0 & o1 & E0 & E1 & A0).
  { vm_compute in Hrun. injection Hrun as _ <-. eexists _, _. repeat split. }
  exists last', os, o1.
  split; [reflexivity|]. split; [exact Hclk|]. split; [exact E1|]. split.
  - apply (H1 0%nat 1%nat (hears "hey bruno wag your tail" 100) (hears "hey bruno" 100.5) o0 o1);
      [lia|reflexivity|reflexivity|exact E0|exact E1|vm_compute; reflexivity|exact A0].
  - apply (H3 100%Q (hears "hey bruno" 103)); [vm_compute; reflexivity|].
    vm_compute. discriminate.
Defined.

(** After a wake accepted at 100, the matches at 100.5 and at 101 are
    half a second apart and neither is accepted. *)
Lemma two_matches_none_accepted :
  let w1 := hears "hey bruno" 100.5 in
  let w2 := hears "hey bruno" 101 in
  wake_match w1 = true /\ wake_match w2 = true
  /\ (Bridge.t_test w2 - Bridge.t_test w1 < Bridge.WAKE_DEBOUNCE_S)%Q
  /\ exists last' os,
       Bridge.main_loop 0 [ hears "hey bruno wag your tail" 100; w1; w2 ] = Ok (last', os)
       /\ map accepted os = [true; false; false].
Proof.
  cbn zeta. split; [vm_compute; reflexivity|]. split; [vm_compute; reflexivity|].
  split; [vm_compute; reflexivity|].
  eexists _, _. split; vm_compute; reflexivity.
Qed.

(** ** The planner call *)




(** ** Endpointing *)

Lemma capture_floor cfg start ticks : forall buf run buf' now,
  Bridge.capture cfg start ticks buf run = (buf', Some (Silence now)) ->
  (Bridge.min_s cfg <= now - start)%Q.
Proof.
  induction ticks as [|[|x tf tc] ticks IH]; intros buf run buf' now; cbn [Bridge.capture];
    [done..|].
  cbv zeta.
  destruct (Qltb (tf - start) (Bridge.min_s cfg)) eqn:Efloor.
  - destruct (Qltb (Bridge.max_s cfg) (tc - start)); [done|]. apply IH.
  - destruct (Bridge.silence_frames_needed cfg <=? _).
    + intros [= _ <-]. by apply Qltb_ge.
    + destruct (Qltb (Bridge.max_s cfg) (tc - start)); [done|]. apply IH.
Qed.

Lemma capture_ceiling cfg start pre : forall x tf tc post buf run,
  (Bridge.max_s cfg < tc - start)%Q ->
  exists buf' why,
    Bridge.capture cfg start (pre ++ Block x tf tc :: post) buf run = (buf', Some why)
    /\ (length buf' <= length buf + length pre + 1)%nat.
Proof.
  induction pre as [|[|y uf uc] pre IH]; intros x tf tc post buf run Hmax.
  - apply Qltb_lt in Hmax. cbn [app Bridge.capture]. cbv zeta. rewrite Hmax.
    destruct (Qltb (tf - start) (Bridge.min_s cfg));
      [|destruct (Bridge.silence_frames_needed cfg <=? _)];
      eexists _, _; (split; [reflexivity|]); rewrite length_app; cbn; lia.
  - cbn [app Bridge.capture]. eexists _, _. split; [reflexivity|]. lia.
  - cbn [app Bridge.capture]. cbv zeta.
    assert (forall run', exists buf' why,
              Bridge.capture cfg start (pre ++ Block x tf tc :: post) (buf ++ [y]) run'
              = (buf', Some why)
              /\ (length buf' <= length buf + length (Block y uf uc :: pre) + 1)%nat) as Hrec.
    { intros run'. destruct (IH x tf tc post (buf ++ [y])%list run' Hmax) as (b & why & -> & Hl).
      exists b, why. split; [done|]. rewrite length_app in Hl. cbn in *. lia. }
    destruct (Qltb (uf - start) (Bridge.min_s cfg)).
    + destruct (Qltb (Bridge.max_s cfg) (uc - start)); [|apply Hrec].
      eexists _, _. split; [reflexivity|]. rewrite length_app. cbn. lia.
    + destruct (Bridge.silence_frames_needed cfg <=? _).
      * eexists _, _. split; [reflexivity|]. rewrite length_app. cbn. lia.
      * destruct (Qltb (Bridge.max_s cfg) (uc - start)); [|apply Hrec].
        eexists _, _. split; [reflexivity|]. rewrite length_app. cbn. lia.
Qed.

(** C7. The capture loop is not left through the silence test while the
    elapsed time is below [min_s], whatever the blocks are (so also when
    all are speech); and once a turn of the loop reads an elapsed time
    above [max_s] at its ceiling test, the loop has ended, with no more
    blocks buffered than it had been handed by then. *)
Theorem endpointing_floor_ceiling (cfg : Bridge.capture_config) (start : Q) :
  (forall ticks buf' now,
     Bridge.record_utterance cfg start ticks = (buf', Some (Silence now)) ->
     (Bridge.min_s cfg <= now - start)%Q)
  /\ (forall pre x tf tc post,
        (Bridge.max_s cfg < tc - start)%Q ->
        exists buf' why,
          Bridge.record_utterance cfg start (pre ++ Block x tf tc :: post)
          = (buf', Some why)
          /\ (length buf' <= length pre + 1)%nat).
Proof.
  split.
  - intros ticks buf' now. apply capture_floor.
  - intros pre x tf tc post Hmax.
    destruct (capture_ceiling cfg start pre x tf tc post [] 0 Hmax) as (b & why & H & Hl).
    exists b, why. split; [exact H|]. cbn in Hl. lia.
Qed.

Lemma endpointing_floor_ceiling_witness :
  let quiet := {| rms := 3 |} in
  Bridge.record_utterance short_config 0
    [ Block quiet 0.03 0.03; Block quiet 0.06 0.06; Block quiet 0.09 0.09 ]
  = ([quiet; quiet; quiet], Some (Silence 0.09))
  /\ (Bridge.min_s short_config <= 0.09 - 0)%Q
  /\ exists buf' why,
       Bridge.record_utterance short_config 0
         [ Block quiet 0.03 0.03; Block {| rms := 500 |} 2 2; Block quiet 2.03 2.03 ]
       = (buf', Some why)
       /\ (length buf' <= 2)%nat.
Proof.
  cbn zeta.
  destruct (endpointing_floor_ceiling short_config 0) as [Hfloor Hceil].
  split; [vm_compute; reflexivity|]. split.
  - apply (Hfloor [ Block {| rms := 3 |} 0.03 0.03; Block {| rms := 3 |} 0.06 0.06;
                    Block {| rms := 3 |} 0.09 0.09 ]
                  [ {| rms := 3 |}; {| rms := 3 |}; {| rms := 3 |} ]).
    vm_compute. reflexivity.
  - apply (Hceil [ Block {| rms := 3 |} 0.03 0.03 ] {| rms := 500 |} 2%Q 2%Q
                 [ Block {| rms := 3 |} 2.03 2.03 ]).
    vm_compute. reflexivity.
Defined.

(** ** The validator leaves its argument alone *)

Module HeapFacts.

Import Heap.

Lemma triple_bind {A B} P (m : M A) (k : A -> M B) Q R E :
  triple P m Q E -> (forall a, triple (Q a) (k a) R E) -> triple P (bind m k) R E.
Proof.
  intros Hm Hk h HP. unfold bind. specialize (Hm h HP).
  destruct (m h) as [[a|e] h1]; [|done]. by apply Hk.
Qed.

Lemma triple_ret {A} (Q : A -> heap -> Prop) E (a : A) : triple (Q a) (ret a) Q E.
Proof. by intros h HP. Qed.

Lemma triple_reads {A} (P E : heap -> Prop) (m : M A) :
  reads m -> (forall h, P h -> E h) -> triple P m (fun _ => P) E.
Proof.
  intros Hm HE h HP. pose proof (Hm h) as Hh.
  destruct (m h) as [[a|e] h1]; cbn in Hh; rewrite Hh; auto.
Qed.

Lemma reads_bind {A B} (m : M A) (k : A -> M B) :
  reads m -> (forall a, reads (k a)) -> reads (bind m k).
Proof.
  intros Hm Hk h. unfold bind. pose proof (Hm h) as Hh.
  destruct (m h) as [[a|e] h1]; cbn in Hh; rewrite Hh; [apply Hk|done].
Qed.

Lemma reads_read l : reads (read l).
Proof. intros h. unfold read. by destruct (h !! l). Qed.

Lemma reads_get v k default : reads (get v k default).
Proof.
  destruct v; try done. apply reads_bind; [apply reads_read|]. by intros [].
Qed.

Lemma reads_getitem v k : reads (getitem v k).
Proof.
  destruct v; try done. apply reads_bind; [apply reads_read|].
  intros [d|]; [|done]. by destruct (dict_get k d).
Qed.

Lemma reads_iter v : reads (iter v).
Proof.
  destruct v; try done. apply reads_bind; [apply reads_read|]. by intros [].
Qed.

Lemma reads_on_value {A} (f : json -> result A) v : reads (on_value f v).
Proof. done. Qed.

Lemma reads_truthy v : reads (truthy v).
Proof. done. Qed.

Lemma subseteq_insert_new (old h : heap) l o :
  old ⊆ h -> old !! l = None -> old ⊆ <[l := o]> h.
Proof. intros Hsub Hl. by apply insert_subseteq_r. Qed.

Lemma fresh_new (h : heap) : h !! fresh (dom h) = None.
Proof. apply not_elem_of_dom, is_fresh. Qed.

Lemma fresh_not_in (old h : heap) : old ⊆ h -> old !! fresh (dom h) = None.
Proof.
  intros Hsub. eapply lookup_weaken_None; [|exact Hsub]. apply fresh_new.
Qed.

Lemma building_alloc old fixed target intent o :
  triple (building old fixed target intent) (alloc o)
         (fun _ => building old fixed target intent)
         (fun h => old ⊆ h).
Proof.
  intros h [H1 H2 H3 H4]. unfold alloc. split; [|done..|].
  - apply subseteq_insert_new; [done|by apply fresh_not_in].
  - rewrite lookup_insert_ne; [done|].
    intros E. pose proof (fresh_new h) as Hf. congruence.
Qed.

Lemma building_append old fixed target intent v :
  triple (building old fixed target intent) (append (VRef target) v)
         (fun _ => building old fixed target intent)
         (fun h => old ⊆ h).
Proof.
  intros h [H1 H2 H3 H4]. unfold append, bind, read, write, throw.
  destruct (h !! target) as [[d|vs]|]; [done| |done].
  split; [|done..|].
  - by apply subseteq_insert_new.
  - by rewrite lookup_insert_ne.
Qed.

Lemma building_target old fixed target intent :
  triple (building old fixed target intent) (getitem (VRef fixed) "effects")
         (fun v h => v = VRef target /\ building old fixed target intent h)
         (fun h => old ⊆ h).
Proof.
  intros h Hb. unfold getitem, bind, read. rewrite (b_fixed _ _ _ _ _ Hb). by cbn.
Qed.

Ltac step_read lem :=
  eapply triple_bind;
  [apply triple_reads; [apply lem|by intros ? []]|]; cbv beta; intros ?.

Lemma building_fix_effect old fixed target intent e :
  triple (building old fixed target intent) (fix_effect (VRef fixed) e)
         (fun _ => building old fixed target intent)
         (fun h => old ⊆ h).
Proof.
  unfold fix_effect.
  step_read reads_get. step_read (@reads_on_value bool).
  step_read reads_get. step_read (@reads_on_value bool).
  step_read reads_get. step_read (@reads_on_value pyfloat).
  step_read reads_get. step_read (@reads_on_value pyfloat).
  step_read reads_get. step_read (@reads_on_value Z).
  eapply triple_bind; [apply building_target|]. cbv beta. intros tgt.
  intros h [-> Hb]. revert h Hb.
  eapply triple_bind; [apply building_alloc|]. cbv beta. intros item.
  apply building_append.
Qed.

Lemma building_for_each old fixed target intent es :
  triple (building old fixed target intent) (for_each es (fix_effect (VRef fixed)))
         (fun _ => building old fixed target intent)
         (fun h => old ⊆ h).
Proof.
  induction es as [|e es IH]; cbn [for_each].
  - apply (triple_ret (fun _ => building old fixed target intent)).
  - eapply triple_bind; [apply building_fix_effect|]. intros ?. exact IH.
Qed.

(** The two allocations that open the repair. *)
Lemma alloc_target old :
  triple (fun h => h = old) (alloc (OList []))
         (fun target h => old ⊆ h /\ old !! target = None /\ is_Some (h !! target))
         (fun h => old ⊆ h).
Proof.
  intros h ->. unfold alloc. repeat split.
  - apply subseteq_insert_new; [done|apply fresh_new].
  - apply fresh_new.
  - by rewrite lookup_insert_eq.
Qed.

Lemma alloc_fixed old target intent :
  triple (fun h => old ⊆ h /\ old !! target = None /\ is_Some (h !! target))
         (alloc (ODict [ ("intent", intent); ("effects", VRef target) ]))
         (fun fixed => building old fixed target intent)
         (fun h => old ⊆ h).
Proof.
  intros h (H1 & H2 & H3). unfold alloc. split; [|done| |].
  - apply subseteq_insert_new; [done|by apply fresh_not_in].
  - intros E. rewrite <- E, fresh_new in H3. by destruct H3.
  - by rewrite lookup_insert_eq.
Qed.

Lemma repair_triple old fallback plan :
  triple (fun h => h = old) (repair fallback plan)
         (fun _ h => old ⊆ h) (fun h => old ⊆ h).
Proof.
  unfold repair.
  eapply triple_bind; [apply triple_reads; [apply reads_get|by intros ? ->]|].
  cbv beta. intros intent.
  eapply triple_bind; [apply alloc_target|]. cbv beta. intros target.
  eapply triple_bind; [apply alloc_fixed|]. cbv beta zeta. intros fixed.
  eapply triple_bind; [apply building_alloc|]. cbv beta. intros default.
  step_read reads_get. step_read reads_iter.
  eapply triple_bind; [apply building_for_each|]. cbv beta. intros ?.
  step_read reads_getitem. step_read reads_truthy.
  intros h []. by cbn.
Qed.

(** Every object of the store is, after the call, what it was before. *)
Lemma validate_or_fix_grows fallback plan h :
  h ⊆ snd (validate_or_fix fallback plan h).
Proof.
  unfold validate_or_fix, validate.
  match goal with
  | |- context [match ?x with Ok _ => _ | Raise _ => _ end] => destruct x as [u|err]
  end;
    cbn [snd fst]; [reflexivity|].
  pose proof (repair_triple h fallback plan h eq_refl) as H.
  by destruct (repair fallback plan h) as [[a|err'] h'].
Qed.

Lemma view_grows (h h' : heap) n : forall v,
  h ⊆ h' -> closed h -> val_in h v -> view n h' v = view n h v.
Proof.
  induction n as [|n IH]; intros v Hsub Hcl Hv;
    (destruct v as [| | | |l]; [done..|]);
    destruct Hv as [o Ho]; cbn [view];
    rewrite Ho, (lookup_weaken _ _ _ _ Ho Hsub); [done|].
  pose proof (Hcl l o Ho) as Hin.
  destruct o as [d|vs]; cbn [obj_in] in Hin; f_equal.
  - apply map_ext_Forall. eapply Forall_impl; [exact Hin|].
    intros [k v] Hk. cbn [fst snd] in *. f_equal. by apply IH.
  - apply map_ext_Forall. eapply Forall_impl; [exact Hin|].
    intros v Hk. by apply IH.
Qed.

End HeapFacts.

(** C10. Whatever [validate_or_fix] does, returning or raising, each
    object of the store is afterwards what it was before the call; so the
    plan handed in, in a store without dangling references, reads the same
    to any depth. *)
Theorem validate_or_fix_keeps_argument
    (fallback plan : Heap.val) (h : gmap Heap.loc Heap.obj) :
  let h' := snd (Heap.validate_or_fix fallback plan h) in
  h ⊆ h'
  /\ (Heap.closed h -> Heap.val_in h plan ->
      forall n, Heap.view n h' plan = Heap.view n h plan).
Proof.
  cbn zeta. split.
  - apply HeapFacts.validate_or_fix_grows.
  - intros Hcl Hin n. apply HeapFacts.view_grows; [|done..].
    apply HeapFacts.validate_or_fix_grows.
Qed.

Lemma sample_heap_closed : Heap.closed sample_heap.
Proof.
  intros l o. unfold sample_heap.
  rewrite !lookup_insert_Some, lookup_empty.
  intros [[<- <-]|[_ [[<- <-]|[_ [[<- <-]|[_ ?]]]]]]; [..|done]; cbn.
  - repeat constructor. cbn. by eexists.
  - repeat constructor. cbn. by eexists.
  - repeat constructor.
Qed.

Lemma validate_or_fix_keeps_argument_witness :
  let h' := snd (Heap.validate_or_fix Heap.VNone (Heap.VRef 1%positive) sample_heap) in
  Heap.view 3 h' (Heap.VRef 1%positive)
  = JObj [ ("intent", JStr "X"); ("effects", JArr [ JObj [ ("part", JStr "nose") ] ]) ]
  /\ fst (Heap.validate_or_fix Heap.VNone (Heap.VRef 1%positive) sample_heap) = Ok (Heap.VRef 5%positive).
Proof.
  cbn zeta. split.
  - destruct (validate_or_fix_keeps_argument Heap.VNone (Heap.VRef 1%positive) sample_heap) as [_ H].
    rewrite (H sample_heap_closed ltac:(by eexists) 3%nat). reflexivity.
  - vm_compute. reflexivity.
Defined.

(** ** The validator on the store computes what the validator on documents
    does *)

Module HeapRefinement.

Lemma dict_get_map {V W : Type} (f : V -> W) k (d : list (string * V)) :
  dict_get k (map (fun kv => (fst kv, f (snd kv))) d) = f <$> dict_get k d.
Proof.
  induction d as [|[k' v] d IH]; [done|]. cbn.
  by destruct (String.eqb k k').
Qed.

Lemma dict_get_default_map {V W : Type} (f : V -> W) k dv dv' (d : list (string * V)) :
  f dv' = dv ->
  dict_get_default k dv (map (fun kv => (fst kv, f (snd kv))) d)
  = f (dict_get_default k dv' d).
Proof.
  intros <-. unfold dict_get_default. rewrite dict_get_map. by destruct (dict_get k d).
Qed.

Lemma dict_get_in {V : Type} k (d : list (string * V)) v :
  dict_get k d = Some v -> (k, v) ∈ d.
Proof.
  induction d as [|[k' v'] d IH]; [done|]. cbn.
  destruct (String.eqb k k') eqn:E.
  - apply String.eqb_eq in E as ->. intros [= ->]. left.
  - intros H. right. by apply IH.
Qed.

Lemma view_scalar n h v : scalar v = true -> Heap.view n h v = Heap.view 0 ∅ v.
Proof. by destruct v, n. Qed.

(** A field of an object of a closed store, or the scalar default, is in
    the store. *)
Lemma field_in (old : gmap Heap.loc Heap.obj) l d k dv :
  Heap.closed old -> old !! l = Some (Heap.ODict d) -> scalar dv = true ->
  Heap.val_in old (dict_get_default k dv d).
Proof.
  intros Hcl Hl Hdv. unfold dict_get_default.
  destruct (dict_get k d) as [v|] eqn:E; [|by destruct dv].
  apply dict_get_in in E. specialize (Hcl l _ Hl). cbn in Hcl.
  rewrite Forall_forall in Hcl. apply (Hcl _ E).
Qed.

(** [fix_effect] in one piece. *)
Lemma fix_effect_obj d :
  fix_effect (JObj d) =
  _ ← py_in_set (dict_get_default "part" (JStr "tail") d) PARTS;
  _ ← py_in_set (dict_get_default "mode" (JStr "wag") d) MODES;
  hz ← py_float (dict_get_default "hz" (JInt 6) d);
  duty ← py_float (dict_get_default "duty" (JFloat 0.5) d);
  dur ← py_int (dict_get_default "duration_ms" (JInt 1500) d);
  Ok (repaired_effect d hz duty dur).
Proof.
  unfold fix_effect. cbn [py_get mbind result_bind].
  destruct (py_in_set _ PARTS) as [kp|] eqn:Ep; [|done].
  destruct (py_in_set _ MODES) as [km|] eqn:Em; [|done].
  destruct (py_float (dict_get_default "hz" _ d)) as [hz|]; [|done].
  destruct (py_float (dict_get_default "duty" _ d)) as [duty|]; [|done].
  destruct (py_int _) as [dur|]; [|done].
  unfold repaired_effect. cbn [mbind result_bind].
  by rewrite (py_in_set_known _ _ "tail" _ Ep), (py_in_set_known _ _ "wag" _ Em).
Qed.

Lemma bind_ok {A B} (m : Heap.M A) (k : A -> Heap.M B) h a h' :
  m h = (Ok a, h') -> Heap.bind m k h = k a h'.
Proof. unfold Heap.bind. by intros ->. Qed.

Lemma bind_raise {A B} (m : Heap.M A) (k : A -> Heap.M B) h e h' :
  m h = (Raise e, h') -> Heap.bind m k h = (Raise e, h').
Proof. unfold Heap.bind. by intros ->. Qed.

Lemma get_dict (h : gmap Heap.loc Heap.obj) l d k dv :
  h !! l = Some (Heap.ODict d) ->
  Heap.get (Heap.VRef l) k dv h = (Ok (dict_get_default k dv d), h).
Proof. intros H. unfold Heap.get, Heap.bind, Heap.read. by rewrite H. Qed.

Lemma get_other (h : gmap Heap.loc Heap.obj) v k dv :
  (forall l d, v = Heap.VRef l -> h !! l = Some (Heap.ODict d) -> False) ->
  Heap.val_in h v ->
  Heap.get v k dv h = (Raise AttributeError, h).
Proof.
  intros H Hin. destruct v as [| | | |l]; try done.
  destruct Hin as [o Ho]. unfold Heap.get, Heap.bind, Heap.read. rewrite Ho.
  destruct o; [|done]. by destruct (H l items).
Qed.

Lemma view_dict n (h : gmap Heap.loc Heap.obj) l d :
  h !! l = Some (Heap.ODict d) ->
  Heap.view (S n) h (Heap.VRef l) = JObj (map (fun kv => (fst kv, Heap.view n h (snd kv))) d).
Proof. intros H. cbn [Heap.view]. by rewrite H. Qed.

Lemma view_list n (h : gmap Heap.loc Heap.obj) l vs :
  h !! l = Some (Heap.OList vs) ->
  Heap.view (S n) h (Heap.VRef l) = JArr (map (Heap.view n h) vs).
Proof. intros H. cbn [Heap.view]. by rewrite H. Qed.

Lemma on_value_run {A} (f : json -> result A) v h :
  Heap.on_value f v h = (f (Heap.view 0 h v), h).
Proof. done. Qed.

Lemma known_view h v names dflt kp :
  py_in_set (Heap.view 0 h v) names = Ok kp ->
  scalar (if kp then v else Heap.VStr dflt) = true
  /\ Heap.view 0 ∅ (if kp then v else Heap.VStr dflt)
     = JStr (known_or dflt names (Heap.view 0 h v)).
Proof.
  destruct v as [| | |s|l]; cbn; try (by intros [= <-]).
  - intros [= <-]. by destruct (str_in s names).
  - destruct (h !! l) as [[]|]; try done. by intros [= <-].
Qed.

Lemma getitem_dict (h : gmap Heap.loc Heap.obj) l d k v :
  h !! l = Some (Heap.ODict d) -> dict_get k d = Some v ->
  Heap.getitem (Heap.VRef l) k h = (Ok v, h).
Proof. intros H E. unfold Heap.getitem, Heap.bind, Heap.read. by rewrite H, E. Qed.

Lemma append_list (h : gmap Heap.loc Heap.obj) l vs v :
  h !! l = Some (Heap.OList vs) ->
  Heap.append (Heap.VRef l) v h = (Ok tt, <[l := Heap.OList (vs ++ [v])]> h).
Proof. intros H. unfold Heap.append, Heap.bind, Heap.read. by rewrite H. Qed.

Lemma fresh_ne (h : gmap Heap.loc Heap.obj) l : is_Some (h !! l) -> l <> fresh (dom h).
Proof.
  intros [o Ho] ->. pose proof (HeapFacts.fresh_new h). congruence.
Qed.

Lemma fix_effect_run old fixed target intent acc h e :
  Heap.closed old -> Heap.val_in old e ->
  repairing old fixed target intent acc h ->
  match fix_effect (Heap.view 1 old e), Heap.fix_effect (Heap.VRef fixed) e h with
  | Ok j, (Ok _, h') => repairing old fixed target intent (acc ++ [j]) h'
  | Raise x, (Raise y, _) => x = y
  | _, _ => False
  end.
Proof.
  intros Hcl He [Hb (items & Ht & Hitems)].
  destruct e as [| | | |l]; try done.
  destruct He as [o Ho].
  pose proof (lookup_weaken _ _ _ _ Ho (Heap.b_old _ _ _ _ _ Hb)) as Hh.
  destruct o as [d|vs].
  2:{ rewrite (view_list _ _ _ _ Ho).
      unfold Heap.fix_effect. erewrite bind_raise; [done|].
      apply get_other; [|by eexists]. intros ?? [= <-] ?. congruence. }
  rewrite (view_dict _ _ _ _ Ho).
  rewrite fix_effect_obj.
  rewrite (dict_get_default_map (Heap.view 0 old) "part" _ (Heap.VStr "tail")) by done.
  rewrite (dict_get_default_map (Heap.view 0 old) "mode" _ (Heap.VStr "wag")) by done.
  rewrite (dict_get_default_map (Heap.view 0 old) "hz" _ (Heap.VNum (PInt 6))) by done.
  rewrite (dict_get_default_map (Heap.view 0 old) "duty" _ (Heap.VNum (PFloat (FFin 0.5)))) by done.
  rewrite (dict_get_default_map (Heap.view 0 old) "duration_ms" _ (Heap.VNum (PInt 1500))) by done.
  assert (forall k dv, scalar dv = true ->
            Heap.view 0 h (dict_get_default k dv d) = Heap.view 0 old (dict_get_default k dv d)) as Hv.
  { intros k dv Hdv. apply HeapFacts.view_grows; [apply Hb|done|].
    by apply (field_in old l). }
  unfold Heap.fix_effect.
  erewrite bind_ok; [|by apply get_dict].
  destruct (py_in_set _ PARTS) as [kp|x] eqn:Ep; cbn [mbind result_bind].
  2:{ erewrite bind_raise; [done|]. by rewrite on_value_run, Hv, Ep. }
  erewrite bind_ok; [|by rewrite on_value_run, Hv, Ep].
  erewrite bind_ok; [|by apply get_dict].
  destruct (py_in_set _ MODES) as [km|x] eqn:Em; cbn [mbind result_bind].
  2:{ erewrite bind_raise; [done|]. by rewrite on_value_run, Hv, Em. }
  erewrite bind_ok; [|by rewrite on_value_run, Hv, Em].
  erewrite bind_ok; [|by apply get_dict].
  destruct (py_float (Heap.view 0 old (dict_get_default "hz" _ d))) as [hz|x] eqn:Ehz;
    cbn [mbind result_bind].
  2:{ erewrite bind_raise; [done|]. by rewrite on_value_run, Hv, Ehz. }
  erewrite bind_ok; [|by rewrite on_value_run, Hv, Ehz].
  erewrite bind_ok; [|by apply get_dict].
  destruct (py_float (Heap.view 0 old (dict_get_default "duty" _ d))) as [duty|x] eqn:Eduty;
    cbn [mbind result_bind].
  2:{ erewrite bind_raise; [done|]. by rewrite on_value_run, Hv, Eduty. }
  erewrite bind_ok; [|by rewrite on_value_run, Hv, Eduty].
  erewrite bind_ok; [|by apply get_dict].
  destruct (py_int _) as [dur|x] eqn:Edur; cbn [mbind result_bind].
  2:{ erewrite bind_raise; [done|]. by rewrite on_value_run, Hv, Edur. }
  erewrite bind_ok; [|by rewrite on_value_run, Hv, Edur].
  erewrite bind_ok; [|by eapply getitem_dict; [apply Hb|]].
  erewrite bind_ok; [|reflexivity].
  pose proof (fresh_ne h target ltac:(by eexists)) as Hft.
  pose proof (fresh_ne h fixed ltac:(eexists; apply Hb)) as Hff.
  set (item := fresh (dom h)) in *.
  rewrite (append_list _ _ items); [|by rewrite lookup_insert_ne].
  destruct (known_view _ _ _ "tail" _ Ep) as [Sp Vp].
  destruct (known_view _ _ _ "wag" _ Em) as [Sm Vm].
  destruct Hb as [H1 H2 H3 H4].
  assert (old !! item = None) as Hoi by by apply HeapFacts.fresh_not_in.
  split; [split|]; try done.
  - by do 2 (apply insert_subseteq_r; [done|]).
  - by rewrite !lookup_insert_ne.
  - eexists. split; [by rewrite lookup_insert_eq|].
    apply Forall2_app.
    + eapply Forall2_impl; [exact Hitems|]. cbv beta.
      intros v j (l' & d' & -> & Hne & Hl' & Hd' & ->).
      exists l', d'. repeat split; try done.
      rewrite !lookup_insert_ne; [done|..]; [|done].
      apply not_eq_sym, (fresh_ne h l'). by eexists.
    + constructor; [|constructor].
      eexists item, _. split; [done|]. split; [done|].
      split; [by rewrite lookup_insert_ne, lookup_insert_eq|].
      split; [by repeat constructor|].
      unfold flat, repaired_effect. cbn [map fst snd].
      rewrite (dict_get_default_map (Heap.view 0 old) "part" _ (Heap.VStr "tail")) by done.
      rewrite (dict_get_default_map (Heap.view 0 old) "mode" _ (Heap.VStr "wag")) by done.
      by rewrite Vp, Vm.
Qed.

Lemma for_each_run old fixed target intent es : forall acc h,
  Heap.closed old -> Forall (Heap.val_in old) es ->
  repairing old fixed target intent acc h ->
  match fix_effects (map (Heap.view 1 old) es) acc,
        Heap.for_each es (Heap.fix_effect (Heap.VRef fixed)) h with
  | Ok js, (Ok _, h') => repairing old fixed target intent js h'
  | Raise x, (Raise y, _) => x = y
  | _, _ => False
  end.
Proof.
  induction es as [|e es IH]; intros acc h Hcl Hes Hrep; [done|].
  apply Forall_cons in Hes as [He Hes].
  cbn [map fix_effects Heap.for_each].
  pose proof (fix_effect_run _ _ _ _ _ _ e Hcl He Hrep) as Hstep.
  destruct (fix_effect (Heap.view 1 old e)) as [j|x];
    destruct (Heap.fix_effect (Heap.VRef fixed) e h) as [[u|y] h1] eqn:Ef; try done;
    cbn [mbind result_bind].
  - erewrite bind_ok; [|exact Ef]. by apply IH.
  - erewrite bind_raise; [|exact Ef]. done.
Qed.

(** What the loop runs over. *)
Lemma iter_run (old h : gmap Heap.loc Heap.obj) v :
  Heap.closed old -> old ⊆ h -> Heap.val_in old v ->
  match py_iter (Heap.view 2 old v), Heap.iter v h with
  | Ok js, (Ok es, h') => h' = h /\ js = map (Heap.view 1 old) es /\ Forall (Heap.val_in old) es
  | Raise x, (Raise y, _) => x = y
  | _, _ => False
  end.
Proof.
  intros Hcl Hsub Hv. destruct v as [| | |s|l]; try done.
  - cbn. split; [done|]. split; [by rewrite map_map|]. by apply Forall_map, Forall_true.
  - destruct Hv as [o Ho]. pose proof (lookup_weaken _ _ _ _ Ho Hsub) as Hh.
    unfold Heap.iter, Heap.bind, Heap.read. rewrite Hh.
    destruct o as [d|vs].
    + rewrite (view_dict _ _ _ _ Ho). cbn. split; [done|].
      split; [by rewrite !map_map|]. by apply Forall_map, Forall_true.
    + rewrite (view_list _ _ _ _ Ho). cbn. split; [done|]. split; [done|].
      apply (Hcl l _ Ho).
Qed.

(** The document of a list of repaired effects. *)
Lemma items_view (h : gmap Heap.loc Heap.obj) target items acc :
  items_denote h target items acc -> map (Heap.view 1 h) items = acc.
Proof.
  induction 1 as [|v j items acc (l & d & -> & _ & Hl & Hd & ->) _ IH]; [done|].
  cbn [map]. rewrite IH, (view_dict _ _ _ _ Hl). f_equal. unfold flat. f_equal.
  apply map_ext_Forall. eapply Forall_impl; [exact Hd|].
  intros [k v] Hs. cbn [fst snd] in *. f_equal. by apply view_scalar.
Qed.

(** After the loop: the [return] of the repair. *)
Lemma return_run old fixed target intent js fallback (h : gmap Heap.loc Heap.obj) :
  Heap.closed old -> Heap.val_in old intent ->
  repairing old fixed target intent js h ->
  match Heap.bind (Heap.getitem (Heap.VRef fixed) "effects")
          (fun effects => Heap.bind (Heap.truthy effects)
             (fun nonempty : bool =>
                Heap.ret (if nonempty then Heap.VRef fixed else fallback))) h with
  | (Ok v, h') =>
      old ⊆ h'
      /\ if py_truthy (JArr js)
         then Heap.view 3 h' v = fixed_plan (Heap.view 2 old intent) js
         else v = fallback
  | (Raise _, _) => False
  end.
Proof.
  intros Hcl Hint [Hb (items & Ht & Hit)].
  erewrite bind_ok; [|by eapply getitem_dict; [apply Hb|]].
  erewrite bind_ok; [|reflexivity]. unfold Heap.ret.
  rewrite (view_list _ _ _ _ Ht).
  assert (py_truthy (JArr (map (Heap.view 0 h) items)) = py_truthy (JArr js)) as ->.
  { cbn. by rewrite length_map, (Forall2_length _ _ _ Hit). }
  split; [apply Hb|].
  destruct (py_truthy (JArr js)); [|done].
  rewrite (view_dict _ _ _ _ (Heap.b_fixed _ _ _ _ _ Hb)). cbn [map fst snd].
  rewrite (view_list _ _ _ _ Ht), (items_view _ _ _ _ Hit).
  rewrite (HeapFacts.view_grows old h); [done|apply Hb|done..].
Qed.

Lemma repair_run fallback plan (h : gmap Heap.loc Heap.obj) :
  Heap.closed h -> Heap.val_in h plan ->
  match repair (Heap.view 3 h plan), Heap.repair fallback plan h with
  | Ok (intent, effects), (Ok v, h') =>
      h ⊆ h'
      /\ if py_truthy (JArr effects)
         then Heap.view 3 h' v = fixed_plan intent effects
         else v = fallback
  | Raise x, (Raise y, _) => x = y
  | _, _ => False
  end.
Proof.
  intros Hcl Hplan. unfold Heap.repair, repair.
  destruct plan as [| | | |l]; try done.
  destruct Hplan as [o Ho]. destruct o as [d|vs].
  2:{ rewrite (view_list _ _ _ _ Ho). erewrite bind_raise; [done|].
      apply get_other; [|by eexists]. intros ?? [= <-] ?. congruence. }
  rewrite (view_dict _ _ _ _ Ho). cbn [py_get mbind result_bind].
  rewrite (dict_get_default_map (Heap.view 2 h) "intent" _ (Heap.VStr "EMOTE_OR_ACTION")) by done.
  erewrite bind_ok; [|by apply get_dict].
  set (intent := dict_get_default "intent" _ d).
  assert (Heap.val_in h intent) as Hint by by apply (field_in h l).
  erewrite bind_ok; [|reflexivity]. set (target := fresh (dom h)).
  set (h1 := <[target := _]> h).
  erewrite bind_ok; [|reflexivity]. set (fixed := fresh (dom h1)).
  set (h2 := <[fixed := _]> h1).
  erewrite bind_ok; [|reflexivity]. set (default := fresh (dom h2)).
  set (h3 := <[default := _]> h2).
  assert (h1 !! target = Some (Heap.OList [])) as Ht1 by apply lookup_insert_eq.
  assert (fixed <> target) as Hft.
  { apply not_eq_sym, (fresh_ne h1 target). by eexists. }
  assert (h2 !! target = Some (Heap.OList [])) as Ht2 by by (unfold h2; rewrite lookup_insert_ne).
  assert (h2 !! fixed = Some (Heap.ODict [("intent", intent); ("effects", Heap.VRef target)]))
    as Hf2 by apply lookup_insert_eq.
  assert (default <> target) as Hdt.
  { apply not_eq_sym, (fresh_ne h2 target). by eexists. }
  assert (default <> fixed) as Hdf.
  { apply not_eq_sym, (fresh_ne h2 fixed). by eexists. }
  assert (h ⊆ h1) as S1 by (apply insert_subseteq, HeapFacts.fresh_new).
  assert (h1 ⊆ h2) as S2 by (apply insert_subseteq, HeapFacts.fresh_new).
  assert (h2 ⊆ h3) as S3 by (apply insert_subseteq, HeapFacts.fresh_new).
  assert (h ⊆ h3) as Hsub by (by do 2 (etrans; [|done])).
  assert (repairing h fixed target intent [] h3) as Hrep.
  { split; [split|]; try done.
    - apply HeapFacts.fresh_new.
    - by apply (lookup_weaken h2).
    - exists []. split; [by apply (lookup_weaken h2)|constructor]. }
  erewrite bind_ok; [|apply get_dict; by apply (lookup_weaken h)].
  assert (match py_iter (dict_get_default "effects" (JArr [])
                   (map (fun kv => (fst kv, Heap.view 2 h (snd kv))) d)),
                Heap.iter (dict_get_default "effects" (Heap.VRef default) d) h3 with
          | Ok js, (Ok es, h') =>
              h' = h3 /\ js = map (Heap.view 1 h) es /\ Forall (Heap.val_in h) es
          | Raise x, (Raise y, _) => x = y
          | _, _ => False
          end) as Hiter.
  { unfold dict_get_default. rewrite dict_get_map.
    destruct (dict_get "effects" d) as [v|] eqn:E; cbn [fmap option_fmap option_map].
    - apply iter_run; try done. apply (field_in h l d "effects" Heap.VNone) in Ho; try done.
      unfold dict_get_default in Ho. by rewrite E in Ho.
    - assert (h3 !! default = Some (Heap.OList [])) as Hd3 by apply lookup_insert_eq.
      unfold Heap.iter, Heap.bind, Heap.read. rewrite Hd3. by cbn. }
  destruct (py_iter _) as [js|x];
    destruct (Heap.iter _ h3) as [[es|y] h'] eqn:Ei; try done; cbn [mbind result_bind].
  2:{ erewrite bind_raise; [|exact Ei]. done. }
  destruct Hiter as (-> & -> & Hes).
  erewrite bind_ok; [|exact Ei].
  pose proof (for_each_run _ _ _ _ es [] h3 Hcl Hes Hrep) as Hloop.
  destruct (fix_effects _ []) as [effects|x];
    destruct (Heap.for_each es _ h3) as [[u|y] h4] eqn:El; try done; cbn [mbind result_bind].
  2:{ erewrite bind_raise; [|exact El]. done. }
  erewrite bind_ok; [|exact El].
  apply (return_run h fixed target intent effects fallback h4 Hcl Hint Hloop).
Qed.

(** The validator on the store, run on a plan of a store without dangling
    references, returns a value that denotes what the validator on
    documents returns for the document of the plan, and raises what it
    raises. *)
Theorem validate_or_fix_on_store fallback plan (h : gmap Heap.loc Heap.obj) :
  Heap.closed h -> Heap.val_in h plan -> Heap.val_in h fallback ->
  Heap.view 3 h fallback = FALLBACK_PLAN ->
  match Bridge.validate_or_fix (Heap.view 3 h plan), Heap.validate_or_fix fallback plan h with
  | Ok j, (Ok v, h') => Heap.view 3 h' v = j
  | Raise x, (Raise y, _) => x = y
  | _, _ => False
  end.
Proof.
  intros Hcl Hplan Hfb Hfall.
  unfold Bridge.validate_or_fix, Heap.validate_or_fix, Heap.validate, Heap.schema_depth, try_except.
  destruct (validate (Heap.view 3 h plan) BRUNO_SCHEMA) as [u|x]; cbn [mbind result_bind];
    [done|].
  pose proof (repair_run fallback plan h Hcl Hplan) as Hrun.
  destruct (repair _) as [[intent effects]|x'];
    destruct (Heap.repair fallback plan h) as [[v|y] h'] eqn:Er; try done;
    cbn [mbind result_bind].
  destruct Hrun as [Hsub Hres].
  destruct (py_truthy (JArr effects)); [done|]. subst v.
  rewrite (HeapFacts.view_grows h h'); done.
Qed.

Lemma sample_store_closed : Heap.closed sample_store.
Proof.
  intros l o. unfold sample_store.
  rewrite !lookup_insert_Some, lookup_empty.
  intros [[<- <-]|[_ [[<- <-]|[_ [[<- <-]|[_ [[<- <-]|[_ [[<- <-]|[_ [[<- <-]|[_ ?]]]]]]]]]]]];
    [..|done]; cbn; repeat constructor; cbn; by eexists.
Qed.

(** On the sample store the two validators agree: both repair the plan. *)
Lemma validate_or_fix_on_sample_store :
  let r := Heap.validate_or_fix (Heap.VRef 4%positive) (Heap.VRef 1%positive) sample_store in
  Ok (Heap.view 3 (snd r) (Heap.VRef 8%positive))
  = Bridge.validate_or_fix (Heap.view 3 sample_store (Heap.VRef 1%positive))
  /\ fst r = Ok (Heap.VRef 8%positive).
Proof.
  cbn zeta.
  pose proof (validate_or_fix_on_store (Heap.VRef 4%positive) (Heap.VRef 1%positive)
                sample_store sample_store_closed ltac:(by eexists) ltac:(by eexists)
                eq_refl) as H.
  assert (fst (Heap.validate_or_fix (Heap.VRef 4%positive) (Heap.VRef 1%positive) sample_store)
          = Ok (Heap.VRef 8%positive)) as E by (vm_compute; reflexivity).
  destruct (Heap.validate_or_fix _ _ sample_store) as [r h']. cbn [fst snd] in *. subst r.
  destruct (Bridge.validate_or_fix _) as [j|x]; [|done]. by rewrite H.
Defined.

End HeapRefinement.

(** * More of the pipeline *)

(** ** The validators on plans that are no objects, and on what they return *)





(** ** What the repair makes of a plan *)

(** On the repair path with something to repair, the bridge returns an
    object of the two keys [intent] and [effects]: the intent is the one
    handed in, whatever it is (["EMOTE_OR_ACTION"] if there is none), and
    there is one effect for each item of the input, in the same order, each
    with the five keys [part], [mode], [hz], [duty], [duration_ms]. *)
Theorem repair_one_for_one (plan out : json) (es : list json) :
  conforms BRUNO_SCHEMA plan = false ->
  Bridge.validate_or_fix plan = Ok out ->
  loop_items plan = Ok es -> es <> [] ->
  exists d effects,
    plan = JObj d
    /\ out = JObj [ ("intent", dict_get_default "intent" (JStr "EMOTE_OR_ACTION") d);
                    ("effects", JArr effects) ]
    /\ length effects = length es
    /\ (forall i e e', es !! i = Some e -> effects !! i = Some e' ->
          fix_effect e = Ok e' /\ keys e' = EFFECT_KEYS).
Proof.
  intros Hc Hv Hes Hne. rewrite validate_fix in Hv by done.
  destruct (repair plan) as [[intent effects]|] eqn:Hr; [|discriminate].
  cbn [mbind result_bind] in Hv.
  apply repair_inv in Hr as (d & es' & -> & -> & Hes' & HF).
  rewrite Hes in Hes'. injection Hes' as <-.
  exists d, effects. split; [done|].
  assert (py_truthy (JArr effects) = true) as Ht.
  { apply Forall2_length in HF. destruct es, effects; done. }
  rewrite Ht in Hv. injection Hv as <-.
  split; [done|]. split; [symmetry; by eapply Forall2_length|].
  intros i e e' Hi Hi'. pose proof (Forall2_lookup_lr _ _ _ _ _ _ HF Hi Hi') as He.
  split; [done|].
  by apply fix_effect_inv in He as (? & ? & ? & ? & _ & _ & _ & _ & ->).
Qed.

Lemma repair_one_for_one_witness :
  exists out effects,
    Bridge.validate_or_fix sample_plan = Ok out
    /\ out = JObj [ ("intent", JStr "X"); ("effects", JArr effects) ]
    /\ length effects = 1%nat.
Proof.
  destruct (Bridge.validate_or_fix sample_plan) as [out|] eqn:Hv; [|by vm_compute in Hv].
  destruct (repair_one_for_one sample_plan out
              [ JObj [ ("part", JStr "nose"); ("mode", JStr "spin"); ("hz", JInt 999) ] ])
    as (d & effects & Hd & -> & Hl & _); [reflexivity|exact Hv|reflexivity|discriminate|].
  injection Hd as <-. eexists _, effects.
  split; [reflexivity|]. split; [reflexivity|exact Hl].
Defined.

(** ** When the bridge's answer passes the schema *)

(** A repaired effect passes the schema of an effect. *)
Lemma repaired_effect_conforms d hz duty dur :
  conforms EFFECT_SCHEMA (repaired_effect d hz duty dur) = true.
Proof.
  unfold EFFECT_SCHEMA, repaired_effect.
  cbn [conforms opt_ok type_ok required_ok properties_ok additional_ok forallb fst snd
       dict_has dict_get String.eqb Ascii.eqb Bool.eqb orb andb].
  rewrite !conforms_leaf. cbn [opt_ok type_ok enum_ok minimum_ok maximum_ok andb].
  rewrite !known_or_in by reflexivity.
  destruct (within_ltb _ _ _ (clamp_within (PFloat (FFin 0.1)) (PInt 30) (PFloat hz) 0.1 30
                               eq_refl eq_refl ltac:(done))) as [-> ->].
  destruct (within_ltb _ _ _ (clamp_within (PFloat (FFin 0.0)) (PFloat (FFin 1.0)) (PFloat duty)
                               0.0 1.0 eq_refl eq_refl ltac:(done))) as [-> ->].
  destruct (within_ltb _ _ _ (clamp_within (PInt 50) (PInt 60000) (PInt dur) 50 60000
                               eq_refl eq_refl ltac:(done))) as [-> ->].
  destruct (clamp_int 50 60000 dur) as [z ->]. reflexivity.
Qed.

Lemma repaired_effects_conform es effects :
  Forall2 (fun e e' => fix_effect e = Ok e') es effects ->
  forallb (conforms EFFECT_SCHEMA) effects = true.
Proof.
  induction 1 as [|e e' es effects He _ IH]; [done|].
  cbn [forallb]. rewrite IH, andb_true_r.
  apply fix_effect_inv in He as (d & hz & duty & dur & _ & _ & _ & _ & ->).
  apply repaired_effect_conforms.
Qed.

(** What the schema asks of a plan made of an intent and a list of
    effects. *)
Lemma conforms_fixed_plan intent effects :
  conforms BRUNO_SCHEMA (fixed_plan intent effects)
  = type_ok TString intent
    && (Nat.leb 1 (length effects) && Nat.leb (length effects) 5
        && forallb (conforms EFFECT_SCHEMA) effects).
Proof.
  unfold BRUNO_SCHEMA, fixed_plan.
  cbn [conforms opt_ok type_ok required_ok properties_ok additional_ok forallb fst snd
       dict_has dict_get String.eqb Ascii.eqb Bool.eqb orb andb].
  rewrite conforms_leaf. cbn [opt_ok]. unfold EFFECTS_SCHEMA.
  cbn [conforms opt_ok type_ok required_ok properties_ok additional_ok forallb
       minItems_ok maxItems_ok items_ok orb andb].
  rewrite !andb_true_r. reflexivity.
Qed.

Lemma conforms_plan_intent d :
  conforms BRUNO_SCHEMA (JObj d) = true -> exists s, dict_get "intent" d = Some (JStr s).
Proof.
  unfold BRUNO_SCHEMA.
  cbn [conforms opt_ok type_ok required_ok properties_ok forallb fst snd].
  rewrite !andb_true_iff. unfold dict_has. intros H. destruct_and!.
  destruct (dict_get "intent" d) as [x|]; [|discriminate].
  rewrite conforms_leaf in *. destruct x; try discriminate. eauto.
Qed.

(** Whatever the bridge's validator returns is an object with a list under
    [effects]; it passes the schema exactly when its intent is a text and
    its effects are five at most.  (The repair copies the intent as it is
    and repairs every item.) *)
Theorem bridge_result_conforms_iff (p out : json) :
  Bridge.validate_or_fix p = Ok out ->
  exists d es,
    out = JObj d /\ dict_get "effects" d = Some (JArr es)
    /\ (conforms BRUNO_SCHEMA out = true
        <-> (exists s, dict_get "intent" d = Some (JStr s)) /\ (length es <= 5)%nat).
Proof.
  intros Hv. destruct (conforms BRUNO_SCHEMA p) eqn:Hc.
  - rewrite validate_ok in Hv by done. injection Hv as <-.
    destruct (conforms_plan_obj p Hc) as (d & es & -> & He & [_ Hl] & _).
    exists d, es. split; [done|]. split; [done|]. split; [|done].
    intros _. split; [by apply conforms_plan_intent|done].
  - rewrite validate_fix in Hv by done.
    destruct (repair p) as [[intent effects]|] eqn:Hr; [|discriminate].
    cbn [mbind result_bind] in Hv.
    apply repair_inv in Hr as (d & es & -> & _ & _ & HF).
    destruct effects as [|e effects]; cbn [py_truthy length Nat.eqb negb] in Hv;
      injection Hv as <-.
    + eexists _, _. split; [reflexivity|]. split; [reflexivity|].
      split; [intros _|intros _; apply fallback_conforms].
      split; [by eexists|cbn; lia].
    + eexists _, _. split; [reflexivity|]. split; [reflexivity|].
      rewrite conforms_fixed_plan, (repaired_effects_conform _ _ HF), andb_true_r.
      change (Nat.leb 1 (length (e :: effects))) with true.
      cbn [dict_get String.eqb Ascii.eqb Bool.eqb andb].
      rewrite andb_true_iff, Nat.leb_le. split.
      * intros [Hi Hl]. split; [|done].
        destruct intent; try discriminate. by eexists.
      * intros [[s Hs] Hl]. injection Hs as ->. done.
Qed.

Lemma bridge_result_conforms_iff_witness :
  exists es,
    Bridge.validate_or_fix
      (JObj [ ("intent", JStr "X"); ("effects", JArr [wag; wag; wag; wag; wag; wag]) ])
    = Ok (JObj [ ("intent", JStr "X"); ("effects", JArr es) ])
    /\ conforms BRUNO_SCHEMA (JObj [ ("intent", JStr "X"); ("effects", JArr es) ]) = false.
Proof.
  set (p := JObj [ ("intent", JStr "X"); ("effects", JArr [wag; wag; wag; wag; wag; wag]) ]).
  destruct (Bridge.validate_or_fix p) as [out|] eqn:Hv; [|by vm_compute in Hv].
  destruct (bridge_result_conforms_iff p out Hv) as (d & es & -> & He & Hiff).
  vm_compute in Hv. injection Hv as <-. injection He as <-.
  eexists. split; [reflexivity|].
  apply not_true_is_false. intros E.
  apply Hiff in E as [_ Hl]. cbn in Hl. lia.
Defined.

(** ** The three validators side by side *)




(** The large-model Vosk script returns what the bridge returns unless the
    repair leaves no effect: there the bridge returns the fallback plan and
    this script the repaired plan with its empty list.  On the repair path
    it never returns the fallback plan. *)
Theorem big_loop_never_falls_back (p : json) :
  (BigLoop.validate_or_fix p = Bridge.validate_or_fix p
   \/ exists intent,
        repair p = Ok (intent, [])
        /\ BigLoop.validate_or_fix p = Ok (fixed_plan intent [])
        /\ Bridge.validate_or_fix p = Ok FALLBACK_PLAN)
  /\ (conforms BRUNO_SCHEMA p = false -> BigLoop.validate_or_fix p <> Ok FALLBACK_PLAN).
Proof.
  unfold BigLoop.validate_or_fix, Bridge.validate_or_fix, validate.
  destruct (conforms BRUNO_SCHEMA p) eqn:Hc; cbn [mbind result_bind try_except].
  - split; [by left|done].
  - destruct (repair p) as [[intent effects]|] eqn:Hr; cbn [mbind result_bind].
    2:{ split; [by left|done]. }
    split.
    + destruct effects as [|e effects]; [right; by exists intent|by left].
    + intros _. cbn [fixed_plan py_truthy length Nat.eqb negb]. unfold FALLBACK_PLAN.
      intros [= _ H].
      apply repair_inv in Hr as (d & es & _ & _ & _ & HF). rewrite H in HF.
      apply Forall2_cons_inv_r in HF as (e & es' & He & _ & _).
      apply fix_effect_inv in He as (? & ? & ? & ? & _ & _ & _ & _ & He). discriminate He.
Qed.

(** Validating twice in the large-model Vosk script gives what validating
    once gives (up to an [int] read back as the [float] of the same
    value), also for the plans it returns with no effects. *)
Theorem big_loop_idempotent (p : json) :
  same_outcome (BigLoop.validate_or_fix p ≫= BigLoop.validate_or_fix)
               (BigLoop.validate_or_fix p).
Proof.
  unfold BigLoop.validate_or_fix at 2 3, validate.
  destruct (conforms BRUNO_SCHEMA p) eqn:Hc; cbn [mbind result_bind try_except].
  - unfold BigLoop.validate_or_fix, validate. rewrite Hc. cbn [mbind result_bind try_except].
    constructor.
  - destruct (repair p) as [[intent effects]|] eqn:Hr; cbn [mbind result_bind]; [|done].
    change (py_truthy (fixed_plan intent effects)) with true. cbv iota.
    apply repair_inv in Hr as (d & es & _ & _ & _ & HF).
    destruct (fix_all_again _ _ HF) as (effects' & H1 & H2).
    unfold BigLoop.validate_or_fix, validate.
    destruct (conforms BRUNO_SCHEMA (fixed_plan intent effects));
      cbn [mbind result_bind try_except]; [constructor|].
    assert (repair (fixed_plan intent effects) = Ok (intent, effects')) as ->.
    { unfold fixed_plan. by rewrite (repair_intro _ effects effects'). }
    cbn [mbind result_bind].
    change (py_truthy (fixed_plan intent effects')) with true. cbv iota.
    apply eqv_obj.
    constructor; [split; [done|apply eqv_same]|].
    constructor; [split; [done|by apply eqv_arr]|constructor].
Qed.

(** ** The keys of a plan that passes *)

Lemma known_keys {S : Type} (props : list (string * S)) d :
  forallb (fun kv : string * json => dict_has (fst kv) props) d = true ->
  Forall (fun k => In k (map fst props)) (map fst d).
Proof.
  rewrite forallb_forall, Forall_forall. intros H k Hk.
  apply list_elem_of_In, in_map_iff in Hk as ([k' v] & <- & Hin).
  specialize (H _ Hin). cbn [fst] in *. unfold dict_has in H.
  destruct (dict_get k' props) as [s|] eqn:E; [|discriminate].
  clear -E. induction props as [|[k2 s2] props IH]; [done|]. cbn in E |- *.
  destruct (String.eqb_spec k' k2); [by left|right; auto].
Qed.

(** A plan that passes the schema has no key but [intent] and [effects],
    and each of its effects none but [part], [mode], [hz], [duty] and
    [duration_ms]: the schema closes both objects. *)
Theorem conforming_plan_keys (p : json) :
  conforms BRUNO_SCHEMA p = true ->
  exists d es,
    p = JObj d /\ dict_get "effects" d = Some (JArr es)
    /\ Forall (fun k => In k ["intent"; "effects"]) (keys p)
    /\ Forall (fun e => Forall (fun k => In k EFFECT_KEYS) (keys e)) es.
Proof.
  intros Hc. destruct (conforms_plan_obj p Hc) as (d & es & -> & He & _ & Hes).
  exists d, es. split; [done|]. split; [done|]. split.
  - revert Hc. unfold BRUNO_SCHEMA.
    cbn [conforms opt_ok type_ok required_ok properties_ok additional_ok forallb fst snd orb].
    rewrite !andb_true_iff. intros H. destruct_and!.
    match goal with
    | H : forallb (fun kv => dict_has (fst kv) ?props) _ = true |- _ =>
        exact (known_keys props _ H)
    end.
  - rewrite forallb_forall in Hes. apply Forall_forall. intros e Hin%list_elem_of_In.
    specialize (Hes e Hin). destruct e as [| | | | |fields]; try by constructor.
    revert Hes. unfold EFFECT_SCHEMA.
    cbn [conforms opt_ok type_ok required_ok properties_ok additional_ok forallb fst snd orb].
    rewrite !andb_true_iff. intros H. destruct_and!.
    match goal with
    | H : forallb (fun kv => dict_has (fst kv) ?props) _ = true |- _ =>
        exact (known_keys props _ H)
    end.
Qed.

Lemma conforming_plan_keys_witness :
  Forall (fun k => In k ["intent"; "effects"]) (keys FALLBACK_PLAN).
Proof.
  destruct (conforming_plan_keys FALLBACK_PLAN) as (d & es & _ & _ & H & _);
    [vm_compute; reflexivity|exact H].
Defined.

(** ** The planning step on a reply it cannot read *)



(** ** Wake words *)

Lemma prefix_inv w : forall t, String.prefix w t = true -> exists b, t = w ++ b.
Proof.
  induction w as [|c w IH]; intros t; [by exists t|].
  destruct t as [|c' t]; [done|]. cbn [String.prefix].
  destruct (ascii_dec c c') as [<-|]; [|done].
  intros [b ->]%IH. by exists b.
Qed.

Lemma str_contains_head w b : str_contains w (w ++ b) = true.
Proof.
  destruct (w ++ b) as [|c t] eqn:E; cbn [str_contains]; rewrite <- E, prefix_app; done.
Qed.

Lemma str_contains_skip w u : forall s,
  str_contains w s = true -> str_contains w (u ++ s) = true.
Proof.
  induction u as [|c u IH]; intros s H; [done|].
  change (String c u ++ s) with (String c (u ++ s)). cbn [str_contains].
  rewrite (IH s H). apply orb_true_r.
Qed.

Lemma append_assoc' (u w b : string) : (u ++ w) ++ b = u ++ (w ++ b).
Proof.
  induction u as [|c u IH]; [done|].
  change ((String c u ++ w) ++ b) with (String c ((u ++ w) ++ b)). by rewrite IH.
Qed.

(** A text that holds a phrase holds each end of the phrase. *)
Lemma str_contains_tail u w : forall t,
  str_contains (u ++ w) t = true -> str_contains w t = true.
Proof.
  assert (forall t, String.prefix (u ++ w) t = true -> str_contains w t = true) as Hp.
  { intros t [b ->]%prefix_inv. rewrite append_assoc'.
    apply str_contains_skip, str_contains_head. }
  induction t as [|c t IH]; cbn [str_contains].
  - rewrite orb_false_r. apply Hp.
  - intros [H|H]%orb_true_iff.
    + apply Hp in H. exact H.
    + rewrite (IH H). apply orb_true_r.
Qed.

Lemma bruno_subsumes (t : string) :
  str_contains "bruno" t = false ->
  str_contains "hey bruno" t = false /\ str_contains "hi bruno" t = false
  /\ str_contains "okay bruno" t = false.
Proof.
  intros H.
  repeat split; apply not_true_is_false; intros H'.
  - apply (str_contains_tail "hey " "bruno") in H'. congruence.
  - apply (str_contains_tail "hi " "bruno") in H'. congruence.
  - apply (str_contains_tail "okay " "bruno") in H'. congruence.
Qed.

(** Of the wake words only ["bruno"], ["tommy"] and ["charlie"] count: a
    text holds one of the six exactly when it holds one of these three (in
    the large-model Vosk script, with its four wake words, when it holds
    ["bruno"]).  The Whisper script asks for one of the three long phrases,
    and what it takes for a wake the bridge takes for one too. *)
Theorem wake_words_three (text : string) :
  Bridge.contains_wake text
  = (str_contains "bruno" (lower text) || str_contains "tommy" (lower text)
     || str_contains "charlie" (lower text))
  /\ WakeLoopVosk.any_wake text
     = (str_contains "bruno" text || str_contains "tommy" text || str_contains "charlie" text)
  /\ BigLoop.any_wake text = str_contains "bruno" text
  /\ (Whisper.looks_like_wake text = true -> Bridge.contains_wake text = true).
Proof.
  assert (forall t,
            existsb (fun w => str_contains w t) Bridge.WAKE_WORDS
            = (str_contains "bruno" t || str_contains "tommy" t || str_contains "charlie" t))
    as Hsix.
  { intros t. unfold Bridge.WAKE_WORDS. cbn [existsb].
    destruct (str_contains "bruno" t) eqn:Hb.
    - rewrite !orb_true_r. by rewrite !orb_true_l.
    - destruct (bruno_subsumes t Hb) as (-> & -> & ->). cbn [orb].
      by rewrite !orb_false_r. }
  split; [apply Hsix|]. split; [apply Hsix|]. split.
  - unfold BigLoop.any_wake, BigLoop.WAKE_WORDS. cbn [existsb].
    destruct (str_contains "bruno" text) eqn:Hb.
    + by rewrite !orb_true_r.
    + by destruct (bruno_subsumes text Hb) as (-> & -> & ->).
  - unfold Whisper.looks_like_wake, Bridge.contains_wake, Whisper.WAKE_WORDS,
      Bridge.WAKE_WORDS. cbn [existsb]. rewrite !orb_true_iff. tauto.
Qed.

(** ** What [strip_wake] takes away *)

Lemma py_remove_absent w t : str_contains w t = false -> py_remove w t = t.
Proof.
  intros H. unfold py_remove. destruct (String.eqb w ""); [done|].
  by apply remove_scan_absent.
Qed.

Lemma remove_all_absent words : forall t,
  existsb (fun w => str_contains w t) words = false ->
  fold_left (fun t w => py_remove w t) words t = t.
Proof.
  induction words as [|w words IH]; intros t; [done|]. cbn [existsb fold_left].
  intros [Hw Hws]%orb_false_iff. rewrite (py_remove_absent w t Hw). by apply IH.
Qed.

(** A text that holds no wake word comes out of [strip_wake] with nothing
    taken from it but the blanks and the marks [,.?!] at its two ends (and,
    in the bridge and the Whisper script, its capitals). *)
Theorem strip_wake_without_wake (text : string) :
  (Bridge.contains_wake text = false ->
   Bridge.strip_wake text = py_strip " ,.?!" (lower text))
  /\ (WakeLoopVosk.any_wake text = false ->
      WakeLoopVosk.strip_wake text = py_strip " ,.?!" text)
  /\ (BigLoop.any_wake text = false ->
      BigLoop.strip_wake text = py_strip " ,.?!" text)
  /\ (Whisper.looks_like_wake text = false ->
      Whisper.strip_wake text = py_strip " ,.?!" (lower text)).
Proof.
  unfold Bridge.contains_wake, Bridge.strip_wake, WakeLoopVosk.any_wake,
    WakeLoopVosk.strip_wake, BigLoop.any_wake, BigLoop.strip_wake,
    Whisper.looks_like_wake, Whisper.strip_wake.
  repeat split; intros H; by rewrite remove_all_absent.
Qed.

Lemma strip_wake_without_wake_witness :
  Bridge.strip_wake "Wag your tail, please!" = "wag your tail, please"
  /\ WakeLoopVosk.strip_wake "wag your tail!" = "wag your tail".
Proof.
  split.
  - rewrite (proj1 (strip_wake_without_wake "Wag your tail, please!")); reflexivity.
  - destruct (strip_wake_without_wake "wag your tail!") as (_ & H & _).
    rewrite H; reflexivity.
Defined.

Lemma remove_scan_sublist w : forall t k,
  list_ascii_of_string (remove_scan w k t) `sublist_of` list_ascii_of_string t.
Proof.
  induction t as [|c t IH]; intros k; cbn [remove_scan list_ascii_of_string]; [done|].
  destruct k as [|k]; [|by apply sublist_cons].
  destruct (String.prefix w (String c t)); [by apply sublist_cons|].
  cbn [list_ascii_of_string]. by apply sublist_skip.
Qed.

Lemma py_remove_sublist w t :
  list_ascii_of_string (py_remove w t) `sublist_of` list_ascii_of_string t.
Proof.
  unfold py_remove. destruct (String.eqb w ""); [done|]. apply remove_scan_sublist.
Qed.

Lemma remove_all_sublist words : forall t,
  list_ascii_of_string (fold_left (fun t w => py_remove w t) words t)
  `sublist_of` list_ascii_of_string t.
Proof.
  induction words as [|w words IH]; intros t; [done|]. cbn [fold_left].
  etrans; [apply IH|apply py_remove_sublist].
Qed.

Lemma lstrip_chars_sublist chars l : lstrip_chars chars l `sublist_of` l.
Proof.
  destruct (lstrip_chars_suffix chars l) as [pre Hpre].
  rewrite Hpre at 2. by apply sublist_inserts_l.
Qed.

Lemma py_strip_sublist chars t :
  list_ascii_of_string (py_strip chars t) `sublist_of` list_ascii_of_string t.
Proof.
  unfold py_strip. rewrite list_ascii_of_string_of_list_ascii.
  set (cs := list_ascii_of_string chars).
  etrans; [|apply (lstrip_chars_sublist cs)].
  set (l := lstrip_chars cs (list_ascii_of_string t)).
  destruct (lstrip_chars_suffix cs (rev l)) as [pre Hpre].
  assert (l = (rev (lstrip_chars cs (rev l)) ++ rev pre)%list) as Hl.
  { rewrite <- rev_app_distr, <- Hpre. by rewrite rev_involutive. }
  rewrite Hl at 2. by apply sublist_inserts_r.
Qed.

Lemma string_length_list t : String.length t = length (list_ascii_of_string t).
Proof. induction t as [|c t IH]; cbn; [done|by rewrite IH]. Qed.

(** [strip_wake] only takes characters away: what it returns is made of
    characters of the text handed in (of the lower-cased text, in the
    bridge and the Whisper script), in their order, and is no longer than
    that text. *)
Theorem strip_wake_takes_away (text : string) :
  list_ascii_of_string (Bridge.strip_wake text) `sublist_of` list_ascii_of_string (lower text)
  /\ list_ascii_of_string (WakeLoopVosk.strip_wake text) `sublist_of` list_ascii_of_string text
  /\ list_ascii_of_string (BigLoop.strip_wake text) `sublist_of` list_ascii_of_string text
  /\ list_ascii_of_string (Whisper.strip_wake text) `sublist_of` list_ascii_of_string (lower text)
  /\ (String.length (Bridge.strip_wake text) <= String.length (lower text))%nat
  /\ (String.length (WakeLoopVosk.strip_wake text) <= String.length text)%nat
  /\ (String.length (BigLoop.strip_wake text) <= String.length text)%nat
  /\ (String.length (Whisper.strip_wake text) <= String.length (lower text))%nat.
Proof.
  assert (forall words t,
            list_ascii_of_string (py_strip " ,.?!" (fold_left (fun t w => py_remove w t) words t))
            `sublist_of` list_ascii_of_string t) as H.
  { intros words t. etrans; [apply py_strip_sublist|apply remove_all_sublist]. }
  repeat split; try apply H; rewrite !string_length_list; apply sublist_length, H.
Qed.

(** ** What [strip_wake] removes *)

Lemma string_length_app (a b : string) :
  String.length (a ++ b) = (String.length a + String.length b)%nat.
Proof.
  induction a as [|c a IH]; [done|].
  change (S (String.length (a ++ b)) = S (String.length a + String.length b)).
  by rewrite IH.
Qed.

Lemma no_start_nil w rest : no_start w "" rest.
Proof. intros a1 c a2 H. destruct a1; discriminate. Qed.

Lemma no_start_cons w c a rest :
  String.prefix w (String c a ++ rest) = false -> no_start w a rest ->
  no_start w (String c a) rest.
Proof.
  intros Hp Ha a1 c' a2 E. destruct a1 as [|c1 a1].
  - cbn in E. injection E as <- <-. exact Hp.
  - cbn in E. injection E as _ E. by apply (Ha a1 c' a2).
Qed.

Lemma no_start_inv w c a rest :
  no_start w (String c a) rest ->
  String.prefix w (String c a ++ rest) = false /\ no_start w a rest.
Proof.
  intros H. split.
  - by apply (H "" c a).
  - intros a1 c' a2 E. apply (H (String c a1) c' a2). cbn. by rewrite E.
Qed.

(** A text that holds [w] splits at the first occurrence. *)
Lemma first_occurrence w : forall t,
  str_contains w t = true -> exists a b, t = a ++ w ++ b /\ no_start w a (w ++ b).
Proof.
  induction t as [|c t IH]; cbn [str_contains].
  - rewrite orb_false_r. intros [b ->]%prefix_inv.
    exists "", b. split; [done|apply no_start_nil].
  - destruct (String.prefix w (String c t)) eqn:Hp.
    + intros _. apply prefix_inv in Hp as [b Hb].
      exists "", b. rewrite Hb. split; [done|apply no_start_nil].
    + cbn [orb]. intros (a & b & -> & Ha)%IH.
      exists (String c a), b. split; [done|]. by apply no_start_cons.
Qed.

(** [replace(w, "")] keeps what stands before the first occurrence, drops
    the occurrence and goes on behind it. *)
Lemma py_remove_first w a b :
  w <> "" -> no_start w a (w ++ b) -> py_remove w (a ++ w ++ b) = a ++ py_remove w b.
Proof.
  intros Hw. induction a as [|c a IH]; intros Ha.
  - change (py_remove w (w ++ b) = py_remove w b). by apply py_remove_head.
  - apply no_start_inv in Ha as [Hp Ha]. specialize (IH Ha).
    unfold py_remove in *. destruct (String.eqb_spec w ""); [done|].
    change (String c a ++ w ++ b) with (String c (a ++ w ++ b)) in *.
    cbn [remove_scan]. rewrite Hp. by rewrite IH.
Qed.

Lemma py_remove_removed w : w <> "" -> forall t, removed w t (py_remove w t).
Proof.
  intros Hw t. remember (String.length t) as n eqn:Hn. revert t Hn.
  induction n as [n IH] using lt_wf_ind. intros t ->.
  destruct (str_contains w t) eqn:Hc.
  - apply first_occurrence in Hc as (a & b & -> & Ha).
    rewrite py_remove_first by done. apply removed_first; [done|].
    apply (IH (String.length b)); [|done].
    rewrite !string_length_app. destruct w; [done|]. cbn. lia.
  - rewrite py_remove_absent by done. by apply removed_none.
Qed.

Lemma removed_unique w t r : w <> "" -> removed w t r -> r = py_remove w t.
Proof.
  intros Hw. induction 1 as [t H|a b r Ha _ IH].
  - by rewrite py_remove_absent.
  - by rewrite py_remove_first, IH.
Qed.

Lemma remove_all_removed ws :
  Forall (fun w => w <> "") ws ->
  forall t, removed_all ws t (fold_left (fun t w => py_remove w t) ws t).
Proof.
  induction 1 as [|w ws Hw _ IH]; intros t; cbn [fold_left]; [constructor|].
  econstructor; [by apply py_remove_removed|apply IH].
Qed.

Lemma removed_all_unique ws :
  Forall (fun w => w <> "") ws ->
  forall t r, removed_all ws t r -> r = fold_left (fun t w => py_remove w t) ws t.
Proof.
  induction 1 as [|w ws Hw _ IH]; intros t r H; inversion H as [|? ? ? t' ? H1 H2]; subst;
    cbn [fold_left]; [done|].
  apply removed_unique in H1; [|done]. subst t'. by apply IH.
Qed.

Lemma among_iff cs c : existsb (Ascii.eqb c) cs = true <-> In c cs.
Proof.
  rewrite existsb_exists. split.
  - by intros (x & Hx & ->%Ascii.eqb_eq).
  - intros H. exists c. split; [done|apply Ascii.eqb_refl].
Qed.

Lemma lstrip_chars_split cs l :
  exists pre, l = (pre ++ lstrip_chars cs l)%list /\ Forall (fun c => In c cs) pre.
Proof.
  induction l as [|c l (pre & IH & Hpre)]; [by exists []|]. cbn [lstrip_chars].
  destruct (existsb (Ascii.eqb c) cs) eqn:E.
  - exists (c :: pre). split; [cbn; by rewrite <- IH|].
    constructor; [by apply among_iff|done].
  - by exists [].
Qed.

Lemma lstrip_chars_among cs a l :
  Forall (fun c => In c cs) a -> lstrip_chars cs (a ++ l) = lstrip_chars cs l.
Proof.
  induction 1 as [|c a Hc _ IH]; [done|]. cbn [app lstrip_chars].
  apply among_iff in Hc. by rewrite Hc.
Qed.

Lemma lstrip_chars_keep cs l : starts_with_any cs l = false -> lstrip_chars cs l = l.
Proof. destruct l as [|c l]; [done|]. cbn. by intros ->. Qed.

Lemma py_strip_stripped chars t : stripped chars t (py_strip chars t).
Proof.
  unfold stripped, py_strip. rewrite list_ascii_of_string_of_list_ascii.
  set (cs := list_ascii_of_string chars).
  destruct (lstrip_chars_split cs (list_ascii_of_string t)) as (a & Ha & Hain).
  destruct (lstrip_chars_split cs (rev (lstrip_chars cs (list_ascii_of_string t))))
    as (b & Hb & Hbin).
  exists a, (rev b). split; [|split; [done|split; [by apply Forall_rev|]]].
  - rewrite Ha at 1. f_equal. rewrite <- rev_app_distr, <- Hb. by rewrite rev_involutive.
  - apply (py_strip_trimmed chars t).
Qed.

Lemma stripped_unique chars t s : stripped chars t s -> s = py_strip chars t.
Proof.
  intros (a & b & Ht & Ha & Hb & [Hs1 Hs2]). unfold py_strip. rewrite Ht.
  rewrite lstrip_chars_among by done.
  rewrite <- (string_of_list_ascii_of_string s) at 1. f_equal.
  destruct (list_ascii_of_string s) as [|c l] eqn:E.
  - cbn [app]. rewrite <- (app_nil_r b), lstrip_chars_among by done. done.
  - rewrite (lstrip_chars_keep _ ((c :: l) ++ b)) by exact Hs1.
    rewrite rev_app_distr, lstrip_chars_among by by apply Forall_rev.
    rewrite (lstrip_chars_keep _ (rev (c :: l))) by exact Hs2. by rewrite rev_involutive.
Qed.

Lemma strip_of_removed words text s :
  Forall (fun w => w <> "") words ->
  py_strip " ,.?!" (fold_left (fun t w => py_remove w t) words text) = s
  <-> exists r, removed_all words text r /\ stripped " ,.?!" r s.
Proof.
  intros Hw. split.
  - intros <-. eexists. split; [by apply remove_all_removed|apply py_strip_stripped].
  - intros (r & Hr & Hs). apply (removed_all_unique words Hw) in Hr. subst r.
    symmetry. by apply stripped_unique.
Qed.

(** C9, as the code has it.  What [strip_wake] returns is the text (in the
    bridge the lower-cased text, in the large-model Vosk script the text as
    it is) from which the configured wake phrases were removed one after
    the other in their order, each in one pass from the left, and which
    was then cut at its two ends by the characters of [" ,.?!"], so that it
    neither begins nor ends with one of them; and no other text is that.
    On ["hey bruno wag your tail"] it returns ["wag your tail"]. *)
Theorem strip_wake_removes_and_trims (text s : string) :
  (Bridge.strip_wake text = s
   <-> exists r, removed_all Bridge.WAKE_WORDS (lower text) r /\ stripped " ,.?!" r s)
  /\ (BigLoop.strip_wake text = s
      <-> exists r, removed_all BigLoop.WAKE_WORDS text r /\ stripped " ,.?!" r s)
  /\ Bridge.strip_wake "hey bruno wag your tail" = "wag your tail"
  /\ BigLoop.strip_wake "hey bruno wag your tail" = "wag your tail".
Proof.
  split; [|split; [|split; vm_compute; reflexivity]].
  - apply strip_of_removed. by repeat constructor.
  - apply strip_of_removed. by repeat constructor.
Qed.

Lemma strip_wake_removes_and_trims_witness :
  exists r, removed_all Bridge.WAKE_WORDS (lower "Hey Bruno, sit!") r
            /\ stripped " ,.?!" r "sit".
Proof.
  apply (proj1 (proj1 (strip_wake_removes_and_trims "Hey Bruno, sit!" "sit"))).
  vm_compute. reflexivity.
Defined.

(** Dropping the inner ["bruno"] of ["brbrunouno"] joins the two halves of
    another one, which stays. *)
Lemma strip_wake_leaves_wake_phrase :
  Bridge.strip_wake "brbrunouno" = "bruno"
  /\ existsb (fun w => str_contains w (Bridge.strip_wake "brbrunouno")) Bridge.WAKE_WORDS
     = true
  /\ BigLoop.strip_wake "brbrunouno" = "bruno"
  /\ existsb (fun w => str_contains w (BigLoop.strip_wake "brbrunouno")) BigLoop.WAKE_WORDS
     = true.
Proof. repeat split; vm_compute; reflexivity. Qed.

(** ** The command put to the planner *)

Lemma main_turn_command last w :
  Bridge.main_turn last w
  = match Bridge.wake_gate last w with
    | None => Ok (last, Bridge.NoWake)
    | Some ts =>
        plan ← Bridge.plan_step (Bridge.planner w) (Bridge.command w);
        match Bridge.dispatch w plan with
        | Raise KeyboardInterrupt => Raise KeyboardInterrupt
        | reply => Ok (ts, Bridge.Sent (Bridge.command w) plan reply)
        end
    end.
Proof. reflexivity. Qed.

Lemma strip_wake_or_default_trimmed (s : string) :
  let cmd := Bridge.strip_wake s in
  let cmd := if String.eqb cmd "" then "wag your tail" else cmd in
  cmd <> "" /\ trimmed " ,.?!" cmd.
Proof.
  cbn zeta. destruct (String.eqb_spec (Bridge.strip_wake s) "") as [E|E].
  - split; [done|]. split; reflexivity.
  - split; [done|]. unfold Bridge.strip_wake. apply py_strip_trimmed.
Qed.

Lemma bridge_command_trimmed w :
  Bridge.command w <> "" /\ trimmed " ,.?!" (Bridge.command w).
Proof. unfold Bridge.command. cbv zeta. apply strip_wake_or_default_trimmed. Qed.

(** In a turn of the bridge's main loop that gets as far as the ESP32, the
    command that was put to the planner is the one of lines 238-248: it is
    never the empty text and it neither begins nor ends with a blank or one
    of [,.?!]; the plan sent is the planning step's answer to it. *)
Theorem bridge_command_never_empty (last : Q) (w : Bridge.turn) (ts : Q)
    (cmd : string) (plan : json) (reply : result string) :
  Bridge.main_turn last w = Ok (ts, Bridge.Sent cmd plan reply) ->
  cmd = Bridge.command w /\ cmd <> "" /\ trimmed " ,.?!" cmd
  /\ Bridge.plan_step (Bridge.planner w) cmd = Ok plan.
Proof.
  rewrite main_turn_command.
  destruct (bridge_command_trimmed w) as [Hne Htr]. revert Hne Htr.
  generalize (Bridge.command w). intros c Hne Htr.
  destruct (Bridge.wake_gate last w) as [ts'|]; [|discriminate].
  destruct (Bridge.plan_step (Bridge.planner w) c) as [plan'|] eqn:Hp;
    cbn [mbind result_bind]; [|discriminate].
  destruct (Bridge.dispatch w plan') as [r|[]]; try discriminate;
    intros [= <- <- <- <-]; repeat split; done || apply Htr.
Qed.

Lemma bridge_command_never_empty_witness :
  exists ts plan reply,
    Bridge.main_turn 0 (hears "hey bruno" 100) = Ok (ts, Bridge.Sent "sit" plan reply)
    /\ trimmed " ,.?!" "sit".
Proof.
  destruct (Bridge.main_turn 0 (hears "hey bruno" 100)) as [[ts [|cmd plan reply]]|] eqn:E;
    [by vm_compute in E| |by vm_compute in E].
  destruct (bridge_command_never_empty 0 (hears "hey bruno" 100) ts cmd plan reply E)
    as (-> & _ & Htr & _).
  exists ts, plan, reply. split; [reflexivity|exact Htr].
Defined.

(** None of the three main loops puts the empty text to the planner: the
    bridge and the small-model Vosk script ask for ["wag your tail"] in its
    place, and the large-model Vosk script gives the turn up on an empty
    command and asks for ["wag your tail"] where stripping leaves nothing.
    A command with no wake word in it goes to the planner, in the two Vosk
    scripts, exactly as it was heard. *)
Theorem command_never_empty (w : Bridge.turn) (cmd : string) :
  Bridge.command w <> ""
  /\ WakeLoopVosk.command cmd <> ""
  /\ (BigLoop.command cmd = None <-> cmd = "")
  /\ (forall c, BigLoop.command cmd = Some c -> c <> "")
  /\ (cmd <> "" -> WakeLoopVosk.any_wake cmd = false -> WakeLoopVosk.command cmd = cmd)
  /\ (cmd <> "" -> BigLoop.any_wake cmd = false -> BigLoop.command cmd = Some cmd).
Proof.
  split; [apply bridge_command_trimmed|]. split; [|split; [|split; [|split]]].
  - unfold WakeLoopVosk.command. cbv zeta.
    by destruct (String.eqb_spec (if WakeLoopVosk.any_wake cmd
                                  then WakeLoopVosk.strip_wake cmd else cmd) "").
  - unfold BigLoop.command. destruct (String.eqb_spec cmd ""); [done|].
    split; [|done]. by destruct (BigLoop.any_wake cmd).
  - unfold BigLoop.command. intros c. destruct (String.eqb_spec cmd ""); [done|].
    destruct (BigLoop.any_wake cmd); cbv zeta; [|by intros [= <-]].
    destruct (String.eqb_spec (BigLoop.strip_wake cmd) ""); by intros [= <-].
  - intros Hne Hw. unfold WakeLoopVosk.command. rewrite Hw. cbv zeta.
    by destruct (String.eqb_spec cmd "").
  - intros Hne Hw. unfold BigLoop.command. rewrite Hw.
    by destruct (String.eqb_spec cmd "").
Qed.

Lemma command_never_empty_witness :
  WakeLoopVosk.command "sit down" = "sit down"
  /\ BigLoop.command "sit down" = Some "sit down"
  /\ WakeLoopVosk.command "bruno" = "wag your tail".
Proof.
  destruct (command_never_empty (hears "" 0) "sit down") as (_ & _ & _ & _ & H1 & H2).
  split; [apply H1; [discriminate|reflexivity]|].
  split; [apply H2; [discriminate|reflexivity]|reflexivity].
Defined.

(** [hear_command] returns the transcript made under the command grammar
    when that has two words or more, and never a shorter text than it; it
    returns the empty text only when both transcripts are empty. *)
Theorem hear_command_longer (text text2 : string) :
  (String.length text <= String.length (WakeLoopVosk.hear_command text text2))%nat
  /\ ((2 <= word_count text)%nat -> WakeLoopVosk.hear_command text text2 = text)
  /\ (WakeLoopVosk.hear_command text text2 = "" <-> text = "" /\ text2 = "")
  /\ (WakeLoopVosk.hear_command text text2 = text
      \/ WakeLoopVosk.hear_command text text2 = text2).
Proof.
  unfold WakeLoopVosk.hear_command.
  destruct (Nat.ltb_spec (word_count text) 2) as [Hw|Hw].
  - destruct (Nat.ltb_spec (String.length text) (String.length text2)) as [Hl|Hl].
    + split; [lia|]. split; [lia|]. split; [|by right].
      split; [intros ->; cbn in Hl; lia|by intros [_ ->]].
    + split; [lia|]. split; [done|]. split; [|by left].
      split; [intros ->; cbn in Hl; by destruct text2; [|cbn in Hl; lia]|by intros [-> _]].
  - split; [lia|]. split; [done|]. split; [|by left].
    split; [intros ->; vm_compute in Hw; lia|by intros [-> _]].
Qed.

Lemma hear_command_longer_witness :
  WakeLoopVosk.hear_command "wag your tail" "wag" = "wag your tail".
Proof.
  apply (hear_command_longer "wag your tail" "wag"). vm_compute. lia.
Defined.

(** ** Transcripts are lower-case *)

Lemma lower_ascii_idem c : lower_ascii (lower_ascii c) = lower_ascii c.
Proof. destruct c as [[] [] [] [] [] [] [] []]; reflexivity. Qed.

Lemma lower_idem s : lower (lower s) = lower s.
Proof.
  unfold lower. rewrite list_ascii_of_string_of_list_ascii, map_map.
  f_equal. apply map_ext. intros c. apply lower_ascii_idem.
Qed.






(** ** What a recording holds *)

Lemma capture_takes cfg start ticks : forall buf run,
  exists taken,
    fst (Bridge.capture cfg start ticks buf run) = (buf ++ taken)%list
    /\ taken `prefix_of` leading_blocks ticks
    /\ (taken = [] <-> leading_blocks ticks = [])
    /\ match snd (Bridge.capture cfg start ticks buf run) with
       | Some Starved | None => taken = leading_blocks ticks
       | Some (Silence now) =>
           exists pre x tc post,
             ticks = (pre ++ Block x now tc :: post)%list
             /\ taken = (leading_blocks pre ++ [x])%list
             /\ length (leading_blocks pre) = length pre
       | Some (Ceiling now) =>
           exists pre x tf post,
             ticks = (pre ++ Block x tf now :: post)%list
             /\ taken = (leading_blocks pre ++ [x])%list
             /\ length (leading_blocks pre) = length pre
       end.
Proof.
  induction ticks as [|[|x tf tc] ticks IH]; intros buf run; cbn [Bridge.capture].
  - exists []. by rewrite app_nil_r.
  - exists []. by rewrite app_nil_r.
  - cbv zeta. cbn [leading_blocks].
    assert (exists taken,
              (buf ++ [x])%list = (buf ++ taken)%list
              /\ taken `prefix_of` x :: leading_blocks ticks
              /\ (taken = [] <-> x :: leading_blocks ticks = [])
              /\ (forall now, exists pre x0 tc0 post,
                    (now = tf -> Block x tf tc :: ticks = (pre ++ Block x0 now tc0 :: post)%list)
                    /\ taken = (leading_blocks pre ++ [x0])%list
                    /\ length (leading_blocks pre) = length pre)
              /\ (forall now, exists pre x0 tf0 post,
                    (now = tc -> Block x tf tc :: ticks = (pre ++ Block x0 tf0 now :: post)%list)
                    /\ taken = (leading_blocks pre ++ [x0])%list
                    /\ length (leading_blocks pre) = length pre)) as Hstop.
    { exists [x]. split; [done|]. split; [by apply prefix_cons, prefix_nil|].
      split; [done|]. split; intros now; exists [], x; eexists _, ticks;
        (split; [by intros ->|done]). }
    assert (forall run', exists taken,
              fst (Bridge.capture cfg start ticks (buf ++ [x]) run') = (buf ++ taken)%list
              /\ taken `prefix_of` x :: leading_blocks ticks
              /\ (taken = [] <-> x :: leading_blocks ticks = [])
              /\ match snd (Bridge.capture cfg start ticks (buf ++ [x]) run') with
                 | Some Starved | None => taken = x :: leading_blocks ticks
                 | Some (Silence now) =>
                     exists pre x0 tc0 post,
                       Block x tf tc :: ticks = (pre ++ Block x0 now tc0 :: post)%list
                       /\ taken = (leading_blocks pre ++ [x0])%list
                       /\ length (leading_blocks pre) = length pre
                 | Some (Ceiling now) =>
                     exists pre x0 tf0 post,
                       Block x tf tc :: ticks = (pre ++ Block x0 tf0 now :: post)%list
                       /\ taken = (leading_blocks pre ++ [x0])%list
                       /\ length (leading_blocks pre) = length pre
                 end) as Hrec.
    { intros run'. destruct (IH (buf ++ [x])%list run') as (taken & H1 & H2 & H3 & H4).
      exists (x :: taken). split; [by rewrite H1, <- app_assoc|].
      split; [by apply prefix_cons|]. split; [done|].
      destruct (snd (Bridge.capture cfg start ticks (buf ++ [x]) run')) as [[|now|now]|].
      - by rewrite H4.
      - destruct H4 as (pre & x0 & tc0 & post & -> & -> & Hl).
        exists (Block x tf tc :: pre), x0, tc0, post. cbn [leading_blocks length app].
        by rewrite Hl.
      - destruct H4 as (pre & x0 & tf0 & post & -> & -> & Hl).
        exists (Block x tf tc :: pre), x0, tf0, post. cbn [leading_blocks length app].
        by rewrite Hl.
      - by rewrite H4. }
    destruct Hstop as (taken & S1 & S2 & S3 & S4 & S5).
    destruct (Qltb (tf - start) (Bridge.min_s cfg)).
    + destruct (Qltb (Bridge.max_s cfg) (tc - start)); [|apply Hrec].
      exists taken. cbn [fst snd]. repeat split; try done; try apply S3.
      destruct (S5 tc) as (pre & x0 & tf0 & post & E & ? & ?).
      exists pre, x0, tf0, post. auto.
    + destruct (Bridge.silence_frames_needed cfg <=? _).
      * exists taken. cbn [fst snd]. repeat split; try done; try apply S3.
        destruct (S4 tf) as (pre & x0 & tc0 & post & E & ? & ?).
        exists pre, x0, tc0, post. auto.
      * destruct (Qltb (Bridge.max_s cfg) (tc - start)); [|apply Hrec].
        exists taken. cbn [fst snd]. repeat split; try done; try apply S3.
        destruct (S5 tc) as (pre & x0 & tf0 & post & E & ? & ?).
        exists pre, x0, tf0, post. auto.
Qed.

(** The recording is made of the blocks the queue handed over, in their
    order and with none left out, the block on which the loop stops
    included; when the queue times out, or the blocks run out, it holds all
    there were.  It is empty only if the first read of the queue timed
    out. *)
Theorem recording_keeps_blocks (cfg : Bridge.capture_config) (start : Q)
    (ticks : list tick) :
  let buf := fst (Bridge.record_utterance cfg start ticks) in
  buf `prefix_of` leading_blocks ticks
  /\ (buf = [] <-> leading_blocks ticks = [])
  /\ match snd (Bridge.record_utterance cfg start ticks) with
     | Some Starved | None => buf = leading_blocks ticks
     | Some (Silence now) =>
         exists pre x tc post,
           ticks = (pre ++ Block x now tc :: post)%list
           /\ buf = (leading_blocks pre ++ [x])%list
           /\ length (leading_blocks pre) = length pre
     | Some (Ceiling now) =>
         exists pre x tf post,
           ticks = (pre ++ Block x tf now :: post)%list
           /\ buf = (leading_blocks pre ++ [x])%list
           /\ length (leading_blocks pre) = length pre
     end.
Proof.
  cbn zeta. unfold Bridge.record_utterance.
  destruct (capture_takes cfg start ticks [] 0) as (taken & H1 & H2 & H3 & H4).
  cbn [app] in H1. rewrite H1. auto.
Qed.

(** ** Stopping on silence *)

Lemma clock_steady_weaken t t' ticks :
  (t' <= t)%Q -> clock_steady t ticks -> clock_steady t' ticks.
Proof.
  induction ticks as [|[|x tf tc] ticks IH]; cbn [clock_steady]; [done|auto|].
  intros H [H1 H2]. split; [lra|done].
Qed.

(** While the loop runs, the last [silent_run] blocks recorded are quiet
    ones; and once [silent_run] counts, the floor has been passed for
    good. *)
Lemma capture_quiet_run cfg start ticks : forall buf run buf' now,
  (0 <= run) ->
  (exists pre tail, buf = (pre ++ tail)%list /\ length tail = Z.to_nat run
     /\ Forall (fun x => quiet cfg x = true) tail) ->
  (0 < run -> exists t0, (Bridge.min_s cfg <= t0 - start)%Q /\ clock_steady t0 ticks) ->
  (run = 0 -> exists t0, clock_steady t0 ticks) ->
  Bridge.capture cfg start ticks buf run = (buf', Some (Silence now)) ->
  exists pre tail,
    buf' = (pre ++ tail)%list
    /\ length tail = Z.to_nat (Bridge.silence_frames_needed cfg)
    /\ Forall (fun x => quiet cfg x = true) tail.
Proof.
  induction ticks as [|[|x tf tc] ticks IH]; intros buf run buf' now Hrun Htail Hpast Hzero;
    cbn [Bridge.capture]; [done..|].
  cbv zeta.
  destruct Htail as (pre & tail & -> & Hlen & Hq).
  destruct (Qltb (tf - start) (Bridge.min_s cfg)) eqn:Efloor.
  - (* below the floor: [silent_run] is still 0 *)
    assert (run = 0) as ->.
    { destruct (Z.eq_dec run 0) as [|Hne]; [done|]. exfalso.
      destruct Hpast as (t0 & Ht0 & [Hle _]); [lia|].
      apply Qltb_lt in Efloor. lra. }
    destruct (Qltb (Bridge.max_s cfg) (tc - start)); [done|].
    apply IH; [done| | |].
    + exists ((pre ++ tail) ++ [x])%list, []. by rewrite app_nil_r.
    + lia.
    + intros _. destruct (Hzero eq_refl) as (t0 & _ & H). by exists tf.
  - apply Qltb_ge in Efloor.
    assert (clock_steady tf ticks) as Hclk.
    { destruct (Z.eq_dec run 0) as [->|Hne].
      - by destruct (Hzero eq_refl) as (t0 & _ & H).
      - by destruct Hpast as (t0 & _ & [_ H]); [lia|]. }
    set (run' := if Qltb (Bridge.energy cfg) (rms x) then 0 else run + 1).
    assert (0 <= run') as Hrun' by (subst run'; destruct (Qltb _ (rms x)); lia).
    assert (exists pre' tail', ((pre ++ tail) ++ [x])%list = (pre' ++ tail')%list
              /\ length tail' = Z.to_nat run'
              /\ Forall (fun x => quiet cfg x = true) tail') as Htail'.
    { subst run'. destruct (Qltb (Bridge.energy cfg) (rms x)) eqn:Esp.
      - exists ((pre ++ tail) ++ [x])%list, []. by rewrite app_nil_r.
      - exists pre, (tail ++ [x])%list. split; [by rewrite app_assoc|].
        split; [rewrite length_app; cbn [length]; lia|].
        apply Forall_app. split; [done|]. constructor; [|done].
        unfold quiet. by rewrite Esp. }
    destruct (Bridge.silence_frames_needed cfg <=? run') eqn:Estop.
    + intros [= <- _]. apply Z.leb_le in Estop.
      destruct Htail' as (pre' & tail' & -> & Hlen' & Hq').
      set (n := Z.to_nat (Bridge.silence_frames_needed cfg)).
      assert (n <= length tail')%nat as Hn by (subst n; lia).
      exists (pre' ++ take (length tail' - n) tail')%list, (drop (length tail' - n) tail').
      split; [by rewrite <- app_assoc, take_drop|].
      split; [rewrite length_drop; lia|].
      by apply Forall_drop.
    + destruct (Qltb (Bridge.max_s cfg) (tc - start)); [done|].
      apply IH; [done|done| |].
      * intros _. exists tf. split; [done|done].
      * intros _. by exists tf.
Qed.

(** With the default parameters the silence test asks for 23 blocks:
    [int(0.7 / (30/1000.0))]. *)
Lemma default_frames_needed : Bridge.silence_frames_needed Bridge.default_config = 23.
Proof. vm_compute. reflexivity. Qed.

(** With the parameters [record_utterance] is called with (its defaults),
    and under a clock that does not go back, the loop is left through the
    silence test only when the 23 blocks recorded last were all quiet: a
    block of speech starts the count again. *)
Theorem silence_after_quiet_run (start : Q) (ticks : list tick) (buf : list chunk)
    (now : Q) :
  clock_steady start ticks ->
  Bridge.record_utterance Bridge.default_config start ticks = (buf, Some (Silence now)) ->
  exists pre tail,
    buf = (pre ++ tail)%list
    /\ length tail = 23%nat
    /\ Forall (fun x => quiet Bridge.default_config x = true) tail.
Proof.
  intros Hclk. unfold Bridge.record_utterance. intros Hrun.
  apply capture_quiet_run in Hrun as (pre & tail & -> & Hlen & Hq);
    [|done|by exists [], []|lia|by exists start].
  exists pre, tail. by rewrite default_frames_needed in Hlen.
Qed.

Lemma silence_after_quiet_run_witness :
  let loud := {| rms := 500 |} in
  let soft := {| rms := 3 |} in
  exists pre tail,
    (loud :: repeat soft 23) = (pre ++ tail)%list
    /\ length tail = 23%nat
    /\ Forall (fun x => quiet Bridge.default_config x = true) tail.
Proof.
  cbn zeta.
  apply (silence_after_quiet_run 0
           (Block {| rms := 500 |} 1 1 :: repeat (Block {| rms := 3 |} 2 2) 23)
           ({| rms := 500 |} :: repeat {| rms := 3 |} 23) 2).
  - vm_compute. intuition discriminate.
  - vm_compute. reflexivity.
Defined.

(** ** A recording with nothing in it *)

(** When the first read of the queue times out, [transcribe_audio] returns
    the empty text without asking the model; whatever it returns is
    lower-case; and a turn of the main loop whose wake transcript is that
    empty text goes back to listening: no wake, [last_wake_ts] as it was,
    no call of the planner. *)
Theorem starved_recording_no_wake (start : Q) (ticks : list tick)
    (segments : list chunk -> list string) :
  Bridge.transcribe_audio start (QueueEmpty :: ticks) segments = Some ""
  /\ (forall t, Bridge.transcribe_audio start ticks segments = Some t -> lower t = t)
  /\ (forall last w,
        Bridge.transcribe_audio start (QueueEmpty :: ticks) segments
        = Some (Bridge.wake_text w) ->
        Bridge.main_turn last w = Ok (last, Bridge.NoWake)).
Proof.
  split; [reflexivity|]. split.
  - intros t. unfold Bridge.transcribe_audio.
    destruct (Bridge.record_utterance Bridge.default_config start ticks) as [[|x buf] [why|]];
      intros [= <-]; [reflexivity|apply lower_idem].
  - intros last w H.
    assert (Bridge.wake_text w = "") as Hw by (by injection H).
    rewrite main_turn_command. unfold Bridge.wake_gate. by rewrite Hw.
Qed.

(** ** A plan that cannot be delivered *)

Lemma main_turn_returns last w :
  planner_answers w -> delivery_caught w ->
  exists last' o, Bridge.main_turn last w = Ok (last', o).
Proof.
  intros Hp Hd. rewrite main_turn_command.
  destruct (Bridge.wake_gate last w) as [ts|]; [|by eexists _, _].
  destruct (Hp (Bridge.command w)) as [plan ->]. cbn [mbind result_bind].
  specialize (Hd plan).
  destruct (Bridge.dispatch w plan) as [r|[]]; try done; by eexists _, _.
Qed.

(** [send_to_esp32] raises what the POST raises and [HTTPError] on a
    reply of status 400 to 599, and returns the text of any other reply.
    Whatever it does (an interrupt from the keyboard apart, which ends the
    loop), the main loop goes on: as long as the planner answers, every turn
    ends with a result, one for each turn. *)
Theorem delivery_failure_keeps_loop (last : Q) (ws : list Bridge.turn) :
  (forall env plan,
     Bridge.send_to_esp32 env plan
     = match Bridge.post_command env plan with
       | Raise e => Raise e
       | Ok r =>
           if (400 <=? status_code r) && (status_code r <? 600) then Raise HTTPError
           else Ok (Bridge.reply_text env r)
       end)
  /\ (Forall planner_answers ws -> Forall delivery_caught ws ->
      exists last' os, Bridge.main_loop last ws = Ok (last', os) /\ length os = length ws).
Proof.
  split.
  - intros env plan. unfold Bridge.send_to_esp32, raise_for_status.
    destruct (Bridge.post_command env plan) as [r|]; cbn [mbind result_bind]; [|done].
    by destruct ((400 <=? status_code r) && (status_code r <? 600)).
  - revert last. induction ws as [|w ws IH]; intros last Hws Hcaught.
    + by exists last, [].
    + apply Forall_cons in Hws as [Hw Hws]. apply Forall_cons in Hcaught as [Hd Hcaught].
      destruct (main_turn_returns last w Hw Hd) as (mid & o & Ht).
      destruct (IH mid Hws Hcaught) as (last' & os & Hl & Hlen).
      exists last', (o :: os). cbn [Bridge.main_loop]. rewrite Ht.
      cbn [mbind result_bind]. rewrite Hl. cbn [mbind result_bind length].
      by rewrite Hlen.
Qed.

Lemma delivery_failure_keeps_loop_witness :
  let w := {| Bridge.wake_text := "hey bruno sit down"; Bridge.t_test := 100;
              Bridge.t_set := 100; Bridge.cmd_text := "";
              Bridge.planner := chatty_planner;
              Bridge.dispatch := Bridge.send_to_esp32 unreachable_esp32 |} in
  exists last' os, Bridge.main_loop 0 [w; w] = Ok (last', os) /\ length os = 2%nat.
Proof.
  cbn zeta.
  refine (proj2 (delivery_failure_keeps_loop 0 _) _ _).
  - repeat constructor; intros cmd; eexists; reflexivity.
  - repeat constructor; intros plan; discriminate.
Defined.

(** ** Which object the validator returns *)

Module HeapResult.
Import Heap HeapFacts.

Lemma triple_pure_pre {A} (P : heap -> Prop) (phi : Prop) (m : M A) Q E :
  (phi -> triple P m Q E) -> triple (fun h => P h /\ phi) m Q E.
Proof. intros H h [HP Hphi]. by apply H. Qed.

Lemma alloc_fixed_new old target intent :
  triple (fun h => old ⊆ h /\ old !! target = None /\ is_Some (h !! target))
         (alloc (ODict [ ("intent", intent); ("effects", VRef target) ]))
         (fun fixed h => building old fixed target intent h /\ old !! fixed = None)
         (fun h => old ⊆ h).
Proof.
  intros h (H1 & H2 & H3).
  pose proof (alloc_fixed old target intent h (conj H1 (conj H2 H3))) as Hb.
  unfold alloc in *. split; [exact Hb|by apply fresh_not_in].
Qed.

(** The repair returns the fallback object or an object made during the
    call. *)
Lemma repair_result old fallback plan :
  triple (fun h => h = old) (repair fallback plan)
         (fun v h => old ⊆ h
                     /\ (v = fallback
                         \/ exists l, v = VRef l /\ old !! l = None /\ is_Some (h !! l)))
         (fun h => old ⊆ h).
Proof.
  unfold repair.
  eapply triple_bind; [apply triple_reads; [apply reads_get|by intros ? ->]|].
  cbv beta. intros intent.
  eapply triple_bind; [apply alloc_target|]. cbv beta. intros target.
  eapply triple_bind; [apply alloc_fixed_new|]. cbv beta zeta. intros fixed.
  apply triple_pure_pre. intros Hnew.
  eapply triple_bind; [apply building_alloc|]. cbv beta. intros default.
  step_read reads_get. step_read reads_iter.
  eapply triple_bind; [apply building_for_each|]. cbv beta. intros ?.
  step_read reads_getitem. step_read reads_truthy.
  intros h Hb. cbn. split; [apply Hb|].
  match goal with |- context [if ?b then _ else _] => destruct b end; [right|by left].
  exists fixed. split; [done|]. split; [done|]. rewrite (b_fixed _ _ _ _ _ Hb). by eexists.
Qed.

End HeapResult.

(** What [validate_or_fix] returns is no copy: it is the very object it
    was handed, with the store untouched, when that passes the schema; and
    otherwise either the module's [FALLBACK_PLAN] object itself or an
    object made during the call. *)
Theorem validate_or_fix_returns_alias (fallback plan v : Heap.val)
    (h h' : gmap Heap.loc Heap.obj) :
  Heap.validate_or_fix fallback plan h = (Ok v, h') ->
  (if conforms BRUNO_SCHEMA (Heap.view 3 h plan) then v = plan /\ h' = h
   else v = fallback
        \/ exists l, v = Heap.VRef l /\ h !! l = None /\ is_Some (h' !! l)).
Proof.
  unfold Heap.validate_or_fix, Heap.validate, Heap.schema_depth, validate.
  destruct (conforms BRUNO_SCHEMA (Heap.view 3 h plan)); cbn [fst snd].
  - by intros [= <- <-].
  - intros Hr. pose proof (HeapResult.repair_result h fallback plan h eq_refl) as H.
    rewrite Hr in H. apply H.
Qed.

Lemma validate_or_fix_returns_alias_witness :
  exists h', Heap.validate_or_fix Heap.VNone (Heap.VRef 1%positive) sample_heap
             = (Ok (Heap.VRef 5%positive), h')
             /\ sample_heap !! 5%positive = None.
Proof.
  destruct (Heap.validate_or_fix Heap.VNone (Heap.VRef 1%positive) sample_heap)
    as [[v|] h'] eqn:E; [|by vm_compute in E].
  pose proof (validate_or_fix_returns_alias _ _ _ _ _ E) as H.
  assert (v = Heap.VRef 5%positive) as -> by (vm_compute in E; congruence).
  exists h'. split; [reflexivity|].
  change (conforms BRUNO_SCHEMA (Heap.view 3 sample_heap (Heap.VRef 1%positive)))
    with false in H.
  destruct H as [H|(l & [= <-] & H & _)]; [discriminate|exact H].
Defined.

(** ** What the validators raise *)













(** ** Effects that are no list *)

(** Where [effects] is there but is no list, the plan does not pass the
    schema and the bridge's repair loops over what it finds: over nothing
    when it is the empty text or the empty object, which gives the fallback
    plan; over the characters of a text or the keys of an object, whose
    first has no [get] ([AttributeError]); and a number, a truth value or
    [null] cannot be looped over ([TypeError]). *)
Theorem effects_not_a_list (d : list (string * json)) (v : json) :
  dict_get "effects" d = Some v ->
  (forall es, v <> JArr es) ->
  Bridge.validate_or_fix (JObj d)
  = match v with
    | JStr "" | JObj [] => Ok FALLBACK_PLAN
    | JStr _ | JObj _ => Raise AttributeError
    | _ => Raise TypeError
    end.
Proof.
  intros Hd Hv.
  assert (conforms BRUNO_SCHEMA (JObj d) = false) as Hc.
  { apply not_true_is_false. intros (d' & es & [= <-] & He & _)%conforms_plan_obj.
    rewrite Hd in He. injection He as ->. by destruct (Hv es). }
  rewrite validate_fix by done. unfold repair. cbn [py_get mbind result_bind].
  unfold dict_get_default at 2. rewrite Hd.
  destruct v as [|b|n|s|es|fields]; try reflexivity.
  - by destruct s.
  - by destruct (Hv es).
  - by destruct fields as [|[k x] fields].
Qed.

Lemma effects_not_a_list_witness :
  Bridge.validate_or_fix (JObj [ ("intent", JStr "X"); ("effects", JStr "wag") ])
  = Raise AttributeError.
Proof.
  apply (effects_not_a_list [ ("intent", JStr "X"); ("effects", JStr "wag") ] (JStr "wag")).
  - reflexivity.
  - intros es. discriminate.
Defined.

(** ** A reply of the planner that has not the expected shape *)



(** ** A command in the wake utterance *)

(** The command is taken from the wake utterance when stripping it leaves
    two words or more, and then the second recording plays no part; when
    it leaves fewer, the command is taken from the second recording alone,
    and a single word left in the wake utterance is dropped. *)
Theorem inline_command_needs_two_words (w w' : Bridge.turn) :
  ((2 <= word_count (Bridge.strip_wake (Bridge.wake_text w)))%nat ->
   Bridge.wake_text w' = Bridge.wake_text w ->
   Bridge.command w' = Bridge.command w)
  /\ ((word_count (Bridge.strip_wake (Bridge.wake_text w)) < 2)%nat ->
      (word_count (Bridge.strip_wake (Bridge.wake_text w')) < 2)%nat ->
      Bridge.cmd_text w' = Bridge.cmd_text w ->
      Bridge.command w' = Bridge.command w).
Proof.
  unfold Bridge.command. cbv zeta. split.
  - intros H ->. apply Nat.leb_le in H. by rewrite H.
  - intros H H' ->. apply Nat.leb_gt in H, H'. by rewrite H, H'.
Qed.

Lemma inline_command_needs_two_words_witness :
  Bridge.command (hears "hey bruno bark" 0) = "sit"
  /\ Bridge.command (hears "hey bruno" 0) = "sit".
Proof.
  assert (Bridge.command (hears "hey bruno" 0) = "sit") as E by reflexivity.
  split; [|exact E]. rewrite <- E.
  apply (inline_command_needs_two_words (hears "hey bruno" 0) (hears "hey bruno bark" 0));
    [vm_compute; lia|vm_compute; lia|reflexivity].
Defined.

(** ** Silence that ends the recording *)

Lemma capture_quiet_stops cfg start quiet_run : forall post buf run,
  0 <= run -> quiet_run <> [] ->
  Forall (quiet_past_floor cfg start) quiet_run ->
  Bridge.silence_frames_needed cfg <= run + Z.of_nat (length quiet_run) ->
  exists buf' why,
    Bridge.capture cfg start (quiet_run ++ post) buf run = (buf', Some why)
    /\ (length buf' <= length buf + length quiet_run)%nat.
Proof.
  induction quiet_run as [|[|x tf tc] rest IH]; intros post buf run Hrun Hne Hq Hn; [done|..].
  - apply Forall_cons in Hq as [[] _].
  - apply Forall_cons in Hq as [[Hx Hfloor] Hq].
    cbn [app Bridge.capture]. cbv zeta.
    apply Qltb_ge in Hfloor. rewrite Hfloor.
    unfold quiet in Hx. apply negb_true_iff in Hx. rewrite Hx.
    destruct (Bridge.silence_frames_needed cfg <=? run + 1) eqn:Estop.
    { eexists _, _. split; [reflexivity|]. rewrite length_app. cbn. lia. }
    destruct (Qltb (Bridge.max_s cfg) (tc - start)).
    { eexists _, _. split; [reflexivity|]. rewrite length_app. cbn. lia. }
    apply Z.leb_gt in Estop. cbn [length] in Hn.
    destruct (IH post (buf ++ [x])%list (run + 1)) as (buf' & why & -> & Hl);
      [lia|destruct rest; [cbn in Hn; lia|done]|done|lia|].
    exists buf', why. split; [done|]. rewrite length_app in Hl. cbn in *. lia.
Qed.

Lemma capture_reaches cfg start pre : forall rest buf run,
  0 <= run ->
  (exists buf' why,
     Bridge.capture cfg start (pre ++ rest) buf run = (buf', Some why)
     /\ (length buf' <= length buf + length pre)%nat)
  \/ (exists buf1 run1,
        0 <= run1 /\ (length buf1 <= length buf + length pre)%nat
        /\ Bridge.capture cfg start (pre ++ rest) buf run
           = Bridge.capture cfg start rest buf1 run1).
Proof.
  induction pre as [|[|x tf tc] pre IH]; intros rest buf run Hrun.
  - right. exists buf, run. cbn. split; [done|]. split; [lia|done].
  - left. cbn [app Bridge.capture]. eexists _, _. split; [reflexivity|]. lia.
  - cbn [app Bridge.capture]. cbv zeta.
    assert (forall run', 0 <= run' ->
              (exists buf' why,
                 Bridge.capture cfg start (pre ++ rest) (buf ++ [x]) run' = (buf', Some why)
                 /\ (length buf' <= length buf + length (Block x tf tc :: pre))%nat)
              \/ (exists buf1 run1,
                    0 <= run1
                    /\ (length buf1 <= length buf + length (Block x tf tc :: pre))%nat
                    /\ Bridge.capture cfg start (pre ++ rest) (buf ++ [x]) run'
                       = Bridge.capture cfg start rest buf1 run1)) as Hrec.
    { intros run' Hrun'.
      destruct (IH rest (buf ++ [x])%list run' Hrun')
        as [(b & why & -> & Hl)|(b & r1 & H1 & Hl & ->)]; rewrite length_app in Hl; cbn in Hl.
      - left. exists b, why. split; [done|]. cbn. lia.
      - right. exists b, r1. split; [done|]. split; [cbn; lia|done]. }
    assert (forall why : stop, exists (buf' : list chunk) (why' : stop),
              ((buf ++ [x])%list, Some why) = (buf', Some why')
              /\ (length buf' <= length buf + length (Block x tf tc :: pre))%nat) as Hstop.
    { intros why. eexists _, _. split; [reflexivity|]. rewrite length_app. cbn. lia. }
    destruct (Qltb (tf - start) (Bridge.min_s cfg)).
    + destruct (Qltb (Bridge.max_s cfg) (tc - start)); [left; apply Hstop|by apply Hrec].
    + destruct (Bridge.silence_frames_needed cfg <=? _); [left; apply Hstop|].
      destruct (Qltb (Bridge.max_s cfg) (tc - start)); [left; apply Hstop|].
      apply Hrec. destruct (Qltb (Bridge.energy cfg) (rms x)); lia.
Qed.

(** With the parameters [record_utterance] is called with (its defaults):
    once the floor of 1.5 s is passed, 23 quiet blocks in a row end the
    recording: by the last of them the loop has been left, with no more
    blocks recorded than had been handed over by then. *)
Theorem quiet_run_ends_recording (start : Q) (pre quiet_run post : list tick) :
  Forall (quiet_past_floor Bridge.default_config start) quiet_run ->
  (23 <= length quiet_run)%nat ->
  exists buf why,
    Bridge.record_utterance Bridge.default_config start (pre ++ quiet_run ++ post)
    = (buf, Some why)
    /\ (length buf <= length pre + length quiet_run)%nat.
Proof.
  intros Hq Hn. unfold Bridge.record_utterance.
  assert (quiet_run <> []) as Hne by (destruct quiet_run; cbn in Hn; [lia|done]).
  destruct (capture_reaches Bridge.default_config start pre (quiet_run ++ post) [] 0
              ltac:(done))
    as [(b & why & -> & Hl)|(b & r1 & H1 & Hl & ->)]; cbn [length] in Hl.
  - exists b, why. split; [done|]. lia.
  - destruct (capture_quiet_stops Bridge.default_config start quiet_run post b r1 H1 Hne Hq)
      as (b' & why & -> & Hl'); [rewrite default_frames_needed; lia|].
    exists b', why. split; [done|]. lia.
Qed.

Lemma quiet_run_ends_recording_witness :
  exists buf why,
    Bridge.record_utterance Bridge.default_config 0
      (Block {| rms := 500 |} 1 1 :: repeat (Block {| rms := 3 |} 2 2) 23
       ++ [ Block {| rms := 500 |} 3 3 ])
    = (buf, Some why)
    /\ (length buf <= 24)%nat.
Proof.
  apply (quiet_run_ends_recording 0
           [ Block {| rms := 500 |} 1 1 ]
           (repeat (Block {| rms := 3 |} 2 2) 23)
           [ Block {| rms := 500 |} 3 3 ]).
  - repeat constructor; vm_compute; discriminate.
  - vm_compute. lia.
Defined.

(** ** Debounce in the small-model Vosk script *)

Lemma vosk_gate_some last heard tt ts r :
  WakeLoopVosk.wake_gate last heard tt ts = Some r ->
  heard = true /\ r = ts /\ (last + WakeLoopVosk.WAKE_DEBOUNCE_S <= tt)%Q.
Proof.
  unfold WakeLoopVosk.wake_gate. destruct heard; [|done]. cbn [negb].
  destruct (Qltb _ _) eqn:E; [done|]. intros [= <-].
  apply Qltb_ge in E. repeat split. lra.
Qed.

Lemma vosk_turn_inv last w last' o :
  WakeLoopVosk.main_turn last w = Ok (last', o) ->
  (vosk_accepted o = false /\ last' = last)
  \/ (vosk_accepted o = true /\ last' = WakeLoopVosk.t_set w
      /\ (last + WakeLoopVosk.WAKE_DEBOUNCE_S <= WakeLoopVosk.t_test w)%Q
      /\ exists plan reply, o = WakeLoopVosk.Sent (WakeLoopVosk.command (WakeLoopVosk.heard_command w))
                                                  plan reply).
Proof.
  unfold WakeLoopVosk.main_turn.
  destruct (WakeLoopVosk.wake_gate _ _ _ _) as [ts|] eqn:Hg.
  - apply vosk_gate_some in Hg as (_ & -> & Hwin). cbv zeta.
    generalize (WakeLoopVosk.command (WakeLoopVosk.heard_command w)). intros cmd.
    destruct (Bridge.plan_step _ cmd) as [plan|]; cbn [mbind result_bind]; [|discriminate].
    destruct (WakeLoopVosk.dispatch w plan) as [text|[]]; intros [= <- <-];
      right; (repeat split; [done|]); by eexists _, _.
  - intros [= <- <-]. by left.
Qed.

Lemma vosk_loop_cons last w ws last' os :
  WakeLoopVosk.main_loop last (w :: ws) = Ok (last', os) ->
  exists mid o os',
    WakeLoopVosk.main_turn last w = Ok (mid, o)
    /\ WakeLoopVosk.main_loop mid ws = Ok (last', os')
    /\ os = o :: os'.
Proof.
  cbn [WakeLoopVosk.main_loop].
  destruct (WakeLoopVosk.main_turn last w) as [[mid o]|]; cbn [mbind result_bind]; [|done].
  destruct (WakeLoopVosk.main_loop mid ws) as [[l os']|] eqn:Hrest; cbn [mbind result_bind];
    [|done].
  intros [= <- <-]. by exists mid, o, os'.
Qed.

Lemma vosk_clock_weaken t t' ws :
  (t' <= t)%Q -> vosk_clock_from t ws -> vosk_clock_from t' ws.
Proof.
  destruct ws as [|w ws]; [done|]. cbn. intros H (H1 & H2 & H3).
  repeat split; [lra|done..].
Qed.

Lemma vosk_accepted_after ws : forall last last' os b j wj oj,
  WakeLoopVosk.main_loop last ws = Ok (last', os) ->
  (b <= last)%Q -> vosk_clock_from last ws ->
  ws !! j = Some wj -> os !! j = Some oj -> vosk_accepted oj = true ->
  (b + WakeLoopVosk.WAKE_DEBOUNCE_S <= WakeLoopVosk.t_test wj)%Q.
Proof.
  induction ws as [|w ws IH]; intros last last' os b j wj oj Hrun Hb Hclk Hw Ho Hacc;
    [done|].
  apply vosk_loop_cons in Hrun as (mid & o & os' & Hturn & Hrest & ->).
  destruct Hclk as (C1 & C2 & C3).
  apply vosk_turn_inv in Hturn as [(Hno & ->)|(_ & -> & Hwin & _)].
  - destruct j as [|j]; cbn in Hw, Ho.
    + injection Ho as <-. congruence.
    + apply (IH last last' os' b j wj oj); try done.
      apply (vosk_clock_weaken (WakeLoopVosk.t_set w)); [lra|done].
  - destruct j as [|j]; cbn in Hw, Ho.
    + injection Hw as <-. lra.
    + apply (IH (WakeLoopVosk.t_set w) last' os' b j wj oj); try done. lra.
Qed.

Lemma vosk_sent ws : forall last last' os j wj oj,
  WakeLoopVosk.main_loop last ws = Ok (last', os) ->
  ws !! j = Some wj -> os !! j = Some oj -> vosk_accepted oj = true ->
  exists plan reply,
    oj = WakeLoopVosk.Sent (WakeLoopVosk.command (WakeLoopVosk.heard_command wj)) plan reply.
Proof.
  induction ws as [|w ws IH]; intros last last' os j wj oj Hrun Hw Ho Hacc; [done|].
  apply vosk_loop_cons in Hrun as (mid & o & os' & Hturn & Hrest & ->).
  destruct j as [|j]; cbn in Hw, Ho.
  - injection Hw as <-. injection Ho as <-.
    by apply vosk_turn_inv in Hturn as [(Hno & _)|(_ & _ & _ & H)]; [congruence|].
  - by apply (IH mid last' os' j).
Qed.

Lemma vosk_command_not_empty cmd : WakeLoopVosk.command cmd <> "".
Proof.
  unfold WakeLoopVosk.command. cbv zeta.
  by destruct (String.eqb_spec (if WakeLoopVosk.any_wake cmd
                                then WakeLoopVosk.strip_wake cmd else cmd) "").
Qed.

(** In a run of the main loop of the small-model Vosk script under a
    clock that does not run backwards, a turn accepted after another was
    tested a full debounce window or more after [last_wake] was set by
    that one; and the command of an accepted turn is the one of lines
    228-232, never empty. *)
Theorem vosk_debounce (last : Q) (ws : list WakeLoopVosk.turn) (last' : Q)
    (os : list WakeLoopVosk.outcome) :
  WakeLoopVosk.main_loop last ws = Ok (last', os) ->
  vosk_clock_from last ws ->
  forall i j wi wj oi oj,
    (i < j)%nat ->
    ws !! i = Some wi -> ws !! j = Some wj ->
    os !! i = Some oi -> os !! j = Some oj ->
    vosk_accepted oi = true -> vosk_accepted oj = true ->
    (WakeLoopVosk.t_set wi + WakeLoopVosk.WAKE_DEBOUNCE_S <= WakeLoopVosk.t_test wj)%Q
    /\ exists plan reply,
         oj = WakeLoopVosk.Sent (WakeLoopVosk.command (WakeLoopVosk.heard_command wj)) plan reply
         /\ WakeLoopVosk.command (WakeLoopVosk.heard_command wj) <> "".
Proof.
  intros Hrun Hclk i j wi wj oi oj Hij Hwi Hwj Hoi Hoj Hai Haj. split.
  - revert last last' os Hrun Hclk i j Hij Hwi Hwj Hoi Hoj.
    induction ws as [|w ws IH]; intros last last' os Hrun Hclk i j Hij Hwi Hwj Hoi Hoj;
      [done|].
    apply vosk_loop_cons in Hrun as (mid & o & os' & Hturn & Hrest & ->).
    destruct Hclk as (C1 & C2 & C3).
    destruct j as [|j]; [lia|]. cbn in Hwj, Hoj.
    destruct i as [|i]; cbn in Hwi, Hoi.
    + injection Hwi as <-. injection Hoi as <-.
      apply vosk_turn_inv in Hturn as [(Hno & _)|(_ & -> & _ & _)]; [congruence|].
      apply (vosk_accepted_after ws _ _ _ (WakeLoopVosk.t_set w) j wj oj Hrest); try done.
      lra.
    + assert (vosk_clock_from mid ws) as Hmid.
      { apply vosk_turn_inv in Hturn as [(_ & ->)|(_ & -> & _)]; [|done].
        apply (vosk_clock_weaken (WakeLoopVosk.t_set w)); [lra|done]. }
      apply (IH mid last' os' Hrest Hmid i j); try done. lia.
  - destruct (vosk_sent ws last last' os j wj oj Hrun Hwj Hoj Haj) as (plan & reply & ->).
    exists plan, reply. split; [done|apply vosk_command_not_empty].
Qed.

Lemma vosk_debounce_witness :
  let turn t := {| WakeLoopVosk.heard := true; WakeLoopVosk.t_test := t;
                   WakeLoopVosk.t_set := t; WakeLoopVosk.heard_command := "sit down";
                   WakeLoopVosk.planner := chatty_planner;
                   WakeLoopVosk.dispatch := fun _ => Ok "ok" |} in
  exists last' os,
    WakeLoopVosk.main_loop 0 [turn 100%Q; turn 101%Q; turn 103%Q] = Ok (last', os)
    /\ map vosk_accepted os = [true; false; true]
    /\ (100 + WakeLoopVosk.WAKE_DEBOUNCE_S <= 103)%Q.
Proof.
  cbn zeta.
  set (turn := fun t => {| WakeLoopVosk.heard := true; WakeLoopVosk.t_test := t;
                           WakeLoopVosk.t_set := t; WakeLoopVosk.heard_command := "sit down";
                           WakeLoopVosk.planner := chatty_planner;
                           WakeLoopVosk.dispatch := fun _ => Ok "ok" |}).
  set (ws := [turn 100%Q; turn 101%Q; turn 103%Q]).
  destruct (WakeLoopVosk.main_loop 0 ws) as [[last' os]|] eqn:Hrun; [|by vm_compute in Hrun].
  assert (vosk_clock_from 0 ws) as Hclk by (vm_compute; intuition discriminate).
  assert (exists o0 o2, os = [o0; WakeLoopVosk.NoWake; o2] /\ vosk_accepted o0 = true
                        /\ vosk_accepted o2 = true) as (o0 & o2 & -> & A0 & A2).
  { vm_compute in Hrun. injection Hrun as _ <-. eexists _, _. repeat split. }
  exists last', [o0; WakeLoopVosk.NoWake; o2]. split; [reflexivity|].
  split; [cbn; by rewrite A0, A2|].
  apply (vosk_debounce 0 ws last' _ Hrun Hclk 0%nat 2%nat (turn 100%Q) (turn 103%Q) o0 o2);
    done || lia.
Defined.

(** ** What ends the main loop *)




(** An interrupt from the keyboard during [send_to_esp32] is not held by
    [except Exception]: it ends the loop, where a refused connection is
    stored as the reply of the turn and the loop goes on. *)
Lemma interrupted_delivery_leaves_loop :
  let turn reply := {| Bridge.wake_text := "hey bruno sit down"; Bridge.t_test := 20;
                       Bridge.t_set := 20; Bridge.cmd_text := "";
                       Bridge.planner := chatty_planner;
                       Bridge.dispatch := fun _ => reply |} in
  Bridge.main_loop 0 [turn (Raise KeyboardInterrupt)] = Raise KeyboardInterrupt
  /\ Bridge.main_loop 0 [turn (Raise ConnectionError)]
     = Ok (20%Q, [Bridge.Sent "sit down" FALLBACK_PLAN (Raise ConnectionError)]).
Proof. split; vm_compute; reflexivity. Qed.
